(** * Roster reconciliation: [addOrUpdatePersonInPeopleSheet]

    A shallow embedding of the upsert routine of [GenerateCueSheet.js]
    (lines 747-838) together with the part of the spreadsheet host it
    talks to: a grid of cells, its last row and last column, reading a
    range and writing one row. *)

From Stdlib Require Import String ZArith List Bool Lia PeanoNat.
From Stdlib Require DecimalString Sorted.
Import ListNotations.
Local Open Scope string_scope.
Local Open Scope list_scope.
Local Open Scope Z_scope.

(** ** Cell values and JavaScript helpers *)

(** What a cell hands back through [getValues]: a string, a number or a
    boolean.  An empty cell reads as the empty string. *)
Inductive value : Type :=
| VStr (s : string)
| VNum (n : Z)
| VBool (b : bool).

Definition blank : value := VStr "".

Definition value_eq_dec (a b : value) : {a = b} + {a <> b}.
Proof.
  decide equality; [apply string_dec | apply Z.eq_dec | apply bool_dec].
Defined.

(** [a === b] on cell values: same type and same content. *)
Definition strictEq (a b : value) : bool :=
  if value_eq_dec a b then true else false.

(** A number used as a condition: [if (n)] holds unless [n] is [0]. *)
Definition truthy (n : Z) : bool := negb (n =? 0).

(** [s || ''] on a string. *)
Definition orEmpty (s : string) : string :=
  if string_dec s "" then "" else s.

(** A JavaScript array: a slot is either a value or a hole, which reads
    as [undefined]. *)
Definition jsArray : Type := list (option value).

(** [a[i]]; [None] is [undefined] (a hole, or an index outside the
    array). *)
Definition arrayGet (a : jsArray) (i : Z) : option value :=
  if i <? 0 then None else nth (Z.to_nat i) a None.

(** [a[i] = v].  A write past the end leaves holes in between; a write
    at a negative index sets a property that is no element of the array
    and changes neither its slots nor its length. *)
Definition arraySet (a : jsArray) (i : Z) (v : value) : jsArray :=
  if i <? 0 then a
  else
    let n := Z.to_nat i in
    firstn n (a ++ repeat None (n - length a)%nat) ++ Some v :: skipn (S n) a.

(** [l.findIndex(p)], counting from [i]; [-1] when nothing satisfies
    [p]. *)
Fixpoint findIndexFrom {A : Type} (p : A -> bool) (l : list A) (i : Z) : Z :=
  match l with
  | [] => -1
  | x :: t => if p x then i else findIndexFrom p t (i + 1)
  end.

Definition findIndex {A : Type} (p : A -> bool) (l : list A) : Z :=
  findIndexFrom p l 0.

(** The loop
    [for (i = 0; i < n; i++) if (rowData[i] === undefined) rowData[i] = '';] *)
Definition fillUndefined (n : nat) (rowData : jsArray) : jsArray :=
  fold_left
    (fun acc i =>
       match arrayGet acc (Z.of_nat i) with
       | None => arraySet acc (Z.of_nat i) blank
       | Some _ => acc
       end)
    (seq 0 n) rowData.

(** The values of an array none of whose slots is a hole. *)
Fixpoint definedValues (a : jsArray) : option (list value) :=
  match a with
  | [] => Some []
  | None :: _ => None
  | Some v :: t =>
      match definedValues t with
      | Some l => Some (v :: l)
      | None => None
      end
  end.

(** ** The sheet *)

(** A sheet is a grid of cells without bound, kept as a list of rows.
    A cell the lists do not reach is empty, and a cell holds exactly
    the value last written to it.  [cellAt] counts rows and columns
    from [0]; the host's ranges count from [1]. *)
Definition Sheet : Type := list (list value).

Definition cellAt (sh : Sheet) (r c : nat) : value :=
  nth c (nth r sh []) blank.

Definition hasContent (v : value) : bool := negb (strictEq v blank).

(** Position, counted from [1], of the last element satisfying [p];
    [0] when there is none. *)
Fixpoint lastPos {A : Type} (p : A -> bool) (l : list A) : nat :=
  match l with
  | [] => 0%nat
  | x :: t =>
      match lastPos p t with
      | O => if p x then 1%nat else 0%nat
      | S k => S (S k)
      end
  end.

Definition lastRowN (sh : Sheet) : nat := lastPos (existsb hasContent) sh.

Definition lastColumnN (sh : Sheet) : nat :=
  fold_right (fun row m => Nat.max (lastPos hasContent row) m) 0%nat sh.

(** [sheet.getLastRow()] and [sheet.getLastColumn()]: the last row and
    column that hold content, [0] on a sheet without content. *)
Definition getLastRow (sh : Sheet) : Z := Z.of_nat (lastRowN sh).
Definition getLastColumn (sh : Sheet) : Z := Z.of_nat (lastColumnN sh).

(** [getRange] raises for a range that starts before row or column [1]
    or that has no row or no column ("The number of columns in the
    range must be at least 1"). *)
Definition validRange (row col numRows numCols : Z) : bool :=
  (1 <=? row) && (1 <=? col) && (1 <=? numRows) && (1 <=? numCols).

Definition rowValues (sh : Sheet) (r c0 n : nat) : list value :=
  map (cellAt sh r) (seq c0 n).

(** [sheet.getRange(row, col, numRows, numCols).getValues()]; [None]
    when the host raises. *)
Definition getValues (sh : Sheet) (row col numRows numCols : Z)
  : option (list (list value)) :=
  if validRange row col numRows numCols then
    Some (map (fun r => rowValues sh r (Z.to_nat (col - 1)) (Z.to_nat numCols))
              (seq (Z.to_nat (row - 1)) (Z.to_nat numRows)))
  else None.

(** [sheet.getRange(row, col).getValue()]. *)
Definition getValue (sh : Sheet) (row col : Z) : option value :=
  if validRange row col 1 1 then
    Some (cellAt sh (Z.to_nat (row - 1)) (Z.to_nat (col - 1)))
  else None.

(** [sheet.getDataRange().getValues()]: every row up to the last row
    and every column up to the last column; the single cell A1 on a
    sheet without content. *)
Definition getDataRangeValues (sh : Sheet) : list (list value) :=
  map (fun r => rowValues sh r 0 (Nat.max 1 (lastColumnN sh)))
      (seq 0 (Nat.max 1 (lastRowN sh))).

(** Row [r] (from [0]) of the grid replaced, from its first column on,
    by [vals]; the grid grows by empty rows when [r] is past its end. *)
Fixpoint writeRow (sh : Sheet) (r : nat) (vals : list value) : Sheet :=
  match r, sh with
  | O, [] => [vals]
  | O, old :: rest => (vals ++ skipn (length vals) old) :: rest
  | S k, [] => [] :: writeRow [] k vals
  | S k, old :: rest => old :: writeRow rest k vals
  end.

(** [sheet.getRange(row, 1, 1, rowData.length).setValues([rowData])];
    [None] when the host raises: no such range, or a slot of [rowData]
    that is [undefined]. *)
Definition setRowValues (sh : Sheet) (row : Z) (rowData : jsArray)
  : option Sheet :=
  if validRange row 1 1 (Z.of_nat (length rowData)) then
    match definedValues rowData with
    | Some vals => Some (writeRow sh (Z.to_nat (row - 1)) vals)
    | None => None
    end
  else None.

(** ** The reconciler *)

(** The object the form handlers build ([processRegistrationForm],
    [processVolunteerForm], [processSpeakerForm]): every field is set,
    and set to a string. *)
Record Contact : Type := mkContact {
  name : string;
  email : string;
  phone : string;
  category : string;
  status : string;
  role : string;
  notes : string
}.

(** What [Logger.log] receives:
    ['People sheet not found'],
    ['Required columns not found in People sheet'],
    [`Updated existing person: ${data.name} (${data.email}) at row ${currentRow}`],
    [`Added new person: ${data.name} (${data.email}) to row ${newRow}`]. *)
Inductive LogEntry : Type :=
| LogSheetNotFound
| LogRequiredColumnsNotFound
| LogUpdated (who mail : string) (row : Z)
| LogAdded (who mail : string) (row : Z).

Inductive Completion : Type :=
| Returned
| Raised.

(** The outcome of a call: how it ended, what it logged, and the People
    sheet it leaves behind ([None]: the spreadsheet has no sheet of that
    name). *)
Record Result : Type := mkResult {
  completion : Completion;
  logged : list LogEntry;
  people : option Sheet
}.

Definition returned (l : list LogEntry) (ss : option Sheet) : Result :=
  mkResult Returned l ss.

(** A host call made while the store is [ss]: its exception ends the
    function before anything was written. *)
Definition host {A : Type} (ss : option Sheet) (call : option A)
  (k : A -> Result) : Result :=
  match call with
  | Some x => k x
  | None => mkResult Raised [] ss
  end.

(** [header => header === s] *)
Definition headerIs (s : string) (header : value) : bool :=
  strictEq header (VStr s).

(** [allData[i][emailColIndex - 1] === data.email] for the row
    [allData[i]]. *)
Definition rowHasEmail (emailColIndex : Z) (mail : string)
  (row : list value) : bool :=
  match arrayGet (map Some row) (emailColIndex - 1) with
  | Some v => strictEq v (VStr mail)
  | None => false
  end.

(** [ss] is what [getSheetByName('People')] finds in the active
    spreadsheet; the function touches no other sheet. *)
Definition addOrUpdatePersonInPeopleSheet (ss : option Sheet) (data : Contact)
  : Result :=
  match ss with
  | None => returned [LogSheetNotFound] ss
  | Some peopleSheet =>
    host ss (getValues peopleSheet 1 1 1 (getLastColumn peopleSheet))
    (fun values =>
    let headers := nth 0 values [] in
    let nameColIndex := findIndex (headerIs "Name") headers + 1 in
    let categoryColIndex := findIndex (headerIs "Category") headers + 1 in
    let roleColIndex := findIndex (headerIs "Role/Position") headers + 1 in
    let statusColIndex := findIndex (headerIs "Status") headers + 1 in
    let emailColIndex := findIndex (headerIs "Email") headers + 1 in
    let phoneColIndex := findIndex (headerIs "Phone") headers + 1 in
    let assignedTasksColIndex :=
      findIndex (headerIs "Assigned Tasks") headers + 1 in
    if negb (truthy nameColIndex) || negb (truthy categoryColIndex)
       || negb (truthy emailColIndex)
    then returned [LogRequiredColumnsNotFound] ss
    else
      let allData := getDataRangeValues peopleSheet in
      (* for (let i = 1; i < allData.length; i++) ... break *)
      let existingRowIndex :=
        findIndexFrom (rowHasEmail emailColIndex (email data)) (tl allData) 1 in
      let rowData : jsArray := [] in
      let rowData :=
        if truthy nameColIndex
        then arraySet rowData (nameColIndex - 1) (VStr (orEmpty (name data)))
        else rowData in
      let rowData :=
        if truthy categoryColIndex
        then arraySet rowData (categoryColIndex - 1)
               (VStr (orEmpty (category data)))
        else rowData in
      let rowData :=
        if truthy roleColIndex
        then arraySet rowData (roleColIndex - 1) (VStr (orEmpty (role data)))
        else rowData in
      let rowData :=
        if truthy statusColIndex
        then arraySet rowData (statusColIndex - 1)
               (VStr (orEmpty (status data)))
        else rowData in
      let rowData :=
        if truthy emailColIndex
        then arraySet rowData (emailColIndex - 1) (VStr (orEmpty (email data)))
        else rowData in
      let rowData :=
        if truthy phoneColIndex
        then arraySet rowData (phoneColIndex - 1) (VStr (orEmpty (phone data)))
        else rowData in
      if negb (existingRowIndex =? -1) then
        let currentRow := existingRowIndex + 1 in
        host ss
          (if truthy assignedTasksColIndex
           then
             match getValue peopleSheet currentRow assignedTasksColIndex with
             | Some currentAssignedTasks =>
                 Some (arraySet rowData (assignedTasksColIndex - 1)
                         currentAssignedTasks)
             | None => None
             end
           else Some (arraySet rowData (assignedTasksColIndex - 1) blank))
        (fun rowData =>
        let rowData := fillUndefined (length headers) rowData in
        host ss (setRowValues peopleSheet currentRow rowData)
        (fun written =>
        returned [LogUpdated (name data) (email data) currentRow]
          (Some written)))
      else
        let rowData :=
          if truthy assignedTasksColIndex
          then arraySet rowData (assignedTasksColIndex - 1) blank
          else rowData in
        let rowData := fillUndefined (length headers) rowData in
        let lastRow := getLastRow peopleSheet in
        let newRow := lastRow + 1 in
        host ss (setRowValues peopleSheet newRow rowData)
        (fun written =>
        returned [LogAdded (name data) (email data) newRow] (Some written)))
  end.

(** ** The row that is written, in closed form *)

(** The seven column numbers the function resolves (counted from [1],
    [0] for a header that is absent). *)
Record Columns : Type := mkColumns {
  nameCol : Z;
  categoryCol : Z;
  roleCol : Z;
  statusCol : Z;
  emailCol : Z;
  phoneCol : Z;
  tasksCol : Z
}.

Definition columnsOf (headers : list value) : Columns :=
  {| nameCol := findIndex (headerIs "Name") headers + 1;
     categoryCol := findIndex (headerIs "Category") headers + 1;
     roleCol := findIndex (headerIs "Role/Position") headers + 1;
     statusCol := findIndex (headerIs "Status") headers + 1;
     emailCol := findIndex (headerIs "Email") headers + 1;
     phoneCol := findIndex (headerIs "Phone") headers + 1;
     tasksCol := findIndex (headerIs "Assigned Tasks") headers + 1 |}.

(** Row 1 up to the last column, as the function reads it. *)
Definition headerRow (sh : Sheet) : list value :=
  rowValues sh 0 0 (lastColumnN sh).

(** The index the scan for [data.email] ends with. *)
Definition existingRowIndexOf (sh : Sheet) (cs : Columns) (mail : string) : Z :=
  findIndexFrom (rowHasEmail (emailCol cs) mail) (tl (getDataRangeValues sh)) 1.

(** Slot [j] (from [0]) of [rowData] once the assignments and the fill
    loop have run; a later assignment wins over an earlier one. *)
Definition rowCell (cs : Columns) (data : Contact) (tasks : value) (j : nat)
  : value :=
  let z := Z.of_nat j + 1 in
  if z =? tasksCol cs then tasks
  else if z =? phoneCol cs then VStr (phone data)
  else if z =? emailCol cs then VStr (email data)
  else if z =? statusCol cs then VStr (status data)
  else if z =? roleCol cs then VStr (role data)
  else if z =? categoryCol cs then VStr (category data)
  else if z =? nameCol cs then VStr (name data)
  else blank.

Definition closedForm (sh : Sheet) (data : Contact) : Result :=
  let n := lastColumnN sh in
  let cs := columnsOf (headerRow sh) in
  if (n =? 0)%nat then mkResult Raised [] (Some sh)
  else if (nameCol cs =? 0) || (categoryCol cs =? 0) || (emailCol cs =? 0)
  then returned [LogRequiredColumnsNotFound] (Some sh)
  else
    let i := existingRowIndexOf sh cs (email data) in
    if i =? -1 then
      returned [LogAdded (name data) (email data) (getLastRow sh + 1)]
        (Some (writeRow sh (lastRowN sh)
                 (map (rowCell cs data blank) (seq 0 n))))
    else
      returned [LogUpdated (name data) (email data) (i + 1)]
        (Some (writeRow sh (Z.to_nat i)
                 (map (rowCell cs data
                         (cellAt sh (Z.to_nat i) (Z.to_nat (tasksCol cs - 1))))
                    (seq 0 n)))).

(** The array [rowData] after lines 788-794. *)
Definition formatted (cs : Columns) (data : Contact) : jsArray :=
  let rowData : jsArray := [] in
  let rowData :=
    if truthy (nameCol cs)
    then arraySet rowData (nameCol cs - 1) (VStr (orEmpty (name data)))
    else rowData in
  let rowData :=
    if truthy (categoryCol cs)
    then arraySet rowData (categoryCol cs - 1) (VStr (orEmpty (category data)))
    else rowData in
  let rowData :=
    if truthy (roleCol cs)
    then arraySet rowData (roleCol cs - 1) (VStr (orEmpty (role data)))
    else rowData in
  let rowData :=
    if truthy (statusCol cs)
    then arraySet rowData (statusCol cs - 1) (VStr (orEmpty (status data)))
    else rowData in
  let rowData :=
    if truthy (emailCol cs)
    then arraySet rowData (emailCol cs - 1) (VStr (orEmpty (email data)))
    else rowData in
  if truthy (phoneCol cs)
  then arraySet rowData (phoneCol cs - 1) (VStr (orEmpty (phone data)))
  else rowData.

(** Every resolved column lies within the first [n] columns. *)
Definition columnsWithin (cs : Columns) (n : nat) : Prop :=
  0 <= nameCol cs <= Z.of_nat n /\ 0 <= categoryCol cs <= Z.of_nat n
  /\ 0 <= roleCol cs <= Z.of_nat n /\ 0 <= statusCol cs <= Z.of_nat n
  /\ 0 <= emailCol cs <= Z.of_nat n /\ 0 <= phoneCol cs <= Z.of_nat n
  /\ 0 <= tasksCol cs <= Z.of_nat n.

(** ** Vocabulary of the statements *)

(** The column number (from [1]; [0]: absent) the function resolves for
    the header [s], and the matching index into a row array. *)
Definition columnOf (sh : Sheet) (s : string) : Z :=
  findIndex (headerIs s) (headerRow sh) + 1.

Definition colIx (sh : Sheet) (s : string) : nat :=
  Z.to_nat (columnOf sh s - 1).

(** The guard of line 769 lets the call through. *)
Definition requiredColumns (sh : Sheet) : Prop :=
  columnOf sh "Name" <> 0 /\ columnOf sh "Category" <> 0
  /\ columnOf sh "Email" <> 0.

(** [r] indexes a record: a row of [allData] below the header row. *)
Definition isRecord (sh : Sheet) (r : nat) : Prop :=
  (1 <= r < lastRowN sh)%nat.

(** Record [r] carries the e-mail address [mail]. *)
Definition carriesEmail (sh : Sheet) (mail : string) (r : nat) : Prop :=
  isRecord sh r /\ cellAt sh r (colIx sh "Email") = VStr mail.

(** Two grids with the same content in every cell. *)
Definition sameCells (a b : Sheet) : Prop :=
  forall r c, cellAt a r c = cellAt b r c.

(** [r0] is the record the scan stops at: the first one carrying
    [mail]. *)
Definition firstRecordWith (sh : Sheet) (mail : string) (r0 : nat) : Prop :=
  carriesEmail sh mail r0
  /\ forall r, (1 <= r < r0)%nat ->
       cellAt sh r (colIx sh "Email") <> VStr mail.

(** No record carries [mail]. *)
Definition noRecordWith (sh : Sheet) (mail : string) : Prop :=
  forall r, isRecord sh r -> cellAt sh r (colIx sh "Email") <> VStr mail.

(** The headers the function has a column number for: the six it
    populates from the contact, and Assigned Tasks. *)
Definition populatedHeaders : list string :=
  ["Name"; "Category"; "Role/Position"; "Status"; "Email"; "Phone"].

Definition resolvedHeaders : list string :=
  populatedHeaders ++ ["Assigned Tasks"].

Definition isResolvedHeader (h : value) : bool :=
  existsb (fun s => strictEq h (VStr s)) resolvedHeaders.

(** At most one record per identity key: no two records share the
    content of their Email cell. *)
Definition uniqueEmails (sh : Sheet) : Prop :=
  columnOf sh "Email" <> 0 ->
  forall r r', isRecord sh r -> isRecord sh r' ->
    cellAt sh r (colIx sh "Email") = cellAt sh r' (colIx sh "Email") ->
    r = r'.

(** Two states of the store with the same content. *)
Definition sameStore (a b : option Sheet) : Prop :=
  match a, b with
  | Some x, Some y => sameCells x y
  | None, None => True
  | _, _ => False
  end.

(** The contact with one of its optional fields replaced. *)
Definition withRole (v : string) (data : Contact) : Contact :=
  mkContact (name data) (email data) (phone data) (category data)
    (status data) v (notes data).

Definition withStatus (v : string) (data : Contact) : Contact :=
  mkContact (name data) (email data) (phone data) (category data)
    v (role data) (notes data).

Definition withPhone (v : string) (data : Contact) : Contact :=
  mkContact (name data) (email data) v (category data)
    (status data) (role data) (notes data).

(** ** Sample rosters *)

Definition fullHeader : list value :=
  [VStr "Name"; VStr "Category"; VStr "Role/Position"; VStr "Status";
   VStr "Email"; VStr "Phone"; VStr "Assigned Tasks"; VStr "Notes"].

(** A roster with its header row only. *)
Definition rosterEmpty : Sheet := [fullHeader].

(** The roster of the end-to-end scenario, with a Notes column. *)
Definition rosterAna : Sheet :=
  [fullHeader;
   [VStr "Ana"; VStr "Volunteer"; VStr ""; VStr ""; VStr "ana@x.com";
    VStr ""; VStr "Signage"; VStr "Allergic to nuts"]].

Definition contactAna : Contact :=
  mkContact "Ana Lee" "ana@x.com" "" "Volunteer" "Accepted" "Lead" "".

(** A roster whose record has tasks assigned. *)
Definition rosterTasks : Sheet :=
  [fullHeader;
   [VStr "Ben"; VStr "Staff"; VStr "Usher"; VStr "Accepted"; VStr "ben@x.com";
    VStr "555-0100"; VStr "Setup, Teardown"; VStr ""]].

Definition contactBen : Contact :=
  mkContact "Benjamin" "ben@x.com" "555-0199" "Staff" "Accepted" "Usher" "".

(** A roster in which two records carry the same address. *)
Definition rosterTwice : Sheet :=
  [[VStr "Name"; VStr "Category"; VStr "Email"; VStr "Assigned Tasks"];
   [VStr "Cy"; VStr "Speaker"; VStr "cy@x.com"; VStr "Keynote"];
   [VStr "Cyrus"; VStr "Speaker"; VStr "cy@x.com"; VStr "Panel"]].

Definition contactCy : Contact :=
  mkContact "Cy Young" "cy@x.com" "" "Speaker" "Accepted" "" "".

(** A roster without the optional columns. *)
Definition rosterMinimal : Sheet :=
  [[VStr "Name"; VStr "Category"; VStr "Email"]].

(** A roster without an Email column. *)
Definition rosterNoEmail : Sheet :=
  [[VStr "Name"; VStr "Category"; VStr "Phone"];
   [VStr "Dee"; VStr "Staff"; VStr "555-0101"]].

(** A contact submitted without an address. *)
Definition contactNoEmail : Contact :=
  mkContact "Bob" "" "" "Volunteer" "Potential" "" "".

Definition contactLower : Contact :=
  mkContact "Al" "a@x.com" "" "Participant" "Registered" "" "".

Definition contactUpper : Contact :=
  mkContact "Al" "A@X.com" "" "Participant" "Registered" "" "".

(** A roster whose one record has no address. *)
Definition rosterNoAddress : Sheet :=
  [[VStr "Name"; VStr "Category"; VStr "Email"];
   [VStr "Robert"; VStr "Staff"; VStr ""]].

(** A roster with two Phone columns. *)
Definition rosterTwoPhones : Sheet :=
  [[VStr "Name"; VStr "Category"; VStr "Email"; VStr "Phone"; VStr "Phone"];
   [VStr "Ben"; VStr "Staff"; VStr "ben@x.com"; VStr "555-0100";
    VStr "555-0111"]].

(** ** The form-submission handlers *)

(** What [itemResponse.getResponse()] hands back: a string for a text,
    paragraph or multiple-choice item, an array of strings for a
    checkbox item. *)
Inductive Answer : Type :=
| AText (s : string)
| AList (l : list string).

Record ItemResponse : Type := mkItemResponse {
  title : string;       (* itemResponse.getItem().getTitle() *)
  response : Answer     (* itemResponse.getResponse() *)
}.

Record FormResponse : Type := mkFormResponse {
  respondentEmail : string;
  itemResponses : list ItemResponse
}.

(** The object [data] while a handler fills it: [name], [phone] and
    [role] receive an answer as it comes. *)
Record FormData : Type := mkFormData {
  dataName : Answer;
  dataEmail : string;
  dataPhone : Answer;
  dataCategory : string;
  dataStatus : string;
  dataRole : Answer;
  dataNotes : string
}.

Definition newline : string := String (Ascii.ascii_of_nat 10) "".

(** [if (answer)]: the empty string is falsy, an array never is. *)
Definition answerTruthy (answer : Answer) : bool :=
  match answer with
  | AText s => negb (s =? "")%string
  | AList _ => true
  end.

(** [`${answer}`]: an array prints as its elements joined by commas. *)
Definition answerText (answer : Answer) : string :=
  match answer with
  | AText s => s
  | AList l => String.concat "," l
  end.

Definition setName (answer : Answer) (data : FormData) : FormData :=
  mkFormData answer (dataEmail data) (dataPhone data) (dataCategory data)
    (dataStatus data) (dataRole data) (dataNotes data).

Definition setPhone (answer : Answer) (data : FormData) : FormData :=
  mkFormData (dataName data) (dataEmail data) answer (dataCategory data)
    (dataStatus data) (dataRole data) (dataNotes data).

Definition setRole (answer : Answer) (data : FormData) : FormData :=
  mkFormData (dataName data) (dataEmail data) (dataPhone data)
    (dataCategory data) (dataStatus data) answer (dataNotes data).

(** [data.notes += line] *)
Definition addNotes (line : string) (data : FormData) : FormData :=
  mkFormData (dataName data) (dataEmail data) (dataPhone data)
    (dataCategory data) (dataStatus data) (dataRole data)
    (dataNotes data ++ line)%string.

(** The note a volunteer or speaker answer leaves:
    [`${question}: ${answer.join(', ')}\n`] for an array,
    [`${question}: ${answer}\n`] otherwise. *)
Definition noteLine (question : string) (answer : Answer) : string :=
  match answer with
  | AList l => (question ++ ": " ++ String.concat ", " l ++ newline)%string
  | AText s => (question ++ ": " ++ s ++ newline)%string
  end.

(** The body of [itemResponses.forEach] in [processRegistrationForm]
    (lines 599-616). *)
Definition registrationStep (data : FormData) (itemResponse : ItemResponse)
  : FormData :=
  let question := title itemResponse in
  let answer := response itemResponse in
  if (question =? "Full Name")%string then setName answer data
  else if (question =? "Phone Number")%string then setPhone answer data
  else if (question =? "Dietary Restrictions or Preferences")%string
          || (question =? "Accessibility Needs")%string
          || (question =? "How did you hear about this event?")%string
  then
    if answerTruthy answer
    then addNotes (question ++ ": " ++ answerText answer ++ newline)%string data
    else data
  else data.

(** The same in [processVolunteerForm] (lines 648-676). *)
Definition volunteerStep (data : FormData) (itemResponse : ItemResponse)
  : FormData :=
  let question := title itemResponse in
  let answer := response itemResponse in
  if (question =? "Full Name")%string then setName answer data
  else if (question =? "Phone Number")%string then setPhone answer data
  else if (question =? "Preferred Role/Area")%string then
    match answer with
    | AList (first :: rest) =>
        addNotes ("Preferred Roles: "
                    ++ String.concat ", " (first :: rest) ++ newline)%string
          (setRole (AText first) data)
    | _ => data
    end
  else if (question =? "Availability")%string
          || (question =? "T-Shirt Size")%string
          || (question =? "Previous Volunteer Experience")%string
  then
    if answerTruthy answer then addNotes (noteLine question answer) data
    else data
  else data.

(** The same in [processSpeakerForm] (lines 708-733). *)
Definition speakerStep (data : FormData) (itemResponse : ItemResponse)
  : FormData :=
  let question := title itemResponse in
  let answer := response itemResponse in
  if (question =? "Full Name")%string then setName answer data
  else if (question =? "Phone Number")%string then setPhone answer data
  else if (question =? "Session Title")%string then setRole answer data
  else if (question =? "Session Description")%string
          || (question =? "Speaker Bio")%string
          || (question =? "Headshot Photo Link")%string
          || (question =? "AV/Technical Requirements")%string
          || (question =? "Additional Notes or Requirements")%string
  then
    if answerTruthy answer then addNotes (noteLine question answer) data
    else data
  else data.

(** [data] when the handler reaches its call of
    [addOrUpdatePersonInPeopleSheet]. *)
Definition registrationData (formResponse : FormResponse) : FormData :=
  fold_left registrationStep (itemResponses formResponse)
    (mkFormData (AText "") (respondentEmail formResponse) (AText "")
       "Participant" "Registered" (AText "") "").

Definition volunteerData (formResponse : FormResponse) : FormData :=
  fold_left volunteerStep (itemResponses formResponse)
    (mkFormData (AText "") (respondentEmail formResponse) (AText "")
       "Volunteer" "Potential" (AText "") "").

Definition speakerData (formResponse : FormResponse) : FormData :=
  fold_left speakerStep (itemResponses formResponse)
    (mkFormData (AText "") (respondentEmail formResponse) (AText "")
       "Speaker" "Potential" (AText "") "").

Definition textOf (answer : Answer) : option string :=
  match answer with
  | AText s => Some s
  | AList _ => None
  end.

(** [data] as the contact the reconciler is embedded for: its name,
    phone and role are strings.  [None] when one of them is an array,
    which a form that asks for them in text items never produces. *)
Definition contactOf (data : FormData) : option Contact :=
  match textOf (dataName data), textOf (dataPhone data),
        textOf (dataRole data) with
  | Some n, Some p, Some r =>
      Some (mkContact n (dataEmail data) p (dataCategory data)
              (dataStatus data) r (dataNotes data))
  | _, _, _ => None
  end.

Inductive FormKind : Type :=
| Registration
| Volunteer
| Speaker.

(** What a handler run logs: the entries of the reconciler, and the
    entry of the handler's own [catch]
    ([`Error processing registration form submission: ${error}`] and
    its two siblings). *)
Inductive HandlerLog : Type :=
| Reconciler (entry : LogEntry)
| LogSubmissionError (kind : FormKind).

Record HandlerResult : Type := mkHandlerResult {
  handlerLogged : list HandlerLog;
  handlerPeople : option Sheet
}.

(** [try { addOrUpdatePersonInPeopleSheet(data); } catch (error) {
    Logger.log(...) }]: the handler itself always returns. *)
Definition submitContact (kind : FormKind) (ss : option Sheet)
  (data : Contact) : HandlerResult :=
  let result := addOrUpdatePersonInPeopleSheet ss data in
  match completion result with
  | Returned =>
      mkHandlerResult (map Reconciler (logged result)) (people result)
  | Raised =>
      mkHandlerResult
        (map Reconciler (logged result) ++ [LogSubmissionError kind])
        (people result)
  end.

(** The three handlers; [None] where [contactOf] is. *)
Definition processRegistrationForm (ss : option Sheet)
  (formResponse : FormResponse) : option HandlerResult :=
  option_map (submitContact Registration ss)
    (contactOf (registrationData formResponse)).

Definition processVolunteerForm (ss : option Sheet)
  (formResponse : FormResponse) : option HandlerResult :=
  option_map (submitContact Volunteer ss)
    (contactOf (volunteerData formResponse)).

Definition processSpeakerForm (ss : option Sheet)
  (formResponse : FormResponse) : option HandlerResult :=
  option_map (submitContact Speaker ss)
    (contactOf (speakerData formResponse)).

(** The contact with other notes. *)
Definition withNotes (v : string) (data : Contact) : Contact :=
  mkContact (name data) (email data) (phone data) (category data)
    (status data) (role data) v.

(** Two states of [data] that agree on everything but the notes. *)
Definition sameButNotes (d1 d2 : FormData) : Prop :=
  dataName d1 = dataName d2 /\ dataEmail d1 = dataEmail d2
  /\ dataPhone d1 = dataPhone d2 /\ dataCategory d1 = dataCategory d2
  /\ dataStatus d1 = dataStatus d2 /\ dataRole d1 = dataRole d2.

(** The store [ss] holds a first record for [mail] whose Category cell
    is [cat] and whose Status cell, if the header row has the column,
    is [stat]. *)
Definition recordStamped (ss : option Sheet) (mail cat stat : string) : Prop :=
  exists sh' r0,
    ss = Some sh'
    /\ firstRecordWith sh' mail r0
    /\ cellAt sh' r0 (colIx sh' "Category") = VStr cat
    /\ (columnOf sh' "Status" <> 0 ->
        cellAt sh' r0 (colIx sh' "Status") = VStr stat).

(** The same record has an empty Role/Position cell, if the header row
    has the column. *)
Definition recordWithoutRole (ss : option Sheet) (mail : string) : Prop :=
  exists sh' r0,
    ss = Some sh'
    /\ firstRecordWith sh' mail r0
    /\ (columnOf sh' "Role/Position" <> 0 ->
        cellAt sh' r0 (colIx sh' "Role/Position") = blank).

(** A submission to try the handlers on. *)
Definition submissionAna : FormResponse :=
  mkFormResponse "ana@x.com"
    [mkItemResponse "Full Name" (AText "Ana Lee");
     mkItemResponse "Phone Number" (AText "555-0123");
     mkItemResponse "Availability" (AList ["Setup Day"; "Cleanup Day"]);
     mkItemResponse "Preferred Role/Area" (AList ["Logistics"; "Registration"]);
     mkItemResponse "Session Title" (AText "Opening Talk");
     mkItemResponse "Accessibility Needs" (AText "None")].

(** ** Host strings *)

(** Two functions of the host's strings and numbers that the code calls
    and this file leaves open: [String.prototype.toLowerCase] and
    [Number.prototype.toString]. *)
Record JsStrings : Type := mkJsStrings {
  toLowerCase : string -> string;
  numberToString : Z -> string
}.

(** A value used as a condition: the empty string, [0] and [false] are
    falsy. *)
Definition truthyValue (v : value) : bool :=
  match v with
  | VStr s => negb (s =? "")%string
  | VNum n => negb (n =? 0)
  | VBool b => b
  end.

(** The same for what an array read hands back; [undefined] is falsy. *)
Definition truthyCell (o : option value) : bool :=
  match o with
  | Some v => truthyValue v
  | None => false
  end.

(** [v.toString()] *)
Definition valueToString (js : JsStrings) (v : value) : string :=
  match v with
  | VStr s => s
  | VNum n => numberToString js n
  | VBool true => "true"
  | VBool false => "false"
  end.

(** An instance to run examples with: letters A-Z are lowered, numbers
    print in decimal. *)
Definition asciiLower (c : Ascii.ascii) : Ascii.ascii :=
  let n := Ascii.nat_of_ascii c in
  if ((65 <=? n)%nat && (n <=? 90)%nat)%bool
  then Ascii.ascii_of_nat (n + 32)
  else c.

Fixpoint lowerAscii (s : string) : string :=
  match s with
  | EmptyString => EmptyString
  | String c t => String (asciiLower c) (lowerAscii t)
  end.

Definition asciiStrings : JsStrings :=
  mkJsStrings lowerAscii
    (fun n => DecimalString.NilZero.string_of_int (Z.to_int n)).

(** ** Finding a labelled row: [_findRow] and [getEventName] *)

(** [_findRow(sheet, label)].  [maxRows] is the number of rows of the
    sheet's grid, which is what the range [A:A] spans.  [None] is
    [null]. *)
Definition _findRow (maxRows : nat) (sheet : Sheet) (label : string)
  : option Z :=
  let vals := map (fun r => rowValues sheet r 0 1) (seq 0 maxRows) in
  (* for (let i = 0; i < vals.length; i++)
       if (vals[i][0] === label) return i + 1; *)
  let i :=
    findIndexFrom
      (fun row =>
         match arrayGet (map Some row) 0 with
         | Some v => strictEq v (VStr label)
         | None => false
         end)
      vals 0 in
  if i =? -1 then None else Some (i + 1).

(** ['Event Description sheet not found'] and
    ['Event Name row not found in Event Description sheet']. *)
Inductive EventNameLog : Type :=
| LogEventDescriptionSheetNotFound
| LogEventNameRowNotFound.

Record EventNameResult : Type := mkEventNameResult {
  eventNameCompletion : Completion;
  eventNameLogged : list EventNameLog;
  eventNameReturned : option string     (* None: null *)
}.

(** [getEventName()]; [eventDescSheet] is what
    [getSheetByName('Event Description')] finds. *)
Definition getEventName (js : JsStrings) (maxRows : nat)
  (eventDescSheet : option Sheet) : EventNameResult :=
  match eventDescSheet with
  | None =>
      mkEventNameResult Returned [LogEventDescriptionSheetNotFound] None
  | Some sheet =>
      match _findRow maxRows sheet "Event Name" with
      | None => mkEventNameResult Returned [LogEventNameRowNotFound] None
      | Some eventNameRow =>
          if negb (truthy eventNameRow)
          then mkEventNameResult Returned [LogEventNameRowNotFound] None
          else
            match getValue sheet eventNameRow 2 with
            | Some eventName =>
                mkEventNameResult Returned []
                  (if truthyValue eventName
                   then Some (valueToString js eventName)
                   else None)
            | None => mkEventNameResult Raised [] None
            end
      end
  end.

(** ** The form keys of the Config sheet *)

(** [row[0] && row[0].toString().toLowerCase() === key.toLowerCase()] *)
Definition rowHasKey (js : JsStrings) (key : string) (row : list value)
  : bool :=
  match arrayGet (map Some row) 0 with
  | Some v =>
      truthyValue v
      && (toLowerCase js (valueToString js v) =? toLowerCase js key)%string
  | None => false
  end.

(** The test of [rowHasKey] on the cell in column A. *)
Definition cellHasKey (js : JsStrings) (key : string) (v : value) : bool :=
  truthyValue v
  && (toLowerCase js (valueToString js v) =? toLowerCase js key)%string.

Definition formKeys : list string :=
  ["registration form"; "volunteer sign up"; "speaker form"].

(** [`Form key not found in Config sheet: ${key}`],
    ['Config sheet not found'], [`Form URL saved for key: ${key}`],
    [`Key not found in Config sheet: ${key}`]. *)
Inductive ConfigLog : Type :=
| LogFormKeyNotFound (key : string)
| LogConfigSheetNotFound
| LogFormUrlSaved (key : string)
| LogKeyNotFound (key : string).

(** [checkConfigEntries()]: what it logs and what it returns. *)
Definition checkConfigEntries (js : JsStrings) (configSheet : option Sheet)
  : list ConfigLog * bool :=
  match configSheet with
  | None => ([], false)
  | Some sheet =>
      let data := getDataRangeValues sheet in
      fold_left
        (fun (state : list ConfigLog * bool) key =>
           let found := existsb (rowHasKey js key) data in
           if negb found
           then (fst state ++ [LogFormKeyNotFound key], false)
           else state)
        formKeys ([], true)
  end.

(** The one write of [saveFormUrl]:
    [configSheet.getRange(row, col).setFormula(f)] where [f] is
    [=HYPERLINK("url","Key")], the link text being [key] with its first
    letter in upper case. *)
Record FormulaWrite : Type := mkFormulaWrite {
  formulaRow : Z;
  formulaColumn : Z;
  linkUrl : string;
  linkKey : string
}.

Record SaveResult : Type := mkSaveResult {
  saved : bool;
  saveLogged : list ConfigLog;
  formulaWritten : option FormulaWrite
}.

(** [saveFormUrl(key, url, editUrl)] *)
Definition saveFormUrl (js : JsStrings) (configSheet : option Sheet)
  (key url editUrl : string) : SaveResult :=
  match configSheet with
  | None => mkSaveResult false [LogConfigSheetNotFound] None
  | Some sheet =>
      let data := getDataRangeValues sheet in
      let i := findIndexFrom (rowHasKey js key) data 0 in
      if i =? -1
      then mkSaveResult false [LogKeyNotFound key] None
      else
        mkSaveResult true [LogFormUrlSaved key]
          (Some (mkFormulaWrite (i + 1) 2 url key))
  end.

(** ** Reading the Cue Builder sheet *)

(** The cells are the [value]s of the roster: strings, whole numbers and
    booleans.  A cell holding a date or a fraction is not covered. *)

Record Cue : Type := mkCue {
  scheduleItem : option value;
  cueTitle : option value;
  lead : option value;
  duration : value;
  mcScript : option value;
  lightingCue : option value;
  audioCue : option value;
  visualsCue : option value;
  originalRow : Z
}.

(** [headers.indexOf(x)] *)
Definition indexOf (x : string) (headers : list string) : Z :=
  findIndex (String.eqb x) headers.

(** [l.map((row, index) => f(row, index))], counting from [i]. *)
Fixpoint mapWithIndexFrom {A B : Type} (f : A -> Z -> B) (l : list A) (i : Z)
  : list B :=
  match l with
  | [] => []
  | x :: t => f x i :: mapWithIndexFrom f t (i + 1)
  end.

(** The object built for one row (lines 101-111). *)
Definition cueOfRow (headers : list string) (row : list value) (index : Z)
  : Cue :=
  let at_ (h : string) := arrayGet (map Some row) (indexOf h headers) in
  mkCue (at_ "schedule item") (at_ "cue title") (at_ "lead / talent")
    (match at_ "est. duration (mins)" with
     | Some v => if truthyValue v then v else VNum 0
     | None => VNum 0
     end)
    (at_ "mc script / notes") (at_ "lighting cue") (at_ "audio / sound cue")
    (at_ "visuals / screen cue") (index + 2).

(** [getCueBuilderData(ss)]; [cueBuilderSheet] is what
    [getSheetByName('Cue Builder')] finds.  [None]: the function throws
    (the sheet is missing). *)
Definition getCueBuilderData (js : JsStrings) (cueBuilderSheet : option Sheet)
  : option (list Cue) :=
  match cueBuilderSheet with
  | None => None
  | Some sheet =>
      let data := getDataRangeValues sheet in
      if Z.of_nat (length data) <? 2 then Some []
      else
        let headers :=
          map (fun h => toLowerCase js (valueToString js h)) (nth 0 data []) in
        let cueObjects := mapWithIndexFrom (cueOfRow headers) (tl data) 0 in
        Some (filter
                (fun cue =>
                   truthyCell (scheduleItem cue) && truthyCell (cueTitle cue))
                cueObjects)
  end.

(** The lower-cased headers [getCueBuilderData] looks its columns up in,
    and the object it builds for the row with index [r] of the data
    range. *)
Definition cueHeaders (js : JsStrings) (sh : Sheet) : list string :=
  map (fun h => toLowerCase js (valueToString js h))
    (rowValues sh 0 0 (Nat.max 1 (lastColumnN sh))).

Definition cueAt (js : JsStrings) (sh : Sheet) (r : nat) : Cue :=
  cueOfRow (cueHeaders js sh)
    (rowValues sh r 0 (Nat.max 1 (lastColumnN sh))) (Z.of_nat r - 1).

(** The filter of line 113. *)
Definition validCue (cue : Cue) : bool :=
  truthyCell (scheduleItem cue) && truthyCell (cueTitle cue).

(** [c] is the column [headers.indexOf(h)] finds: the first column of
    the data range whose header reads [h] in lower case. *)
Definition firstHeader (js : JsStrings) (sh : Sheet) (h : string) (c : nat)
  : Prop :=
  (c < Nat.max 1 (lastColumnN sh))%nat
  /\ toLowerCase js (valueToString js (cellAt sh 0 c)) = h
  /\ forall c', (c' < c)%nat ->
       toLowerCase js (valueToString js (cellAt sh 0 c')) <> h.

(** No header of the data range reads [h] in lower case. *)
Definition noHeader (js : JsStrings) (sh : Sheet) (h : string) : Prop :=
  forall c, (c < Nat.max 1 (lastColumnN sh))%nat ->
    toLowerCase js (valueToString js (cellAt sh 0 c)) <> h.

(** [o] is what row [r] holds under the header [h]: the cell in the
    first column whose header reads [h], [undefined] without one. *)
Definition readsUnder (js : JsStrings) (sh : Sheet) (r : nat) (h : string)
  (o : option value) : Prop :=
  (forall c, firstHeader js sh h c -> o = Some (cellAt sh r c))
  /\ (noHeader js sh h -> o = None).

(** Sample sheets for these functions. *)
Definition eventDescription : Sheet :=
  [[VStr "Field"; VStr "Value"];
   [VStr "Event Name"; VStr "Spring Gala"];
   [VStr "Location"; VStr "Main Hall"];
   [VStr "Event Name"; VStr "Autumn Gala"]].

Definition configSample : Sheet :=
  [[VStr "Key / Template Name"; VStr "Value / Subject"; VStr "Body"];
   [VStr "Event Type"; VStr "Single,Multi"; VStr ""];
   [VStr "Registration Form"; VStr ""; VStr ""];
   [VStr "volunteer sign up"; VStr ""; VStr ""];
   [VStr "speaker form"; VStr ""; VStr ""]].

Definition cueBuilder : Sheet :=
  [[VStr "Schedule Item"; VStr "Cue Title"; VStr "Lead / Talent";
    VStr "Est. Duration (mins)"];
   [VStr "Opening"; VStr "Doors"; VStr "Ana"; VNum 5];
   [VStr "Opening"; VStr ""; VStr "Ben"; VNum 3];
   [VStr "Keynote"; VStr "Walk-on"; VStr ""; VStr ""]].

(** A Cue Builder sheet whose rows all have an item and a title. *)
Definition cueRundown : Sheet :=
  [[VStr "Schedule Item"; VStr "Cue Title"];
   [VStr "Opening"; VStr "Doors"];
   [VStr "Opening"; VStr "Lights"];
   [VStr "Keynote"; VStr "Walk-on"]].

(** ** Arrays with holes *)

Section JsArrays.

Lemma nth_padded_set (a : jsArray) (n k : nat) (v : value) :
  nth k (firstn n (a ++ repeat None (n - length a)%nat)
           ++ Some v :: skipn (S n) a) None
  = if (k =? n)%nat then Some v else nth k a None.
Proof.
  assert (Hlen : length (firstn n (a ++ repeat None (n - length a)%nat)) = n).
  { rewrite length_firstn, length_app, repeat_length. lia. }
  destruct (Nat.eqb_spec k n) as [-> | Hne].
  - rewrite app_nth2 by lia. rewrite Hlen, Nat.sub_diag. reflexivity.
  - destruct (Nat.lt_ge_cases k n) as [Hlt | Hge].
    + rewrite app_nth1 by lia.
      rewrite nth_firstn.
      assert (Hk : (k <? n)%nat = true) by (apply Nat.ltb_lt; lia).
      rewrite Hk.
      destruct (Nat.lt_ge_cases k (length a)) as [Hin | Hout].
      * now rewrite app_nth1 by lia.
      * rewrite app_nth2 by lia.
        rewrite nth_repeat. now rewrite nth_overflow by lia.
    + rewrite app_nth2 by lia. rewrite Hlen.
      destruct (k - n)%nat as [| d] eqn:Hd; [lia |].
      cbn [nth].
      rewrite nth_skipn. f_equal. lia.
Qed.

Lemma arrayGet_arraySet (a : jsArray) (i j : Z) (v : value) :
  0 <= j ->
  arrayGet (arraySet a i v) j = if j =? i then Some v else arrayGet a j.
Proof.
  intros Hj. unfold arrayGet, arraySet.
  destruct (Z.ltb_spec j 0) as [? | _]; [lia |].
  destruct (Z.ltb_spec i 0) as [Hi | Hi].
  - destruct (Z.eqb_spec j i); [lia | reflexivity].
  - cbv zeta. rewrite nth_padded_set.
    destruct (Z.eqb_spec j i) as [-> | Hne].
    + now rewrite Nat.eqb_refl.
    + destruct (Nat.eqb_spec (Z.to_nat j) (Z.to_nat i)); [lia | reflexivity].
Qed.

Lemma arraySet_length (a : jsArray) (i : Z) (v : value) :
  length (arraySet a i v)
  = if i <? 0 then length a else Nat.max (length a) (S (Z.to_nat i)).
Proof.
  unfold arraySet. destruct (i <? 0); [reflexivity |].
  cbv zeta. rewrite length_app, length_firstn, length_app, repeat_length.
  cbn [length]. rewrite length_skipn. lia.
Qed.

Lemma fillUndefined_length (n : nat) (a : jsArray) :
  length (fillUndefined n a) = Nat.max n (length a).
Proof.
  unfold fillUndefined. induction n as [| n IH].
  - reflexivity.
  - rewrite seq_S, fold_left_app. cbn [fold_left Nat.add].
    destruct (arrayGet _ _) eqn:Hget.
    + rewrite IH. unfold arrayGet in Hget.
      destruct (Z.ltb_spec (Z.of_nat n) 0); [lia |].
      rewrite Nat2Z.id in Hget.
      destruct (Nat.lt_ge_cases n (length (fold_left
        (fun acc i => match arrayGet acc (Z.of_nat i) with
                      | Some _ => acc
                      | None => arraySet acc (Z.of_nat i) blank
                      end) (seq 0 n) a))) as [Hlt | Hge].
      * rewrite IH in Hlt. lia.
      * rewrite nth_overflow in Hget by exact Hge. discriminate.
    + rewrite arraySet_length.
      destruct (Z.ltb_spec (Z.of_nat n) 0); [lia |].
      rewrite IH, Nat2Z.id. lia.
Qed.

Lemma arrayGet_fillUndefined (n : nat) (a : jsArray) (j : Z) :
  0 <= j ->
  arrayGet (fillUndefined n a) j
  = match arrayGet a j with
    | Some v => Some v
    | None => if j <? Z.of_nat n then Some blank else None
    end.
Proof.
  intros Hj. unfold fillUndefined. induction n as [| n IH].
  - cbn [seq fold_left]. destruct (arrayGet a j); [reflexivity |].
    destruct (Z.ltb_spec j (Z.of_nat 0)); [lia | reflexivity].
  - rewrite seq_S, fold_left_app. cbn [fold_left Nat.add].
    destruct (arrayGet (fold_left _ _ _) (Z.of_nat n)) eqn:Hget.
    + rewrite IH. destruct (arrayGet a j) eqn:Ha; [reflexivity |].
      destruct (Z.ltb_spec j (Z.of_nat n)), (Z.ltb_spec j (Z.of_nat (S n)));
        try reflexivity; try lia.
      assert (j = Z.of_nat n) by lia. subst j.
      rewrite IH in Hget. discriminate.
    + rewrite arrayGet_arraySet by exact Hj. rewrite IH.
      destruct (Z.eqb_spec j (Z.of_nat n)) as [-> | Hne].
      * rewrite IH in Hget.
        destruct (arrayGet a (Z.of_nat n)); [discriminate |].
        destruct (Z.ltb_spec (Z.of_nat n) (Z.of_nat (S n))); [reflexivity | lia].
      * destruct (arrayGet a j); [reflexivity |].
        destruct (Z.ltb_spec j (Z.of_nat n)), (Z.ltb_spec j (Z.of_nat (S n)));
          try reflexivity; lia.
Qed.

Lemma definedValues_tabulate (f : nat -> value) (a : jsArray) (s : nat) :
  (forall k, (k < length a)%nat -> nth k a None = Some (f (s + k)%nat)) ->
  definedValues a = Some (map f (seq s (length a))).
Proof.
  revert s. induction a as [| x t IH]; intros s H.
  - reflexivity.
  - cbn [definedValues length seq map].
    pose proof (H 0%nat ltac:(cbn; lia)) as H0. cbn in H0.
    rewrite Nat.add_0_r in H0. subst x.
    rewrite (IH (S s)).
    + reflexivity.
    + intros k Hk. specialize (H (S k) ltac:(cbn; lia)). cbn in H.
      rewrite H. f_equal. f_equal. lia.
Qed.

End JsArrays.

(** ** Searching a list *)

Section FindIndex.

Context {A : Type} (p : A -> bool) (f : nat -> A).

(** What [findIndexFrom] returns on the list [f a, f (a+1), ...] of
    length [k], counted from [a]. *)
Lemma findIndexFrom_seq_inv (a k : nat) :
  (findIndexFrom p (map f (seq a k)) (Z.of_nat a) = -1
   /\ forall r, (a <= r < a + k)%nat -> p (f r) = false)
  \/ (exists r0 : nat,
        findIndexFrom p (map f (seq a k)) (Z.of_nat a) = Z.of_nat r0
        /\ (a <= r0 < a + k)%nat
        /\ p (f r0) = true
        /\ forall r, (a <= r < r0)%nat -> p (f r) = false).
Proof.
  revert a. induction k as [| k IH]; intros a.
  - left. split; [reflexivity | intros; lia].
  - cbn [seq map findIndexFrom].
    destruct (p (f a)) eqn:Hpa.
    + right. exists a. repeat split; try lia. exact Hpa.
    + replace (Z.of_nat a + 1) with (Z.of_nat (S a)) by lia.
      destruct (IH (S a)) as [[Hnone Hall] | (r0 & Hres & Hr0 & Hp & Hbefore)].
      * left. split; [exact Hnone |].
        intros r Hr. destruct (Nat.eq_dec r a) as [-> | Hne];
          [exact Hpa | apply Hall; lia].
      * right. exists r0. repeat split; try lia; try assumption.
        intros r Hr. destruct (Nat.eq_dec r a) as [-> | Hne];
          [exact Hpa | apply Hbefore; lia].
Qed.

Lemma findIndexFrom_seq_none (a k : nat) :
  (forall r, (a <= r < a + k)%nat -> p (f r) = false) ->
  findIndexFrom p (map f (seq a k)) (Z.of_nat a) = -1.
Proof.
  intros Hall.
  destruct (findIndexFrom_seq_inv a k) as [[H _] | (r0 & _ & Hr0 & Hp & _)];
    [exact H |].
  rewrite Hall in Hp by lia. discriminate.
Qed.

Lemma findIndexFrom_seq_first (a k r0 : nat) :
  (a <= r0 < a + k)%nat ->
  p (f r0) = true ->
  (forall r, (a <= r < r0)%nat -> p (f r) = false) ->
  findIndexFrom p (map f (seq a k)) (Z.of_nat a) = Z.of_nat r0.
Proof.
  intros Hr0 Hp Hbefore.
  destruct (findIndexFrom_seq_inv a k)
    as [[_ Hall] | (r1 & Hres & Hr1 & Hp1 & Hbefore1)].
  - rewrite Hall in Hp by lia. discriminate.
  - rewrite Hres. f_equal.
    destruct (Nat.lt_trichotomy r0 r1) as [Hlt | [Heq | Hgt]].
    + rewrite Hbefore1 in Hp by lia. discriminate.
    + now symmetry.
    + rewrite Hbefore in Hp1 by lia. discriminate.
Qed.

End FindIndex.

(** ** The grid *)

Section Grid.

Lemma hasContent_false (v : value) : hasContent v = false <-> v = blank.
Proof.
  unfold hasContent, strictEq.
  destruct (value_eq_dec v blank); cbn; split; congruence.
Qed.

Lemma hasContent_true (v : value) : hasContent v = true <-> v <> blank.
Proof.
  unfold hasContent, strictEq.
  destruct (value_eq_dec v blank); cbn; split; congruence.
Qed.

Lemma strictEq_true (a b : value) : strictEq a b = true <-> a = b.
Proof. unfold strictEq. destruct (value_eq_dec a b); split; congruence. Qed.

Lemma strictEq_false (a b : value) : strictEq a b = false <-> a <> b.
Proof. unfold strictEq. destruct (value_eq_dec a b); split; congruence. Qed.

Lemma lastPos_le {A : Type} (p : A -> bool) (l : list A) :
  (lastPos p l <= length l)%nat.
Proof.
  induction l as [| x t IH]; cbn [lastPos length]; [lia |].
  destruct (lastPos p t); [destruct (p x) |]; lia.
Qed.

Lemma lastPos_beyond {A : Type} (p : A -> bool) (d : A) (l : list A) (k : nat) :
  (lastPos p l <= k < length l)%nat -> p (nth k l d) = false.
Proof.
  revert k. induction l as [| x t IH]; intros k Hk; cbn [length] in Hk; [lia |].
  cbn [lastPos] in Hk.
  destruct k as [| k]; cbn [nth].
  - destruct (lastPos p t); [| lia]. destruct (p x); [lia | reflexivity].
  - apply IH. destruct (lastPos p t); [| lia]. lia.
Qed.

Lemma lastPos_at {A : Type} (p : A -> bool) (d : A) (l : list A) (k : nat) :
  lastPos p l = S k -> p (nth k l d) = true.
Proof.
  revert k. induction l as [| x t IH]; intros k Hk; cbn [lastPos] in Hk;
    [discriminate |].
  destruct (lastPos p t) as [| m] eqn:Ht.
  - destruct (p x) eqn:Hpx; [| discriminate].
    injection Hk as <-. exact Hpx.
  - injection Hk as <-. cbn [nth]. now apply IH.
Qed.

Lemma lastRowN_beyond (sh : Sheet) (r c : nat) :
  (lastRowN sh <= r)%nat -> cellAt sh r c = blank.
Proof.
  intros Hr. unfold cellAt.
  destruct (Nat.lt_ge_cases r (length sh)) as [Hin | Hout].
  - pose proof (lastPos_beyond (existsb hasContent) [] sh r
                  (conj Hr Hin)) as Hrow.
    destruct (Nat.lt_ge_cases c (length (nth r sh []))) as [Hc | Hc].
    + apply hasContent_false.
      destruct (hasContent (nth c (nth r sh []) blank)) eqn:Hv; [| reflexivity].
      assert (existsb hasContent (nth r sh []) = true); [| congruence].
      apply existsb_exists. eexists. split; [| exact Hv].
      now apply nth_In.
    + now apply nth_overflow.
  - rewrite (nth_overflow sh [] Hout). now destruct c.
Qed.

Lemma lastRowN_content (sh : Sheet) (r c : nat) :
  cellAt sh r c <> blank -> (r < lastRowN sh)%nat.
Proof.
  intros Hv. destruct (Nat.lt_ge_cases r (lastRowN sh)) as [H | H];
    [exact H |].
  exfalso. apply Hv. now apply lastRowN_beyond.
Qed.

Lemma lastRowN_at (sh : Sheet) (k : nat) :
  lastRowN sh = S k -> exists c, cellAt sh k c <> blank.
Proof.
  intros Hk.
  pose proof (lastPos_at (existsb hasContent) [] sh k Hk) as Hrow.
  apply existsb_exists in Hrow. destruct Hrow as (v & Hin & Hv).
  destruct (In_nth _ _ blank Hin) as (c & _ & Hc).
  exists c. unfold cellAt. rewrite Hc. now apply hasContent_true.
Qed.

Lemma lastColumnN_beyond (sh : Sheet) (r c : nat) :
  (lastColumnN sh <= c)%nat -> cellAt sh r c = blank.
Proof.
  unfold cellAt, lastColumnN. revert r.
  induction sh as [| row rest IH]; intros r Hc.
  - destruct r, c; reflexivity.
  - cbn [fold_right] in Hc. destruct r as [| r]; cbn [nth].
    + destruct (Nat.lt_ge_cases c (length row)) as [Hin | Hout].
      * apply hasContent_false. apply lastPos_beyond. lia.
      * now apply nth_overflow.
    + apply IH. lia.
Qed.

Lemma lastColumnN_content (sh : Sheet) (r c : nat) :
  cellAt sh r c <> blank -> (c < lastColumnN sh)%nat.
Proof.
  intros Hv. destruct (Nat.lt_ge_cases c (lastColumnN sh)) as [H | H];
    [exact H |].
  exfalso. apply Hv. now apply lastColumnN_beyond.
Qed.

Lemma lastColumnN_at (sh : Sheet) (k : nat) :
  lastColumnN sh = S k -> exists r, cellAt sh r k <> blank.
Proof.
  unfold cellAt, lastColumnN.
  induction sh as [| row rest IH]; cbn [fold_right]; intros Hk;
    [discriminate |].
  destruct (Nat.max_spec (lastPos hasContent row)
              (fold_right (fun row m => Nat.max (lastPos hasContent row) m)
                 0%nat rest)) as [[_ Hm] | [_ Hm]];
    rewrite Hm in Hk.
  - destruct (IH Hk) as (r & Hr). now exists (S r).
  - exists 0%nat. cbn [nth]. apply hasContent_true. now apply lastPos_at.
Qed.

(** The last row and column are the least bounds of the content. *)
Lemma lastRowN_least (sh : Sheet) (m : nat) :
  (forall r c, (m <= r)%nat -> cellAt sh r c = blank) ->
  (lastRowN sh <= m)%nat.
Proof.
  intros Hall. destruct (lastRowN sh) as [| k] eqn:Hk; [lia |].
  destruct (lastRowN_at sh k Hk) as (c & Hc).
  destruct (Nat.lt_ge_cases k m) as [H | H]; [lia |].
  exfalso. apply Hc. now apply Hall.
Qed.

Lemma lastColumnN_least (sh : Sheet) (m : nat) :
  (forall r c, (m <= c)%nat -> cellAt sh r c = blank) ->
  (lastColumnN sh <= m)%nat.
Proof.
  intros Hall. destruct (lastColumnN sh) as [| k] eqn:Hk; [lia |].
  destruct (lastColumnN_at sh k Hk) as (r & Hr).
  destruct (Nat.lt_ge_cases k m) as [H | H]; [lia |].
  exfalso. apply Hr. now apply Hall.
Qed.

Lemma cellAt_writeRow (sh : Sheet) (r : nat) (vals : list value) (r' c : nat) :
  cellAt (writeRow sh r vals) r' c
  = if ((r' =? r)%nat && (c <? length vals)%nat)%bool
    then nth c vals blank
    else cellAt sh r' c.
Proof.
  unfold cellAt. revert sh r'.
  induction r as [| r IH]; intros sh r'.
  - destruct sh as [| old rest]; cbn [writeRow].
    + destruct r' as [| r']; cbn [nth Nat.eqb andb].
      * destruct (Nat.ltb_spec c (length vals)) as [H | H]; [reflexivity |].
        rewrite nth_overflow by exact H. now destruct c.
      * now destruct r', c.
    + destruct r' as [| r']; cbn [nth Nat.eqb andb]; [| reflexivity].
      destruct (Nat.ltb_spec c (length vals)) as [H | H].
      * now rewrite app_nth1.
      * rewrite app_nth2 by exact H. rewrite nth_skipn. f_equal. lia.
  - destruct sh as [| old rest]; cbn [writeRow].
    + destruct r' as [| r']; cbn [nth Nat.eqb andb].
      * now destruct c.
      * rewrite IH. destruct (_ && _)%bool; [reflexivity |].
        now destruct r', c.
    + destruct r' as [| r']; cbn [nth Nat.eqb andb]; [reflexivity |].
      apply IH.
Qed.

End Grid.

Section ClosedForm.

Lemma orEmpty_id (s : string) : orEmpty s = s.
Proof. unfold orEmpty. destruct (string_dec s ""); congruence. Qed.

Lemma findIndexFrom_range {A : Type} (p : A -> bool) (l : list A) (i : Z) :
  findIndexFrom p l i = -1
  \/ i <= findIndexFrom p l i < i + Z.of_nat (length l).
Proof.
  revert i. induction l as [| x t IH]; intros i; cbn [findIndexFrom length].
  - now left.
  - destruct (p x); [right; lia |].
    destruct (IH (i + 1)) as [H | H]; [now left | right; lia].
Qed.

Lemma findIndex_col {A : Type} (p : A -> bool) (l : list A) :
  0 <= findIndex p l + 1 <= Z.of_nat (length l).
Proof.
  unfold findIndex. destruct (findIndexFrom_range p l 0); lia.
Qed.

Lemma headerRow_length (sh : Sheet) : length (headerRow sh) = lastColumnN sh.
Proof. unfold headerRow, rowValues. now rewrite length_map, length_seq. Qed.

Lemma arrayGet_setIf (a : jsArray) (idx j : Z) (v : value) :
  0 <= j ->
  arrayGet (if truthy idx then arraySet a (idx - 1) v else a) j
  = if j + 1 =? idx then Some v else arrayGet a j.
Proof.
  intros Hj. unfold truthy.
  destruct (Z.eqb_spec idx 0) as [-> | Hne]; cbn [negb].
  - destruct (Z.eqb_spec (j + 1) 0); [lia | reflexivity].
  - rewrite arrayGet_arraySet by exact Hj.
    destruct (Z.eqb_spec j (idx - 1)), (Z.eqb_spec (j + 1) idx);
      try reflexivity; lia.
Qed.

Lemma setIf_length (a : jsArray) (idx : Z) (v : value) (n : nat) :
  0 <= idx <= Z.of_nat n ->
  (length a <= n)%nat ->
  (length (if truthy idx then arraySet a (idx - 1) v else a) <= n)%nat.
Proof.
  intros Hidx Ha. unfold truthy.
  destruct (Z.eqb_spec idx 0) as [-> | Hne]; cbn [negb]; [exact Ha |].
  rewrite arraySet_length.
  destruct (Z.ltb_spec (idx - 1) 0); lia.
Qed.

End ClosedForm.

Section Equivalence.

Lemma columnsOf_within (headers : list value) :
  columnsWithin (columnsOf headers) (length headers).
Proof. unfold columnsWithin, columnsOf; cbn; repeat split; apply findIndex_col. Qed.

Lemma arrayGet_formatted (cs : Columns) (data : Contact) (j : Z) :
  0 <= j ->
  arrayGet (formatted cs data) j
  = if j + 1 =? phoneCol cs then Some (VStr (phone data))
    else if j + 1 =? emailCol cs then Some (VStr (email data))
    else if j + 1 =? statusCol cs then Some (VStr (status data))
    else if j + 1 =? roleCol cs then Some (VStr (role data))
    else if j + 1 =? categoryCol cs then Some (VStr (category data))
    else if j + 1 =? nameCol cs then Some (VStr (name data))
    else None.
Proof.
  intros Hj. unfold formatted. cbv zeta.
  rewrite !arrayGet_setIf by exact Hj. rewrite !orEmpty_id.
  unfold arrayGet. destruct (j <? 0); [| now destruct (Z.to_nat j)].
  reflexivity.
Qed.

Lemma formatted_length (cs : Columns) (data : Contact) (n : nat) :
  columnsWithin cs n -> (length (formatted cs data) <= n)%nat.
Proof.
  intros (Hn & Hc & Hr & Hs & He & Hp & _). unfold formatted. cbv zeta.
  repeat (apply setIf_length; [assumption |]). cbn. lia.
Qed.

Lemma nth_arrayGet (a : jsArray) (k : nat) :
  nth k a None = arrayGet a (Z.of_nat k).
Proof.
  unfold arrayGet. destruct (Z.ltb_spec (Z.of_nat k) 0); [lia |].
  now rewrite Nat2Z.id.
Qed.

(** The filled array has one defined slot per header. *)
Lemma filled_row (cs : Columns) (data : Contact) (tasks : value) (n : nat)
  (a : jsArray) :
  (length a <= n)%nat ->
  (forall j, 0 <= j ->
     arrayGet a j = if j + 1 =? tasksCol cs then Some tasks
                    else arrayGet (formatted cs data) j) ->
  length (fillUndefined n a) = n
  /\ definedValues (fillUndefined n a)
     = Some (map (rowCell cs data tasks) (seq 0 n)).
Proof.
  intros Hlen Hget.
  assert (Hl : length (fillUndefined n a) = n)
    by (rewrite fillUndefined_length; lia).
  split; [exact Hl |].
  rewrite <- Hl at 2. apply definedValues_tabulate.
  intros k Hk. rewrite Hl in Hk. cbn [Nat.add].
  rewrite nth_arrayGet, arrayGet_fillUndefined by lia.
  rewrite Hget by lia. rewrite arrayGet_formatted by lia.
  unfold rowCell. cbv zeta.
  repeat (destruct (_ =? _); [reflexivity |]).
  destruct (Z.ltb_spec (Z.of_nat k) (Z.of_nat n)); [reflexivity | lia].
Qed.

Lemma setRowValues_filled (sh : Sheet) (row : Z) (a : jsArray)
  (vals : list value) :
  1 <= row ->
  (1 <= length a)%nat ->
  definedValues a = Some vals ->
  setRowValues sh row a = Some (writeRow sh (Z.to_nat (row - 1)) vals).
Proof.
  intros Hrow Hlen Hdef. unfold setRowValues, validRange.
  rewrite Hdef.
  destruct (Z.leb_spec 1 row); [| lia].
  destruct (Z.leb_spec 1 (Z.of_nat (length a))); [| lia].
  reflexivity.
Qed.

Lemma negb_truthy (z : Z) : negb (truthy z) = (z =? 0).
Proof. unfold truthy. now rewrite negb_involutive. Qed.

Lemma addOrUpdate_closedForm (sh : Sheet) (data : Contact) :
  addOrUpdatePersonInPeopleSheet (Some sh) data = closedForm sh data.
Proof.
  unfold addOrUpdatePersonInPeopleSheet, closedForm.
  unfold getValues, getLastColumn.
  destruct (Nat.eqb_spec (lastColumnN sh) 0) as [Hz | Hnz].
  - rewrite Hz. reflexivity.
  - assert (Hvr : validRange 1 1 1 (Z.of_nat (lastColumnN sh)) = true).
    { unfold validRange. cbn [Z.leb Z.compare andb].
      apply Z.leb_le. lia. }
    rewrite Hvr. cbn [host].
    replace (Z.to_nat (1 - 1)) with 0%nat by reflexivity.
    replace (Z.to_nat 1) with 1%nat by reflexivity.
    rewrite Nat2Z.id. cbn [seq map nth].
    fold (headerRow sh).
    pose proof (columnsOf_within (headerRow sh)) as Hwithin.
    rewrite headerRow_length in *.
    set (cs := columnsOf (headerRow sh)) in *.
    change (findIndex (headerIs "Name") (headerRow sh) + 1)
      with (nameCol cs).
    change (findIndex (headerIs "Category") (headerRow sh) + 1)
      with (categoryCol cs).
    change (findIndex (headerIs "Role/Position") (headerRow sh) + 1)
      with (roleCol cs).
    change (findIndex (headerIs "Status") (headerRow sh) + 1)
      with (statusCol cs).
    change (findIndex (headerIs "Email") (headerRow sh) + 1)
      with (emailCol cs).
    change (findIndex (headerIs "Phone") (headerRow sh) + 1)
      with (phoneCol cs).
    change (findIndex (headerIs "Assigned Tasks") (headerRow sh) + 1)
      with (tasksCol cs).
    rewrite !negb_truthy.
    destruct ((nameCol cs =? 0) || (categoryCol cs =? 0) || (emailCol cs =? 0))%bool;
      [reflexivity |].
    fold (existingRowIndexOf sh cs (email data)).
    match goal with
    | |- context [arraySet ?R (tasksCol cs - 1) _] =>
        change R with (formatted cs data)
    end.
    pose proof (findIndexFrom_range
                  (rowHasEmail (emailCol cs) (email data))
                  (tl (getDataRangeValues sh)) 1) as Hi.
    fold (existingRowIndexOf sh cs (email data)) in Hi.
    set (i := existingRowIndexOf sh cs (email data)) in *.
    pose proof (formatted_length cs data _ Hwithin) as Hflen.
    assert (Htc : 0 <= tasksCol cs <= Z.of_nat (lastColumnN sh))
      by (unfold columnsWithin in Hwithin; tauto).
    destruct (Z.eqb_spec i (-1)) as [Hnone | Hsome]; cbn [negb].
    + (* append *)
      destruct (filled_row cs data blank (lastColumnN sh)
                  (if truthy (tasksCol cs)
                   then arraySet (formatted cs data) (tasksCol cs - 1) blank
                   else formatted cs data)) as [Hl Hd].
      * apply setIf_length; assumption.
      * intros j Hj. now apply arrayGet_setIf.
      * rewrite (fun H1 H2 => setRowValues_filled sh _ _ _ H1 H2 Hd);
          [| unfold getLastRow; lia | rewrite Hl; lia].
        cbn [host]. unfold getLastRow.
        replace (Z.to_nat (Z.of_nat (lastRowN sh) + 1 - 1))
          with (lastRowN sh) by lia.
        reflexivity.
    + (* update *)
      assert (Hi1 : 1 <= i) by lia.
      unfold truthy, getValue, validRange.
      destruct (Z.eqb_spec (tasksCol cs) 0) as [Hz | Hnz']; cbn [negb host].
      * destruct (filled_row cs data
                    (cellAt sh (Z.to_nat i) (Z.to_nat (tasksCol cs - 1)))
                    (lastColumnN sh)
                    (arraySet (formatted cs data) (tasksCol cs - 1) blank))
          as [Hl Hd].
        -- rewrite arraySet_length, Hz. cbn. exact Hflen.
        -- intros j Hj. rewrite arrayGet_arraySet by exact Hj. rewrite Hz.
          destruct (Z.eqb_spec j (0 - 1)), (Z.eqb_spec (j + 1) 0);
            try lia. reflexivity.
        -- rewrite (fun H1 H2 => setRowValues_filled sh _ _ _ H1 H2 Hd);
            [| lia | rewrite Hl; lia].
          cbn [host].
          replace (Z.to_nat (i + 1 - 1)) with (Z.to_nat i) by lia.
          reflexivity.
      * destruct (Z.leb_spec 1 (i + 1)); [| lia].
        destruct (Z.leb_spec 1 (tasksCol cs)); [| lia].
        cbn [andb].
        change ((1 <=? 1) && (1 <=? 1))%bool with true. cbv iota.
        unfold host at 1. cbv beta iota.
        replace (Z.to_nat (i + 1 - 1)) with (Z.to_nat i) by lia.
        destruct (filled_row cs data
                    (cellAt sh (Z.to_nat i) (Z.to_nat (tasksCol cs - 1)))
                    (lastColumnN sh)
                    (arraySet (formatted cs data) (tasksCol cs - 1)
                       (cellAt sh (Z.to_nat i) (Z.to_nat (tasksCol cs - 1)))))
          as [Hl Hd].
        -- rewrite arraySet_length.
          destruct (Z.ltb_spec (tasksCol cs - 1) 0); lia.
        -- intros j Hj. rewrite arrayGet_arraySet by exact Hj.
          destruct (Z.eqb_spec j (tasksCol cs - 1)),
            (Z.eqb_spec (j + 1) (tasksCol cs)); try lia; reflexivity.
        -- rewrite (fun H1 H2 => setRowValues_filled sh _ _ _ H1 H2 Hd);
            [| lia | rewrite Hl; lia].
          cbn [host].
          replace (Z.to_nat (i + 1 - 1)) with (Z.to_nat i) by lia.
          reflexivity.
Qed.

End Equivalence.

(** ** Header lookup and the scan, in terms of cells *)

Section Lookup.

Lemma columnsOf_headerRow (sh : Sheet) :
  columnsOf (headerRow sh)
  = {| nameCol := columnOf sh "Name";
       categoryCol := columnOf sh "Category";
       roleCol := columnOf sh "Role/Position";
       statusCol := columnOf sh "Status";
       emailCol := columnOf sh "Email";
       phoneCol := columnOf sh "Phone";
       tasksCol := columnOf sh "Assigned Tasks" |}.
Proof. reflexivity. Qed.

Lemma headerIs_cell (sh : Sheet) (s : string) (c : nat) :
  headerIs s (cellAt sh 0 c) = strictEq (cellAt sh 0 c) (VStr s).
Proof. reflexivity. Qed.

Lemma VStr_nonblank (s : string) : s <> "" -> VStr s <> blank.
Proof. unfold blank. congruence. Qed.

Lemma columnOf_inv (sh : Sheet) (s : string) :
  s <> "" ->
  (columnOf sh s = 0 /\ forall c, cellAt sh 0 c <> VStr s)
  \/ (exists c0 : nat,
        columnOf sh s = Z.of_nat c0 + 1
        /\ (c0 < lastColumnN sh)%nat
        /\ cellAt sh 0 c0 = VStr s
        /\ forall c, (c < c0)%nat -> cellAt sh 0 c <> VStr s).
Proof.
  intros Hs. unfold columnOf, findIndex, headerRow, rowValues.
  destruct (findIndexFrom_seq_inv (headerIs s) (cellAt sh 0) 0 (lastColumnN sh))
    as [[Hnone Hall] | (c0 & Hres & Hc0 & Hp & Hbefore)].
  - left. change (Z.of_nat 0) with 0 in Hnone. rewrite Hnone.
    split; [reflexivity |]. intros c Hc.
    destruct (Nat.lt_ge_cases c (lastColumnN sh)) as [Hin | Hout].
    + specialize (Hall c ltac:(lia)). apply strictEq_false in Hall.
      contradiction.
    + rewrite lastColumnN_beyond in Hc by exact Hout.
      symmetry in Hc. now apply VStr_nonblank in Hc.
  - right. exists c0. change (Z.of_nat 0) with 0 in Hres. rewrite Hres.
    split; [reflexivity |]. split; [lia |].
    split; [now apply strictEq_true in Hp |].
    intros c Hc. apply strictEq_false. apply Hbefore. lia.
Qed.

Lemma columnOf_first (sh : Sheet) (s : string) (c0 : nat) :
  s <> "" ->
  cellAt sh 0 c0 = VStr s ->
  (forall c, (c < c0)%nat -> cellAt sh 0 c <> VStr s) ->
  columnOf sh s = Z.of_nat c0 + 1.
Proof.
  intros Hs Hc0 Hbefore.
  destruct (columnOf_inv sh s Hs) as [[_ Hall] | (c1 & Hres & _ & Hc1 & Hb1)].
  - now elim (Hall c0).
  - rewrite Hres.
    destruct (Nat.lt_trichotomy c0 c1) as [Hlt | [-> | Hgt]].
    + now elim (Hb1 c0).
    + reflexivity.
    + now elim (Hbefore c1).
Qed.

Lemma columnOf_absent (sh : Sheet) (s : string) :
  s <> "" ->
  (forall c, cellAt sh 0 c <> VStr s) ->
  columnOf sh s = 0.
Proof.
  intros Hs Hall.
  destruct (columnOf_inv sh s Hs) as [[H _] | (c1 & _ & _ & Hc1 & _)];
    [exact H | now elim (Hall c1)].
Qed.

(** A header that is present labels its column. *)
Lemma columnOf_header (sh : Sheet) (s : string) :
  s <> "" ->
  columnOf sh s <> 0 ->
  cellAt sh 0 (colIx sh s) = VStr s
  /\ 1 <= columnOf sh s <= Z.of_nat (lastColumnN sh)
  /\ columnOf sh s = Z.of_nat (colIx sh s) + 1.
Proof.
  intros Hs Hne. unfold colIx.
  destruct (columnOf_inv sh s Hs) as [[H _] | (c0 & Hres & Hlt & Hc0 & _)];
    [contradiction |].
  rewrite Hres. replace (Z.to_nat (Z.of_nat c0 + 1 - 1)) with c0 by lia.
  repeat split; try lia. exact Hc0.
Qed.

(** The header row alone decides where a column is. *)
Lemma columnOf_same_header (a b : Sheet) (s : string) :
  s <> "" ->
  (forall c, cellAt a 0 c = cellAt b 0 c) ->
  columnOf a s = columnOf b s.
Proof.
  intros Hs Hrow.
  destruct (columnOf_inv b s Hs) as [[Hres Hall] | (c0 & Hres & _ & Hc0 & Hb)];
    rewrite Hres.
  - apply columnOf_absent; [exact Hs |]. intros c. rewrite Hrow. apply Hall.
  - apply columnOf_first; [exact Hs | now rewrite Hrow |].
    intros c Hc. rewrite Hrow. now apply Hb.
Qed.

Lemma tl_map_seq {A : Type} (f : nat -> A) (n : nat) :
  tl (map f (seq 0 (Nat.max 1 n))) = map f (seq 1 (Nat.max 1 n - 1)).
Proof.
  destruct (Nat.max 1 n) as [| k] eqn:Hk; [lia |].
  replace (S k - 1)%nat with k by lia. reflexivity.
Qed.

Lemma rowHasEmail_cell (sh : Sheet) (e : Z) (mail : string) (r n : nat) :
  1 <= e <= Z.of_nat n ->
  rowHasEmail e mail (rowValues sh r 0 n)
  = strictEq (cellAt sh r (Z.to_nat (e - 1))) (VStr mail).
Proof.
  intros He. unfold rowHasEmail, rowValues, arrayGet.
  destruct (Z.ltb_spec (e - 1) 0); [lia |].
  rewrite map_map.
  rewrite (nth_indep _ None (Some (cellAt sh r 0)))
    by (rewrite length_map, length_seq; lia).
  rewrite (map_nth (fun c => Some (cellAt sh r c))).
  rewrite seq_nth by lia. reflexivity.
Qed.

Lemma scan_inv (sh : Sheet) (cs : Columns) (mail : string) :
  1 <= emailCol cs <= Z.of_nat (lastColumnN sh) ->
  (existingRowIndexOf sh cs mail = -1
   /\ forall r, isRecord sh r ->
        cellAt sh r (Z.to_nat (emailCol cs - 1)) <> VStr mail)
  \/ (exists r0 : nat,
        existingRowIndexOf sh cs mail = Z.of_nat r0
        /\ isRecord sh r0
        /\ cellAt sh r0 (Z.to_nat (emailCol cs - 1)) = VStr mail
        /\ forall r, (1 <= r < r0)%nat ->
             cellAt sh r (Z.to_nat (emailCol cs - 1)) <> VStr mail).
Proof.
  intros He. unfold existingRowIndexOf, getDataRangeValues, isRecord.
  rewrite tl_map_seq. change 1 with (Z.of_nat 1) at 1 3.
  set (f := fun r => rowValues sh r 0 (Nat.max 1 (lastColumnN sh))).
  assert (Hpf : forall r, rowHasEmail (emailCol cs) mail (f r)
                          = strictEq (cellAt sh r (Z.to_nat (emailCol cs - 1)))
                              (VStr mail)).
  { intros r. unfold f. apply rowHasEmail_cell. lia. }
  destruct (findIndexFrom_seq_inv (rowHasEmail (emailCol cs) mail) f 1
              (Nat.max 1 (lastRowN sh) - 1))
    as [[Hnone Hall] | (r0 & Hres & Hr0 & Hp & Hbefore)].
  - left. split; [exact Hnone |].
    intros r Hr. apply strictEq_false. rewrite <- Hpf. apply Hall. lia.
  - right. exists r0. split; [exact Hres |]. split; [lia |].
    split; [apply strictEq_true; now rewrite <- Hpf |].
    intros r Hr. apply strictEq_false. rewrite <- Hpf. apply Hbefore. lia.
Qed.

Lemma scan_none (sh : Sheet) (cs : Columns) (mail : string) :
  1 <= emailCol cs <= Z.of_nat (lastColumnN sh) ->
  (forall r, isRecord sh r ->
     cellAt sh r (Z.to_nat (emailCol cs - 1)) <> VStr mail) ->
  existingRowIndexOf sh cs mail = -1.
Proof.
  intros He Hall.
  destruct (scan_inv sh cs mail He) as [[H _] | (r0 & _ & Hr0 & Hc & _)];
    [exact H | now elim (Hall r0)].
Qed.

Lemma scan_first (sh : Sheet) (cs : Columns) (mail : string) (r0 : nat) :
  1 <= emailCol cs <= Z.of_nat (lastColumnN sh) ->
  isRecord sh r0 ->
  cellAt sh r0 (Z.to_nat (emailCol cs - 1)) = VStr mail ->
  (forall r, (1 <= r < r0)%nat ->
     cellAt sh r (Z.to_nat (emailCol cs - 1)) <> VStr mail) ->
  existingRowIndexOf sh cs mail = Z.of_nat r0.
Proof.
  intros He Hr0 Hc Hbefore.
  destruct (scan_inv sh cs mail He) as [[_ Hall] | (r1 & Hres & Hr1 & Hc1 & Hb1)].
  - now elim (Hall r0).
  - rewrite Hres. f_equal. unfold isRecord in *.
    destruct (Nat.lt_trichotomy r0 r1) as [Hlt | [Heq | Hgt]].
    + elim (Hb1 r0); [lia | exact Hc].
    + now symmetry.
    + elim (Hbefore r1); [lia | exact Hc1].
Qed.

End Lookup.

(** ** The written row, column by column *)

Section WrittenRow.

Lemma header_at (sh : Sheet) (s : string) (c : nat) :
  s <> "" ->
  Z.of_nat c + 1 = columnOf sh s ->
  cellAt sh 0 c = VStr s.
Proof.
  intros Hs Hc.
  destruct (columnOf_header sh s Hs ltac:(lia)) as (Hcell & _ & Hix).
  replace c with (colIx sh s) by lia. exact Hcell.
Qed.

Lemma nth_tabulate (f : nat -> value) (n c : nat) :
  nth c (map f (seq 0 n)) blank = if (c <? n)%nat then f c else blank.
Proof.
  destruct (Nat.ltb_spec c n) as [Hlt | Hge].
  - rewrite (nth_indep _ blank (f 0%nat)) by (rewrite length_map, length_seq; lia).
    rewrite map_nth, seq_nth by lia. reflexivity.
  - apply nth_overflow. rewrite length_map, length_seq. lia.
Qed.

Lemma cellAt_written (sh : Sheet) (r0 n : nat) (f : nat -> value) (r c : nat) :
  cellAt (writeRow sh r0 (map f (seq 0 n))) r c
  = if ((r =? r0)%nat && (c <? n)%nat)%bool then f c else cellAt sh r c.
Proof.
  rewrite cellAt_writeRow, length_map, length_seq, nth_tabulate.
  destruct (r =? r0)%nat, (c <? n)%nat; reflexivity.
Qed.

(** Each way two distinct headers could name the same column is absurd. *)
Ltac header_clash sh :=
  repeat match goal with
         | H : Z.of_nat ?c + 1 = columnOf sh ?s |- _ =>
             apply (header_at sh s c ltac:(discriminate)) in H
         end;
  congruence.

Ltac eval_rowCell sh :=
  unfold rowCell; cbv zeta; rewrite columnsOf_headerRow;
  cbn [nameCol categoryCol roleCol statusCol emailCol phoneCol tasksCol];
  repeat match goal with
         | |- context [Z.eqb ?z (columnOf sh ?s)] =>
             destruct (Z.eqb_spec z (columnOf sh s))
         end;
  try reflexivity; try lia; try header_clash sh.

Lemma rowCell_tasks (sh : Sheet) (data : Contact) (t : value) (c : nat) :
  Z.of_nat c + 1 = columnOf sh "Assigned Tasks" ->
  rowCell (columnsOf (headerRow sh)) data t c = t.
Proof. intros H. eval_rowCell sh. Qed.

Lemma rowCell_phone (sh : Sheet) (data : Contact) (t : value) (c : nat) :
  Z.of_nat c + 1 = columnOf sh "Phone" ->
  rowCell (columnsOf (headerRow sh)) data t c = VStr (phone data).
Proof. intros H. eval_rowCell sh. Qed.

Lemma rowCell_email (sh : Sheet) (data : Contact) (t : value) (c : nat) :
  Z.of_nat c + 1 = columnOf sh "Email" ->
  rowCell (columnsOf (headerRow sh)) data t c = VStr (email data).
Proof. intros H. eval_rowCell sh. Qed.

Lemma rowCell_status (sh : Sheet) (data : Contact) (t : value) (c : nat) :
  Z.of_nat c + 1 = columnOf sh "Status" ->
  rowCell (columnsOf (headerRow sh)) data t c = VStr (status data).
Proof. intros H. eval_rowCell sh. Qed.

Lemma rowCell_role (sh : Sheet) (data : Contact) (t : value) (c : nat) :
  Z.of_nat c + 1 = columnOf sh "Role/Position" ->
  rowCell (columnsOf (headerRow sh)) data t c = VStr (role data).
Proof. intros H. eval_rowCell sh. Qed.

Lemma rowCell_category (sh : Sheet) (data : Contact) (t : value) (c : nat) :
  Z.of_nat c + 1 = columnOf sh "Category" ->
  rowCell (columnsOf (headerRow sh)) data t c = VStr (category data).
Proof. intros H. eval_rowCell sh. Qed.

Lemma rowCell_name (sh : Sheet) (data : Contact) (t : value) (c : nat) :
  Z.of_nat c + 1 = columnOf sh "Name" ->
  rowCell (columnsOf (headerRow sh)) data t c = VStr (name data).
Proof. intros H. eval_rowCell sh. Qed.

(** A column resolved for none of the seven headers is written empty. *)
Lemma rowCell_other (sh : Sheet) (data : Contact) (t : value) (c : nat) :
  Z.of_nat c + 1 <> columnOf sh "Name" ->
  Z.of_nat c + 1 <> columnOf sh "Category" ->
  Z.of_nat c + 1 <> columnOf sh "Role/Position" ->
  Z.of_nat c + 1 <> columnOf sh "Status" ->
  Z.of_nat c + 1 <> columnOf sh "Email" ->
  Z.of_nat c + 1 <> columnOf sh "Phone" ->
  Z.of_nat c + 1 <> columnOf sh "Assigned Tasks" ->
  rowCell (columnsOf (headerRow sh)) data t c = blank.
Proof. intros. eval_rowCell sh. Qed.

(** The same under a premise on the header of the column. *)
Lemma column_of_other_header (sh : Sheet) (s : string) (c : nat) :
  s <> "" -> cellAt sh 0 c <> VStr s -> Z.of_nat c + 1 <> columnOf sh s.
Proof. intros Hs Hne Heq. apply Hne. now apply header_at. Qed.

End WrittenRow.

(** ** The three ways a call ends *)

Section Outcomes.

Lemma requiredColumns_guard (sh : Sheet) :
  requiredColumns sh <->
  ((columnOf sh "Name" =? 0) || (columnOf sh "Category" =? 0)
   || (columnOf sh "Email" =? 0))%bool = false.
Proof.
  unfold requiredColumns.
  destruct (Z.eqb_spec (columnOf sh "Name") 0),
    (Z.eqb_spec (columnOf sh "Category") 0),
    (Z.eqb_spec (columnOf sh "Email") 0); cbn; intuition congruence.
Qed.

Lemma requiredColumns_content (sh : Sheet) :
  requiredColumns sh -> lastColumnN sh <> 0%nat.
Proof.
  intros (Hn & _ & _).
  destruct (columnOf_header sh "Name" ltac:(discriminate) Hn) as (_ & Hb & _).
  lia.
Qed.

(** No content at all: reading the header row raises. *)
Lemma outcome_empty (sh : Sheet) (data : Contact) :
  lastColumnN sh = 0%nat ->
  addOrUpdatePersonInPeopleSheet (Some sh) data = mkResult Raised [] (Some sh).
Proof.
  intros Hz. rewrite addOrUpdate_closedForm. unfold closedForm.
  now rewrite Hz.
Qed.

(** Content, but a required header is absent. *)
Lemma outcome_guard (sh : Sheet) (data : Contact) :
  lastColumnN sh <> 0%nat ->
  ~ requiredColumns sh ->
  addOrUpdatePersonInPeopleSheet (Some sh) data
  = returned [LogRequiredColumnsNotFound] (Some sh).
Proof.
  intros Hnz Hreq. rewrite addOrUpdate_closedForm. unfold closedForm. cbv zeta.
  destruct (Nat.eqb_spec (lastColumnN sh) 0) as [? | _]; [contradiction |].
  rewrite columnsOf_headerRow.
  cbn [nameCol categoryCol emailCol].
  destruct ((columnOf sh "Name" =? 0) || (columnOf sh "Category" =? 0)
            || (columnOf sh "Email" =? 0))%bool eqn:Hg; [reflexivity |].
  apply requiredColumns_guard in Hg. contradiction.
Qed.

(** The guard passed: the first record carrying the address is
    rewritten, or a row is added below the last one. *)
Lemma outcome_write (sh : Sheet) (data : Contact) :
  requiredColumns sh ->
  (exists r0 : nat,
     carriesEmail sh (email data) r0
     /\ (forall r, (1 <= r < r0)%nat ->
           cellAt sh r (colIx sh "Email") <> VStr (email data))
     /\ addOrUpdatePersonInPeopleSheet (Some sh) data
        = returned [LogUpdated (name data) (email data) (Z.of_nat r0 + 1)]
            (Some (writeRow sh r0
                     (map (rowCell (columnsOf (headerRow sh)) data
                             (cellAt sh r0 (colIx sh "Assigned Tasks")))
                        (seq 0 (lastColumnN sh))))))
  \/ ((forall r, isRecord sh r ->
         cellAt sh r (colIx sh "Email") <> VStr (email data))
      /\ addOrUpdatePersonInPeopleSheet (Some sh) data
         = returned [LogAdded (name data) (email data) (getLastRow sh + 1)]
             (Some (writeRow sh (lastRowN sh)
                      (map (rowCell (columnsOf (headerRow sh)) data blank)
                         (seq 0 (lastColumnN sh)))))).
Proof.
  intros Hreq. pose proof (requiredColumns_content sh Hreq) as Hnz.
  rewrite addOrUpdate_closedForm. unfold closedForm. cbv zeta.
  destruct (Nat.eqb_spec (lastColumnN sh) 0) as [? | _]; [contradiction |].
  pose proof Hreq as Hg. apply requiredColumns_guard in Hg.
  assert (Hg' : ((nameCol (columnsOf (headerRow sh)) =? 0)
                 || (categoryCol (columnsOf (headerRow sh)) =? 0)
                 || (emailCol (columnsOf (headerRow sh)) =? 0))%bool = false)
    by exact Hg.
  rewrite Hg'.
  destruct Hreq as (_ & _ & He).
  destruct (columnOf_header sh "Email" ltac:(discriminate) He) as (_ & Hb & _).
  destruct (scan_inv sh (columnsOf (headerRow sh)) (email data) Hb)
    as [[Hres Hall] | (r0 & Hres & Hr0 & Hc & Hbefore)]; rewrite Hres.
  - right. split; [exact Hall | reflexivity].
  - left. exists r0. split; [split; assumption |]. split; [exact Hbefore |].
    destruct (Z.eqb_spec (Z.of_nat r0) (-1)); [lia |].
    rewrite Nat2Z.id. reflexivity.
Qed.

End Outcomes.

(** ** Which branch is taken *)

Section Branches.

Lemma outcome_update (sh : Sheet) (data : Contact) (r0 : nat) :
  requiredColumns sh ->
  firstRecordWith sh (email data) r0 ->
  addOrUpdatePersonInPeopleSheet (Some sh) data
  = returned [LogUpdated (name data) (email data) (Z.of_nat r0 + 1)]
      (Some (writeRow sh r0
               (map (rowCell (columnsOf (headerRow sh)) data
                       (cellAt sh r0 (colIx sh "Assigned Tasks")))
                  (seq 0 (lastColumnN sh))))).
Proof.
  intros Hreq ((Hrec & Hcell) & Hbefore).
  destruct (outcome_write sh data Hreq)
    as [(r1 & ((Hrec1 & Hcell1) & Hb1 & Hres)) | (Hnone & _)].
  - assert (r1 = r0) as ->; [| exact Hres].
    unfold isRecord in *.
    destruct (Nat.lt_trichotomy r0 r1) as [Hlt | [Heq | Hgt]].
    + elim (Hb1 r0); [lia | exact Hcell].
    + now symmetry.
    + elim (Hbefore r1); [lia | exact Hcell1].
  - now elim (Hnone r0).
Qed.

Lemma outcome_append (sh : Sheet) (data : Contact) :
  requiredColumns sh ->
  noRecordWith sh (email data) ->
  addOrUpdatePersonInPeopleSheet (Some sh) data
  = returned [LogAdded (name data) (email data) (getLastRow sh + 1)]
      (Some (writeRow sh (lastRowN sh)
               (map (rowCell (columnsOf (headerRow sh)) data blank)
                  (seq 0 (lastColumnN sh))))).
Proof.
  intros Hreq Hnone.
  destruct (outcome_write sh data Hreq)
    as [(r1 & ((Hrec1 & Hcell1) & _)) | (_ & Hres)].
  - now elim (Hnone r1).
  - exact Hres.
Qed.

(** Either some record is the first to carry the address, or none
    carries it. *)
Lemma first_or_none (sh : Sheet) (mail : string) :
  requiredColumns sh ->
  (exists r0, firstRecordWith sh mail r0) \/ noRecordWith sh mail.
Proof.
  intros (_ & _ & He).
  destruct (columnOf_header sh "Email" ltac:(discriminate) He) as (_ & Hb & _).
  destruct (scan_inv sh (columnsOf (headerRow sh)) mail Hb)
    as [[_ Hall] | (r0 & _ & Hr0 & Hc & Hbefore)].
  - now right.
  - left. exists r0. repeat split; try assumption; apply Hr0.
Qed.

Lemma isResolvedHeader_false (h : value) :
  isResolvedHeader h = false ->
  forall s, In s resolvedHeaders -> h <> VStr s.
Proof.
  unfold isResolvedHeader. intros H s Hs Heq.
  assert (existsb (fun s => strictEq h (VStr s)) resolvedHeaders = true);
    [| congruence].
  apply existsb_exists. exists s. split; [exact Hs |].
  now apply strictEq_true.
Qed.

(** A column under none of the seven headers is written empty. *)
Lemma rowCell_unresolved (sh : Sheet) (data : Contact) (t : value) (c : nat) :
  isResolvedHeader (cellAt sh 0 c) = false ->
  rowCell (columnsOf (headerRow sh)) data t c = blank.
Proof.
  intros H. pose proof (isResolvedHeader_false _ H) as Hne.
  apply rowCell_other; apply column_of_other_header;
    try discriminate; apply Hne; cbn; tauto.
Qed.

End Branches.

Section Cases.

Lemma requiredColumns_dec (sh : Sheet) :
  {requiredColumns sh} + {~ requiredColumns sh}.
Proof.
  destruct ((columnOf sh "Name" =? 0) || (columnOf sh "Category" =? 0)
            || (columnOf sh "Email" =? 0))%bool eqn:Hg.
  - right. intros H. apply requiredColumns_guard in H. congruence.
  - left. now apply requiredColumns_guard.
Qed.

(** Every call on an existing sheet ends in one of four ways. *)
Lemma outcome_cases (sh : Sheet) (data : Contact) :
  (lastColumnN sh = 0%nat
   /\ addOrUpdatePersonInPeopleSheet (Some sh) data
      = mkResult Raised [] (Some sh))
  \/ (lastColumnN sh <> 0%nat /\ ~ requiredColumns sh
      /\ addOrUpdatePersonInPeopleSheet (Some sh) data
         = returned [LogRequiredColumnsNotFound] (Some sh))
  \/ (requiredColumns sh
      /\ exists r0, firstRecordWith sh (email data) r0
         /\ addOrUpdatePersonInPeopleSheet (Some sh) data
            = returned [LogUpdated (name data) (email data) (Z.of_nat r0 + 1)]
                (Some (writeRow sh r0
                         (map (rowCell (columnsOf (headerRow sh)) data
                                 (cellAt sh r0 (colIx sh "Assigned Tasks")))
                            (seq 0 (lastColumnN sh))))))
  \/ (requiredColumns sh /\ noRecordWith sh (email data)
      /\ addOrUpdatePersonInPeopleSheet (Some sh) data
         = returned [LogAdded (name data) (email data) (getLastRow sh + 1)]
             (Some (writeRow sh (lastRowN sh)
                      (map (rowCell (columnsOf (headerRow sh)) data blank)
                         (seq 0 (lastColumnN sh)))))).
Proof.
  destruct (Nat.eq_dec (lastColumnN sh) 0) as [Hz | Hnz].
  - left. split; [exact Hz | now apply outcome_empty].
  - right. destruct (requiredColumns_dec sh) as [Hreq | Hreq].
    + right. destruct (first_or_none sh (email data) Hreq) as [(r0 & Hf) | Hn].
      * left. split; [exact Hreq |]. exists r0. split; [exact Hf |].
        now apply outcome_update.
      * right. split; [exact Hreq |]. split; [exact Hn |].
        now apply outcome_append.
    + left. split; [exact Hnz |]. split; [exact Hreq |].
      now apply outcome_guard.
Qed.

(** A column that has one of the seven headers lies within the header
    row. *)
Lemma colIx_within (sh : Sheet) (s : string) :
  s <> "" -> columnOf sh s <> 0 ->
  (colIx sh s < lastColumnN sh)%nat
  /\ Z.of_nat (colIx sh s) + 1 = columnOf sh s.
Proof.
  intros Hs Hne.
  destruct (columnOf_header sh s Hs Hne) as (_ & Hb & Hix). lia.
Qed.

End Cases.

(** ** A sheet after a row below the header was written *)

Section AfterWrite.

Variables (sh : Sheet) (R : nat) (vals : list value).
Hypothesis R_below_header : (1 <= R)%nat.

Lemma written_header (c : nat) :
  cellAt (writeRow sh R vals) 0 c = cellAt sh 0 c.
Proof.
  rewrite cellAt_writeRow.
  destruct (Nat.eqb_spec 0 R); [lia | reflexivity].
Qed.

Lemma written_columnOf (s : string) :
  s <> "" -> columnOf (writeRow sh R vals) s = columnOf sh s.
Proof. intros Hs. apply columnOf_same_header; [exact Hs | apply written_header]. Qed.

Lemma written_colIx (s : string) :
  s <> "" -> colIx (writeRow sh R vals) s = colIx sh s.
Proof. intros Hs. unfold colIx. now rewrite written_columnOf. Qed.

Lemma written_columnsOf :
  columnsOf (headerRow (writeRow sh R vals)) = columnsOf (headerRow sh).
Proof.
  rewrite !columnsOf_headerRow.
  now rewrite !written_columnOf by discriminate.
Qed.

Lemma written_requiredColumns :
  requiredColumns (writeRow sh R vals) <-> requiredColumns sh.
Proof.
  unfold requiredColumns. now rewrite !written_columnOf by discriminate.
Qed.

Lemma written_lastColumnN :
  (length vals <= lastColumnN sh)%nat ->
  (lastColumnN (writeRow sh R vals) <= lastColumnN sh)%nat.
Proof.
  intros Hlen. apply lastColumnN_least. intros r c Hc.
  rewrite cellAt_writeRow.
  destruct (Nat.ltb_spec c (length vals)); [lia |].
  rewrite andb_false_r. now apply lastColumnN_beyond.
Qed.

Lemma written_lastRowN :
  (lastRowN (writeRow sh R vals) <= Nat.max (lastRowN sh) (S R))%nat.
Proof.
  apply lastRowN_least. intros r c Hr.
  rewrite cellAt_writeRow.
  destruct (Nat.eqb_spec r R); [lia |]. cbn [andb].
  apply lastRowN_beyond. lia.
Qed.

End AfterWrite.

Section Reapply.

Lemma rowCell_tasks_value (cs : Columns) (data : Contact) (t t' : value)
  (c : nat) :
  (tasksCol cs <> 0 -> t' = t) ->
  rowCell cs data t' c = rowCell cs data t c.
Proof.
  intros H. unfold rowCell. cbv zeta.
  destruct (Z.eqb_spec (Z.of_nat c + 1) (tasksCol cs)); [apply H; lia |].
  reflexivity.
Qed.

Lemma requiredColumns_header_row (sh : Sheet) :
  requiredColumns sh -> (1 <= lastRowN sh)%nat.
Proof.
  intros (Hn & _ & _).
  destruct (columnOf_header sh "Name" ltac:(discriminate) Hn) as (Hcell & _).
  assert (0 < lastRowN sh)%nat; [| lia].
  apply (lastRowN_content sh 0 (colIx sh "Name")).
  rewrite Hcell. now apply VStr_nonblank.
Qed.

(** Writing the row of a contact below the header, at a row above which
    no record carries its address, and calling again with the same
    contact rewrites that row with what it holds. *)
Lemma rerun_same (sh : Sheet) (data : Contact) (R : nat) :
  requiredColumns sh ->
  (1 <= R)%nat ->
  email data <> "" ->
  (forall r, (1 <= r < R)%nat ->
     cellAt sh r (colIx sh "Email") <> VStr (email data)) ->
  let sh1 :=
    writeRow sh R
      (map (rowCell (columnsOf (headerRow sh)) data
              (cellAt sh R (colIx sh "Assigned Tasks")))
         (seq 0 (lastColumnN sh))) in
  firstRecordWith sh1 (email data) R
  /\ exists sh2,
       addOrUpdatePersonInPeopleSheet (Some sh1) data
       = returned [LogUpdated (name data) (email data) (Z.of_nat R + 1)]
           (Some sh2)
       /\ sameCells sh2 sh1.
Proof.
  intros Hreq HR Hmail Hbefore sh1.
  assert (Hreq1 : requiredColumns sh1) by now apply written_requiredColumns.
  destruct Hreq as (Hn & Hc & He).
  destruct (colIx_within sh "Email" ltac:(discriminate) He) as (Helt & Heix).
  assert (Hcell : forall c, (c < lastColumnN sh)%nat ->
            cellAt sh1 R c
            = rowCell (columnsOf (headerRow sh)) data
                (cellAt sh R (colIx sh "Assigned Tasks")) c).
  { intros c Hc'. unfold sh1. rewrite cellAt_written, Nat.eqb_refl.
    cbn [andb]. destruct (Nat.ltb_spec c (lastColumnN sh)); [reflexivity | lia]. }
  assert (Hemail : cellAt sh1 R (colIx sh1 "Email") = VStr (email data)).
  { unfold sh1 at 2. rewrite written_colIx by (lia || discriminate).
    rewrite Hcell by exact Helt. now apply rowCell_email. }
  assert (Hfirst : firstRecordWith sh1 (email data) R).
  { split; [split |].
    - split; [exact HR |].
      apply (lastRowN_content sh1 R (colIx sh1 "Email")).
      rewrite Hemail. now apply VStr_nonblank.
    - exact Hemail.
    - intros r Hr. unfold sh1. rewrite written_colIx by (lia || discriminate).
      rewrite cellAt_written.
      destruct (Nat.eqb_spec r R); [lia |]. cbn [andb]. now apply Hbefore. }
  split; [exact Hfirst |].
  rewrite (outcome_update sh1 data R Hreq1 Hfirst).
  eexists. split; [reflexivity |].
  intros r c. rewrite cellAt_written.
  destruct (Nat.eqb_spec r R) as [-> | Hne]; cbn [andb]; [| reflexivity].
  destruct (Nat.ltb_spec c (lastColumnN sh1)) as [Hin | Hout]; [| reflexivity].
  assert (Hn1 : (lastColumnN sh1 <= lastColumnN sh)%nat).
  { unfold sh1. apply written_lastColumnN; [exact HR |].
    rewrite length_map, length_seq. lia. }
  rewrite (Hcell c) by lia.
  unfold sh1 at 1 3. rewrite written_columnsOf by exact HR.
  rewrite written_colIx by (lia || discriminate).
  apply rowCell_tasks_value. intros Ht.
  change (tasksCol (columnsOf (headerRow sh)))
    with (columnOf sh "Assigned Tasks") in Ht.
  destruct (colIx_within sh "Assigned Tasks" ltac:(discriminate) Ht)
    as (Htlt & Htix).
  fold sh1. rewrite Hcell by exact Htlt. now apply rowCell_tasks.
Qed.

End Reapply.

(** ** Grids with the same content *)

Section SameCells.

Lemma sameCells_refl (a : Sheet) : sameCells a a.
Proof. intros r c. reflexivity. Qed.

Lemma sameCells_lastRowN (a b : Sheet) :
  sameCells a b -> lastRowN a = lastRowN b.
Proof.
  intros H. apply Nat.le_antisymm; apply lastRowN_least; intros r c Hr.
  - rewrite H. now apply lastRowN_beyond.
  - rewrite <- H. now apply lastRowN_beyond.
Qed.

Lemma sameCells_colIx (a b : Sheet) (s : string) :
  s <> "" -> sameCells a b -> colIx a s = colIx b s.
Proof.
  intros Hs H. unfold colIx. f_equal. f_equal.
  apply columnOf_same_header; [exact Hs |]. intros c. apply H.
Qed.

Lemma carriesEmail_sameCells (a b : Sheet) (mail : string) (r : nat) :
  sameCells a b -> carriesEmail b mail r -> carriesEmail a mail r.
Proof.
  intros H (Hrec & Hcell). unfold carriesEmail, isRecord in *.
  rewrite (sameCells_lastRowN a b H).
  rewrite (sameCells_colIx a b "Email" ltac:(discriminate) H), H.
  now split.
Qed.

(** A cell with a non-empty address below the header row belongs to a
    record. *)
Lemma carries_nonempty (sh : Sheet) (mail : string) (r : nat) :
  mail <> "" -> (1 <= r)%nat ->
  cellAt sh r (colIx sh "Email") = VStr mail ->
  carriesEmail sh mail r.
Proof.
  intros Hmail Hr Hcell. split; [| exact Hcell]. split; [exact Hr |].
  apply (lastRowN_content sh r (colIx sh "Email")).
  rewrite Hcell. now apply VStr_nonblank.
Qed.

End SameCells.

(** ** Fields without a column *)

Section Discarded.

Lemma rowCell_role_absent (cs : Columns) (data : Contact) (v : string)
  (t : value) (c : nat) :
  roleCol cs = 0 ->
  rowCell cs (withRole v data) t c = rowCell cs data t c.
Proof.
  intros Hz. unfold rowCell. cbv zeta. rewrite Hz. cbn [phone email status role category name withRole].
  destruct (Z.eqb_spec (Z.of_nat c + 1) 0); [lia | reflexivity].
Qed.

Lemma rowCell_status_absent (cs : Columns) (data : Contact) (v : string)
  (t : value) (c : nat) :
  statusCol cs = 0 ->
  rowCell cs (withStatus v data) t c = rowCell cs data t c.
Proof.
  intros Hz. unfold rowCell. cbv zeta. rewrite Hz. cbn [phone email status role category name withStatus].
  destruct (Z.eqb_spec (Z.of_nat c + 1) 0); [lia | reflexivity].
Qed.

Lemma rowCell_phone_absent (cs : Columns) (data : Contact) (v : string)
  (t : value) (c : nat) :
  phoneCol cs = 0 ->
  rowCell cs (withPhone v data) t c = rowCell cs data t c.
Proof.
  intros Hz. unfold rowCell. cbv zeta. rewrite Hz. cbn [phone email status role category name withPhone].
  destruct (Z.eqb_spec (Z.of_nat c + 1) 0); [lia | reflexivity].
Qed.

(** Two contacts with the same name and address that fill every slot
    alike get the same outcome. *)
Lemma closedForm_ext (sh : Sheet) (d1 d2 : Contact) :
  name d1 = name d2 -> email d1 = email d2 ->
  (forall t c, rowCell (columnsOf (headerRow sh)) d1 t c
               = rowCell (columnsOf (headerRow sh)) d2 t c) ->
  addOrUpdatePersonInPeopleSheet (Some sh) d1
  = addOrUpdatePersonInPeopleSheet (Some sh) d2.
Proof.
  intros Hn He Hrow. rewrite !addOrUpdate_closedForm. unfold closedForm.
  cbv zeta. rewrite Hn, He.
  rewrite (map_ext _ _ (Hrow blank)).
  rewrite (map_ext _ _ (Hrow (cellAt sh _ _))).
  reflexivity.
Qed.

End Discarded.

(** ** The cells of the written row *)

Section WrittenCells.

(** After the row built for a contact is written at [R]: what the row
    holds under each header, and that no other row has changed. *)
Lemma written_cells (sh : Sheet) (data : Contact) (t : value) (R : nat) :
  requiredColumns sh ->
  cellAt (writeRow sh R
            (map (rowCell (columnsOf (headerRow sh)) data t)
               (seq 0 (lastColumnN sh)))) R (colIx sh "Name")
  = VStr (name data)
  /\ cellAt (writeRow sh R
               (map (rowCell (columnsOf (headerRow sh)) data t)
                  (seq 0 (lastColumnN sh)))) R (colIx sh "Category")
     = VStr (category data)
  /\ cellAt (writeRow sh R
               (map (rowCell (columnsOf (headerRow sh)) data t)
                  (seq 0 (lastColumnN sh)))) R (colIx sh "Email")
     = VStr (email data)
  /\ (columnOf sh "Role/Position" <> 0 ->
      cellAt (writeRow sh R
                (map (rowCell (columnsOf (headerRow sh)) data t)
                   (seq 0 (lastColumnN sh)))) R (colIx sh "Role/Position")
      = VStr (role data))
  /\ (columnOf sh "Status" <> 0 ->
      cellAt (writeRow sh R
                (map (rowCell (columnsOf (headerRow sh)) data t)
                   (seq 0 (lastColumnN sh)))) R (colIx sh "Status")
      = VStr (status data))
  /\ (columnOf sh "Phone" <> 0 ->
      cellAt (writeRow sh R
                (map (rowCell (columnsOf (headerRow sh)) data t)
                   (seq 0 (lastColumnN sh)))) R (colIx sh "Phone")
      = VStr (phone data))
  /\ (forall c, isResolvedHeader (cellAt sh 0 c) = false ->
        cellAt (writeRow sh R
                  (map (rowCell (columnsOf (headerRow sh)) data t)
                     (seq 0 (lastColumnN sh)))) R c = blank)
  /\ (forall r c, r <> R ->
        cellAt (writeRow sh R
                  (map (rowCell (columnsOf (headerRow sh)) data t)
                     (seq 0 (lastColumnN sh)))) r c = cellAt sh r c).
Proof.
  intros (Hn & Hc & He).
  assert (Hcell : forall s, s <> "" -> columnOf sh s <> 0 ->
            cellAt (writeRow sh R
                      (map (rowCell (columnsOf (headerRow sh)) data t)
                         (seq 0 (lastColumnN sh))))
              R (colIx sh s)
            = rowCell (columnsOf (headerRow sh)) data t (colIx sh s)).
  { intros s Hs Hcol. destruct (colIx_within sh s Hs Hcol) as (Hlt & _).
    rewrite cellAt_written, Nat.eqb_refl. cbn [andb].
    destruct (Nat.ltb_spec (colIx sh s) (lastColumnN sh)); [reflexivity | lia]. }
  assert (Hix : forall s, s <> "" -> columnOf sh s <> 0 ->
            Z.of_nat (colIx sh s) + 1 = columnOf sh s)
    by (intros s Hs Hcol; now apply colIx_within).
  repeat split.
  - rewrite Hcell by (discriminate || assumption).
    apply rowCell_name, Hix; (discriminate || assumption).
  - rewrite Hcell by (discriminate || assumption).
    apply rowCell_category, Hix; (discriminate || assumption).
  - rewrite Hcell by (discriminate || assumption).
    apply rowCell_email, Hix; (discriminate || assumption).
  - intros H. rewrite Hcell by (discriminate || assumption).
    apply rowCell_role, Hix; (discriminate || assumption).
  - intros H. rewrite Hcell by (discriminate || assumption).
    apply rowCell_status, Hix; (discriminate || assumption).
  - intros H. rewrite Hcell by (discriminate || assumption).
    apply rowCell_phone, Hix; (discriminate || assumption).
  - intros c Hcu. rewrite cellAt_written, Nat.eqb_refl. cbn [andb].
    destruct (Nat.ltb_spec c (lastColumnN sh)) as [Hin | Hout].
    + now apply rowCell_unresolved.
    + now apply lastColumnN_beyond.
  - intros r c Hne. rewrite cellAt_written.
    destruct (Nat.eqb_spec r R); [contradiction | reflexivity].
Qed.

End WrittenCells.

(** * The claims *)

(** C1, counterexample.  In the roster of the end-to-end scenario the
    Notes column, which is none of the seven headers the function
    resolves, holds "Allergic to nuts" in Ana's row; after the update
    of that row the cell is empty. *)
Lemma update_blanks_notes_column :
  firstRecordWith rosterAna (email contactAna) 1
  /\ isResolvedHeader (cellAt rosterAna 0 7) = false
  /\ cellAt rosterAna 1 7 = VStr "Allergic to nuts"
  /\ exists sh',
       people (addOrUpdatePersonInPeopleSheet (Some rosterAna) contactAna)
       = Some sh'
       /\ cellAt sh' 1 7 = blank
       /\ cellAt sh' 1 7 <> cellAt rosterAna 1 7.
Proof.
  split.
  { split; [split; [unfold isRecord; cbn; lia | reflexivity] |].
    intros r Hr. lia. }
  split; [reflexivity |]. split; [reflexivity |].
  eexists. split; [vm_compute; reflexivity |].
  split; [reflexivity | discriminate].
Qed.

(** C1, as amended.  When the call finds a record with the incoming
    address, every column of the matched row whose header is none of
    Name, Category, Role/Position, Status, Email, Phone and Assigned
    Tasks holds the empty string after the update; of the columns the
    call does not populate from the contact only Assigned Tasks keeps
    its value. *)
Theorem update_blanks_unresolved_columns (sh : Sheet) (data : Contact)
  (r0 : nat) :
  requiredColumns sh ->
  firstRecordWith sh (email data) r0 ->
  exists sh',
    people (addOrUpdatePersonInPeopleSheet (Some sh) data) = Some sh'
    /\ (forall c, isResolvedHeader (cellAt sh 0 c) = false ->
          cellAt sh' r0 c = blank)
    /\ (columnOf sh "Assigned Tasks" <> 0 ->
        cellAt sh' r0 (colIx sh "Assigned Tasks")
        = cellAt sh r0 (colIx sh "Assigned Tasks")).
Proof.
  intros Hreq Hfirst. rewrite (outcome_update sh data r0 Hreq Hfirst).
  eexists. split; [reflexivity |]. split.
  - intros c Hc. rewrite cellAt_written, Nat.eqb_refl. cbn [andb].
    destruct (Nat.ltb_spec c (lastColumnN sh)) as [Hin | Hout].
    + now apply rowCell_unresolved.
    + now apply lastColumnN_beyond.
  - intros Ht.
    destruct (colIx_within sh "Assigned Tasks" ltac:(discriminate) Ht)
      as (Hlt & Hix).
    rewrite cellAt_written, Nat.eqb_refl. cbn [andb].
    destruct (Nat.ltb_spec (colIx sh "Assigned Tasks") (lastColumnN sh));
      [| lia].
    now apply rowCell_tasks.
Qed.

Lemma update_blanks_unresolved_columns_witness :
  exists sh',
    people (addOrUpdatePersonInPeopleSheet (Some rosterAna) contactAna)
    = Some sh'
    /\ (forall c, isResolvedHeader (cellAt rosterAna 0 c) = false ->
          cellAt sh' 1 c = blank)
    /\ (columnOf rosterAna "Assigned Tasks" <> 0 ->
        cellAt sh' 1 (colIx rosterAna "Assigned Tasks")
        = cellAt rosterAna 1 (colIx rosterAna "Assigned Tasks")).
Proof.
  apply (update_blanks_unresolved_columns rosterAna contactAna 1).
  - unfold requiredColumns. vm_compute. repeat split; discriminate.
  - split; [split; [unfold isRecord; vm_compute; lia | reflexivity] |].
    intros r Hr. lia.
Defined.

(** C2.  In a roster with an Assigned Tasks column, a record whose
    Email equals the incoming address has the same Assigned Tasks value
    after the call as before it. *)
Theorem assigned_tasks_preserved (sh : Sheet) (data : Contact) (r : nat) :
  columnOf sh "Assigned Tasks" <> 0 ->
  carriesEmail sh (email data) r ->
  exists sh',
    people (addOrUpdatePersonInPeopleSheet (Some sh) data) = Some sh'
    /\ cellAt sh' r (colIx sh "Assigned Tasks")
       = cellAt sh r (colIx sh "Assigned Tasks").
Proof.
  intros Ht Hr.
  destruct (outcome_cases sh data)
    as [(_ & ->) | [(_ & _ & ->) | [(Hreq & r0 & Hf & ->) | (_ & Hn & _)]]].
  - now exists sh.
  - now exists sh.
  - eexists. split; [reflexivity |].
    destruct (colIx_within sh "Assigned Tasks" ltac:(discriminate) Ht)
      as (Hlt & Hix).
    rewrite cellAt_written.
    destruct (Nat.eqb_spec r r0) as [-> | Hne]; cbn [andb]; [| reflexivity].
    destruct (Nat.ltb_spec (colIx sh "Assigned Tasks") (lastColumnN sh));
      [| lia].
    now apply rowCell_tasks.
  - destruct Hr as (Hrec & Hcell). now elim (Hn r).
Qed.

Lemma assigned_tasks_preserved_witness :
  exists sh',
    people (addOrUpdatePersonInPeopleSheet (Some rosterTasks) contactBen)
    = Some sh'
    /\ cellAt sh' 1 (colIx rosterTasks "Assigned Tasks")
       = cellAt rosterTasks 1 (colIx rosterTasks "Assigned Tasks").
Proof.
  apply (assigned_tasks_preserved rosterTasks contactBen 1).
  - vm_compute. discriminate.
  - split; [unfold isRecord; vm_compute; lia | reflexivity].
Defined.

(** The two scenarios of the specification, run on the code. *)
Example preservation_scenario :
  addOrUpdatePersonInPeopleSheet (Some rosterTasks) contactBen
  = returned [LogUpdated "Benjamin" "ben@x.com" 2]
      (Some [fullHeader;
             [VStr "Benjamin"; VStr "Staff"; VStr "Usher"; VStr "Accepted";
              VStr "ben@x.com"; VStr "555-0199"; VStr "Setup, Teardown";
              VStr ""]]).
Proof. reflexivity. Qed.

Example end_to_end_scenario :
  addOrUpdatePersonInPeopleSheet (Some rosterAna) contactAna
  = returned [LogUpdated "Ana Lee" "ana@x.com" 2]
      (Some [fullHeader;
             [VStr "Ana Lee"; VStr "Volunteer"; VStr "Lead"; VStr "Accepted";
              VStr "ana@x.com"; VStr ""; VStr "Signage"; VStr ""]]).
Proof. reflexivity. Qed.

(** C3, counterexample.  On a roster that holds only its header row, a
    first call without an address appends row 2; a second call with the
    same contact finds that row, whose Email cell is empty, and updates
    it: no second row is appended. *)
Lemma empty_email_second_call_updates :
  email contactNoEmail = ""
  /\ exists sh1,
       addOrUpdatePersonInPeopleSheet (Some rosterMinimal) contactNoEmail
       = returned [LogAdded "Bob" "" 2] (Some sh1)
       /\ addOrUpdatePersonInPeopleSheet (Some sh1) contactNoEmail
          = returned [LogUpdated "Bob" "" 2] (Some sh1)
       /\ getLastRow sh1 = 2.
Proof.
  split; [reflexivity |].
  eexists. split; [vm_compute; reflexivity |].
  split; reflexivity.
Qed.

(** C3, as amended.  A call whose address is the empty string takes the
    insert branch when no record has an empty Email cell: a row with
    the contact's values is written below the last row.  When some
    record has an empty Email cell, the call updates the first such
    record: that row takes the contact's values, every other row stays
    as it was and the sheet gets no longer.  One of the two is always
    the case. *)
Theorem empty_email_matches_empty_cell (sh : Sheet) (data : Contact) :
  requiredColumns sh ->
  email data = "" ->
  ((exists r0, firstRecordWith sh "" r0) \/ noRecordWith sh "")
  /\ (noRecordWith sh "" ->
      logged (addOrUpdatePersonInPeopleSheet (Some sh) data)
      = [LogAdded (name data) "" (getLastRow sh + 1)]
      /\ exists sh',
           people (addOrUpdatePersonInPeopleSheet (Some sh) data) = Some sh'
           /\ cellAt sh' (lastRowN sh) (colIx sh "Name") = VStr (name data)
           /\ cellAt sh' (lastRowN sh) (colIx sh "Category")
              = VStr (category data)
           /\ cellAt sh' (lastRowN sh) (colIx sh "Email") = VStr ""
           /\ (columnOf sh "Role/Position" <> 0 ->
               cellAt sh' (lastRowN sh) (colIx sh "Role/Position")
               = VStr (role data))
           /\ (columnOf sh "Status" <> 0 ->
               cellAt sh' (lastRowN sh) (colIx sh "Status")
               = VStr (status data))
           /\ (columnOf sh "Phone" <> 0 ->
               cellAt sh' (lastRowN sh) (colIx sh "Phone")
               = VStr (phone data))
           /\ (forall r c, r <> lastRowN sh -> cellAt sh' r c = cellAt sh r c))
  /\ (forall r0, firstRecordWith sh "" r0 ->
        logged (addOrUpdatePersonInPeopleSheet (Some sh) data)
        = [LogUpdated (name data) "" (Z.of_nat r0 + 1)]
        /\ exists sh',
             people (addOrUpdatePersonInPeopleSheet (Some sh) data) = Some sh'
             /\ cellAt sh' r0 (colIx sh "Name") = VStr (name data)
             /\ cellAt sh' r0 (colIx sh "Category") = VStr (category data)
             /\ cellAt sh' r0 (colIx sh "Email") = VStr ""
             /\ (columnOf sh "Role/Position" <> 0 ->
                 cellAt sh' r0 (colIx sh "Role/Position") = VStr (role data))
             /\ (columnOf sh "Status" <> 0 ->
                 cellAt sh' r0 (colIx sh "Status") = VStr (status data))
             /\ (columnOf sh "Phone" <> 0 ->
                 cellAt sh' r0 (colIx sh "Phone") = VStr (phone data))
             /\ (forall r c, r <> r0 -> cellAt sh' r c = cellAt sh r c)
             /\ getLastRow sh' <= getLastRow sh).
Proof.
  intros Hreq Hmail. split; [now apply first_or_none |]. split.
  - intros Hnone. rewrite <- Hmail in Hnone.
    rewrite (outcome_append sh data Hreq Hnone). cbn [logged people returned].
    split; [now rewrite Hmail |].
    destruct (written_cells sh data blank (lastRowN sh) Hreq)
      as (Hn & Hc & He & Hr & Hs & Hp & _ & Hframe).
    rewrite Hmail in He.
    eexists. split; [reflexivity |]. now repeat split.
  - intros r0 Hfirst. rewrite <- Hmail in Hfirst.
    rewrite (outcome_update sh data r0 Hreq Hfirst).
    cbn [logged people returned].
    split; [now rewrite Hmail |].
    destruct (written_cells sh data
                (cellAt sh r0 (colIx sh "Assigned Tasks")) r0 Hreq)
      as (Hn & Hc & He & Hr & Hs & Hp & _ & Hframe).
    rewrite Hmail in He.
    eexists. split; [reflexivity |].
    repeat split; try assumption.
    destruct Hfirst as (((HR & Hlt) & _) & _).
    assert (Hlast : (lastRowN
                       (writeRow sh r0
                          (map (rowCell (columnsOf (headerRow sh)) data
                                  (cellAt sh r0 (colIx sh "Assigned Tasks")))
                             (seq 0 (lastColumnN sh))))
                     <= Nat.max (lastRowN sh) (S r0))%nat)
      by (apply written_lastRowN; exact HR).
    unfold getLastRow. lia.
Qed.

Lemma empty_email_matches_empty_cell_witness :
  (logged (addOrUpdatePersonInPeopleSheet (Some rosterMinimal) contactNoEmail)
   = [LogAdded "Bob" "" 2]
   /\ exists sh',
        people (addOrUpdatePersonInPeopleSheet (Some rosterMinimal)
                  contactNoEmail) = Some sh'
        /\ cellAt sh' 1 0 = VStr "Bob"
        /\ cellAt sh' 1 1 = VStr "Volunteer"
        /\ cellAt sh' 1 2 = VStr ""
        /\ forall r c, r <> 1%nat -> cellAt sh' r c = cellAt rosterMinimal r c)
  /\ (logged (addOrUpdatePersonInPeopleSheet (Some rosterNoAddress)
                contactNoEmail)
      = [LogUpdated "Bob" "" 2]
      /\ exists sh',
           people (addOrUpdatePersonInPeopleSheet (Some rosterNoAddress)
                     contactNoEmail) = Some sh'
           /\ cellAt sh' 1 0 = VStr "Bob"
           /\ cellAt sh' 1 1 = VStr "Volunteer"
           /\ cellAt sh' 1 2 = VStr ""
           /\ (forall r c, r <> 1%nat ->
                 cellAt sh' r c = cellAt rosterNoAddress r c)
           /\ getLastRow sh' <= getLastRow rosterNoAddress).
Proof.
  split.
  - destruct (empty_email_matches_empty_cell rosterMinimal contactNoEmail)
      as (_ & Hadd & _).
    + unfold requiredColumns. vm_compute. repeat split; discriminate.
    + reflexivity.
    + destruct Hadd as (Hlog & sh' & Hsh & Hn & Hc & He & _ & _ & _ & Hframe).
      * intros r Hr. unfold isRecord in Hr. vm_compute in Hr. lia.
      * split; [exact Hlog |]. exists sh'. now repeat split.
  - destruct (empty_email_matches_empty_cell rosterNoAddress contactNoEmail)
      as (_ & _ & Hupd).
    + unfold requiredColumns. vm_compute. repeat split; discriminate.
    + reflexivity.
    + destruct (Hupd 1%nat)
        as (Hlog & sh' & Hsh & Hn & Hc & He & _ & _ & _ & Hframe & Hlast).
      * split; [split; [unfold isRecord; vm_compute; lia | reflexivity] |].
        intros r Hr. lia.
      * split; [exact Hlog |]. exists sh'. now repeat split.
Defined.

(** C4.  The record that is updated is the first one, in row order,
    whose Email cell is the incoming address, compared as [===]
    compares; when no record has such a cell a row is added.  So
    "a@x.com" and "A@X.com", submitted one after the other to an empty
    roster, end up in two rows. *)
Theorem match_is_first_exact_email (sh : Sheet) (data : Contact) :
  requiredColumns sh ->
  (forall r0, firstRecordWith sh (email data) r0 ->
     exists sh',
       addOrUpdatePersonInPeopleSheet (Some sh) data
       = returned [LogUpdated (name data) (email data) (Z.of_nat r0 + 1)]
           (Some sh')
       /\ forall r c, r <> r0 -> cellAt sh' r c = cellAt sh r c)
  /\ (noRecordWith sh (email data) ->
      exists sh',
        addOrUpdatePersonInPeopleSheet (Some sh) data
        = returned [LogAdded (name data) (email data) (getLastRow sh + 1)]
            (Some sh')
        /\ forall r c, r <> lastRowN sh -> cellAt sh' r c = cellAt sh r c)
  /\ (exists sh1 sh2,
        addOrUpdatePersonInPeopleSheet (Some rosterEmpty) contactLower
        = returned [LogAdded "Al" "a@x.com" 2] (Some sh1)
        /\ addOrUpdatePersonInPeopleSheet (Some sh1) contactUpper
           = returned [LogAdded "Al" "A@X.com" 3] (Some sh2)
        /\ cellAt sh2 1 (colIx sh2 "Email") = VStr "a@x.com"
        /\ cellAt sh2 2 (colIx sh2 "Email") = VStr "A@X.com").
Proof.
  intros Hreq. split; [| split].
  - intros r0 Hfirst. rewrite (outcome_update sh data r0 Hreq Hfirst).
    eexists. split; [reflexivity |].
    intros r c Hne. rewrite cellAt_written.
    destruct (Nat.eqb_spec r r0); [contradiction | reflexivity].
  - intros Hnone. rewrite (outcome_append sh data Hreq Hnone).
    eexists. split; [reflexivity |].
    intros r c Hne. rewrite cellAt_written.
    destruct (Nat.eqb_spec r (lastRowN sh)); [contradiction | reflexivity].
  - eexists. eexists. split; [vm_compute; reflexivity |].
    split; [vm_compute; reflexivity |]. split; reflexivity.
Qed.

Lemma match_is_first_exact_email_witness :
  exists sh',
    addOrUpdatePersonInPeopleSheet (Some rosterAna) contactAna
    = returned [LogUpdated "Ana Lee" "ana@x.com" 2] (Some sh')
    /\ forall r c, r <> 1%nat -> cellAt sh' r c = cellAt rosterAna r c.
Proof.
  destruct (match_is_first_exact_email rosterAna contactAna) as (Hupd & _).
  - unfold requiredColumns. vm_compute. repeat split; discriminate.
  - apply (Hupd 1%nat).
    split; [split; [unfold isRecord; vm_compute; lia | reflexivity] |].
    intros r Hr. lia.
Defined.

(** C5, the failing input.  A People sheet that exists but holds
    nothing has no Name header.  Its last column is [0], so line 757
    asks the host for a range of zero columns: the call ends with the
    host's exception before it reaches the guard of line 769, and the
    function logs nothing. *)
Lemma empty_sheet_raises :
  columnOf [] "Name" = 0
  /\ addOrUpdatePersonInPeopleSheet (Some []) contactAna
     = mkResult Raised [] (Some []).
Proof. split; reflexivity. Qed.

(** The two guards (lines 751-754 and 769-772).  When the People sheet
    does not exist, or its header row lacks Name, Category or Email, the
    call leaves the store as it is; when the sheet does not exist, or
    holds some content, it logs the configuration error and returns. *)
Theorem config_error_writes_nothing (ss : option Sheet) (data : Contact) :
  (ss = None
   \/ exists sh, ss = Some sh
        /\ (columnOf sh "Name" = 0 \/ columnOf sh "Category" = 0
            \/ columnOf sh "Email" = 0)) ->
  people (addOrUpdatePersonInPeopleSheet ss data) = ss
  /\ (ss = None ->
      addOrUpdatePersonInPeopleSheet ss data
      = returned [LogSheetNotFound] ss)
  /\ (forall sh, ss = Some sh -> getLastColumn sh <> 0 ->
      addOrUpdatePersonInPeopleSheet ss data
      = returned [LogRequiredColumnsNotFound] ss).
Proof.
  intros [-> | (sh & -> & Hmiss)].
  - repeat split; try reflexivity. intros sh Hsh. discriminate.
  - assert (Hreq : ~ requiredColumns sh) by (unfold requiredColumns; tauto).
    repeat split.
    + destruct (Nat.eq_dec (lastColumnN sh) 0) as [Hz | Hnz].
      * now rewrite outcome_empty.
      * now rewrite outcome_guard.
    + discriminate.
    + intros sh0 Hsh Hnz. injection Hsh as <-.
      apply outcome_guard; [| exact Hreq].
      unfold getLastColumn in Hnz. lia.
Qed.

Lemma config_error_writes_nothing_witness :
  people (addOrUpdatePersonInPeopleSheet (Some rosterNoEmail) contactAna)
  = Some rosterNoEmail
  /\ addOrUpdatePersonInPeopleSheet (Some rosterNoEmail) contactAna
     = returned [LogRequiredColumnsNotFound] (Some rosterNoEmail).
Proof.
  destruct (config_error_writes_nothing (Some rosterNoEmail) contactAna)
    as (Hsame & _ & Hlog).
  - right. exists rosterNoEmail. split; [reflexivity |].
    right. right. reflexivity.
  - split; [exact Hsame |].
    apply (Hlog rosterNoEmail eq_refl). vm_compute. discriminate.
Defined.

(** C6.  When no record carries the incoming address, one row is
    written directly below the last row with content: its Name,
    Category, Role/Position, Status, Email and Phone cells hold the
    contact's values, its Assigned Tasks cell and the cell under every
    other header are empty, and every other row is as before. *)
Theorem insert_appends_one_row (sh : Sheet) (data : Contact) :
  requiredColumns sh ->
  noRecordWith sh (email data) ->
  exists sh',
    addOrUpdatePersonInPeopleSheet (Some sh) data
    = returned [LogAdded (name data) (email data) (getLastRow sh + 1)]
        (Some sh')
    /\ cellAt sh' (lastRowN sh) (colIx sh "Name") = VStr (name data)
    /\ cellAt sh' (lastRowN sh) (colIx sh "Category") = VStr (category data)
    /\ cellAt sh' (lastRowN sh) (colIx sh "Email") = VStr (email data)
    /\ (columnOf sh "Role/Position" <> 0 ->
        cellAt sh' (lastRowN sh) (colIx sh "Role/Position")
        = VStr (role data))
    /\ (columnOf sh "Status" <> 0 ->
        cellAt sh' (lastRowN sh) (colIx sh "Status") = VStr (status data))
    /\ (columnOf sh "Phone" <> 0 ->
        cellAt sh' (lastRowN sh) (colIx sh "Phone") = VStr (phone data))
    /\ (columnOf sh "Assigned Tasks" <> 0 ->
        cellAt sh' (lastRowN sh) (colIx sh "Assigned Tasks") = blank)
    /\ (forall c, isResolvedHeader (cellAt sh 0 c) = false ->
          cellAt sh' (lastRowN sh) c = blank)
    /\ (forall r c, r <> lastRowN sh -> cellAt sh' r c = cellAt sh r c)
    /\ (email data <> "" -> getLastRow sh' = getLastRow sh + 1).
Proof.
  intros Hreq Hnone. rewrite (outcome_append sh data Hreq Hnone).
  eexists. split; [reflexivity |].
  destruct Hreq as (Hn & Hc & He).
  assert (Hcell : forall s, s <> "" -> columnOf sh s <> 0 ->
            cellAt (writeRow sh (lastRowN sh)
                      (map (rowCell (columnsOf (headerRow sh)) data blank)
                         (seq 0 (lastColumnN sh))))
              (lastRowN sh) (colIx sh s)
            = rowCell (columnsOf (headerRow sh)) data blank (colIx sh s)).
  { intros s Hs Hcol. destruct (colIx_within sh s Hs Hcol) as (Hlt & _).
    rewrite cellAt_written, Nat.eqb_refl. cbn [andb].
    destruct (Nat.ltb_spec (colIx sh s) (lastColumnN sh)); [reflexivity | lia]. }
  assert (Hix : forall s, s <> "" -> columnOf sh s <> 0 ->
            Z.of_nat (colIx sh s) + 1 = columnOf sh s)
    by (intros s Hs Hcol; now apply colIx_within).
  repeat split.
  - rewrite Hcell by (discriminate || assumption).
    apply rowCell_name, Hix; (discriminate || assumption).
  - rewrite Hcell by (discriminate || assumption).
    apply rowCell_category, Hix; (discriminate || assumption).
  - rewrite Hcell by (discriminate || assumption).
    apply rowCell_email, Hix; (discriminate || assumption).
  - intros H. rewrite Hcell by (discriminate || assumption).
    apply rowCell_role, Hix; (discriminate || assumption).
  - intros H. rewrite Hcell by (discriminate || assumption).
    apply rowCell_status, Hix; (discriminate || assumption).
  - intros H. rewrite Hcell by (discriminate || assumption).
    apply rowCell_phone, Hix; (discriminate || assumption).
  - intros H. rewrite Hcell by (discriminate || assumption).
    apply rowCell_tasks, Hix; (discriminate || assumption).
  - intros c Hcu. rewrite cellAt_written, Nat.eqb_refl. cbn [andb].
    destruct (Nat.ltb_spec c (lastColumnN sh)) as [Hin | Hout].
    + now apply rowCell_unresolved.
    + now apply lastColumnN_beyond.
  - intros r c Hne. rewrite cellAt_written.
    destruct (Nat.eqb_spec r (lastRowN sh)); [contradiction | reflexivity].
  - intros Hmail. unfold getLastRow.
    set (sh' := writeRow sh (lastRowN sh) _).
    assert (Hup : (lastRowN sh < lastRowN sh')%nat).
    { apply (lastRowN_content sh' (lastRowN sh) (colIx sh "Email")).
      unfold sh'. rewrite Hcell by (discriminate || assumption).
      rewrite rowCell_email by (apply Hix; (discriminate || assumption)).
      now apply VStr_nonblank. }
    assert (Hle : (lastRowN sh' <= S (lastRowN sh))%nat).
    { apply lastRowN_least. intros r c Hr. unfold sh'.
      rewrite cellAt_written.
      destruct (Nat.eqb_spec r (lastRowN sh)); [lia |]. cbn [andb].
      apply lastRowN_beyond. lia. }
    lia.
Qed.

Lemma insert_appends_one_row_witness :
  exists sh',
    addOrUpdatePersonInPeopleSheet (Some rosterEmpty) contactAna
    = returned [LogAdded (name contactAna) (email contactAna)
                  (getLastRow rosterEmpty + 1)] (Some sh')
    /\ cellAt sh' (lastRowN rosterEmpty) (colIx rosterEmpty "Name")
       = VStr (name contactAna)
    /\ cellAt sh' (lastRowN rosterEmpty) (colIx rosterEmpty "Category")
       = VStr (category contactAna)
    /\ cellAt sh' (lastRowN rosterEmpty) (colIx rosterEmpty "Email")
       = VStr (email contactAna)
    /\ (columnOf rosterEmpty "Role/Position" <> 0 ->
        cellAt sh' (lastRowN rosterEmpty) (colIx rosterEmpty "Role/Position")
        = VStr (role contactAna))
    /\ (columnOf rosterEmpty "Status" <> 0 ->
        cellAt sh' (lastRowN rosterEmpty) (colIx rosterEmpty "Status")
        = VStr (status contactAna))
    /\ (columnOf rosterEmpty "Phone" <> 0 ->
        cellAt sh' (lastRowN rosterEmpty) (colIx rosterEmpty "Phone")
        = VStr (phone contactAna))
    /\ (columnOf rosterEmpty "Assigned Tasks" <> 0 ->
        cellAt sh' (lastRowN rosterEmpty) (colIx rosterEmpty "Assigned Tasks")
        = blank)
    /\ (forall c, isResolvedHeader (cellAt rosterEmpty 0 c) = false ->
          cellAt sh' (lastRowN rosterEmpty) c = blank)
    /\ (forall r c, r <> lastRowN rosterEmpty ->
          cellAt sh' r c = cellAt rosterEmpty r c)
    /\ (email contactAna <> "" ->
        getLastRow sh' = getLastRow rosterEmpty + 1).
Proof.
  apply (insert_appends_one_row rosterEmpty contactAna).
  - unfold requiredColumns. vm_compute. repeat split; discriminate.
  - intros r Hr. unfold isRecord in Hr. vm_compute in Hr. lia.
Defined.

(** C7, counterexample.  A roster in which two records already carry
    "cy@x.com": after the contact with that address is applied twice,
    both records still carry it. *)
Lemma reapplying_leaves_two_records :
  email contactCy <> ""
  /\ exists sh1 sh2,
       people (addOrUpdatePersonInPeopleSheet (Some rosterTwice) contactCy)
       = Some sh1
       /\ people (addOrUpdatePersonInPeopleSheet (Some sh1) contactCy)
          = Some sh2
       /\ carriesEmail sh2 "cy@x.com" 1
       /\ carriesEmail sh2 "cy@x.com" 2.
Proof.
  split; [discriminate |].
  eexists. eexists. split; [vm_compute; reflexivity |].
  split; [vm_compute; reflexivity |].
  split; (split; [unfold isRecord; vm_compute; lia | reflexivity]).
Qed.

(** C7, as amended.  For a contact with a non-empty address, a second
    application leaves the roster in the state the first one produced.
    When the header row has the required columns and at most one record
    carried the address to begin with, exactly one record carries it
    afterwards. *)
Theorem reapplying_changes_nothing (ss : option Sheet) (data : Contact) :
  email data <> "" ->
  let once := people (addOrUpdatePersonInPeopleSheet ss data) in
  let twice := people (addOrUpdatePersonInPeopleSheet once data) in
  sameStore twice once
  /\ (forall sh, ss = Some sh -> requiredColumns sh ->
      (forall r r', carriesEmail sh (email data) r ->
                    carriesEmail sh (email data) r' -> r = r') ->
      exists sh2 r0,
        twice = Some sh2
        /\ carriesEmail sh2 (email data) r0
        /\ forall r, carriesEmail sh2 (email data) r -> r = r0).
Proof.
  intros Hmail. cbv zeta. destruct ss as [sh |].
  2:{ cbn. split; [exact I |]. intros sh Hsh. discriminate. }
  assert (Hcore :
    forall R : nat,
      requiredColumns sh -> (1 <= R)%nat ->
      (forall r, (1 <= r < R)%nat ->
         cellAt sh r (colIx sh "Email") <> VStr (email data)) ->
      let sh1 :=
        writeRow sh R
          (map (rowCell (columnsOf (headerRow sh)) data
                  (cellAt sh R (colIx sh "Assigned Tasks")))
             (seq 0 (lastColumnN sh))) in
      sameStore (people (addOrUpdatePersonInPeopleSheet (Some sh1) data))
        (Some sh1)
      /\ ((forall r, carriesEmail sh (email data) r -> r = R) ->
          exists sh2 r0,
            people (addOrUpdatePersonInPeopleSheet (Some sh1) data) = Some sh2
            /\ carriesEmail sh2 (email data) r0
            /\ forall r, carriesEmail sh2 (email data) r -> r = r0)).
  { intros R Hreq HR Hbefore sh1.
    destruct (rerun_same sh data R Hreq HR Hmail Hbefore)
      as (Hfirst & sh2 & Hres & Hsame).
    fold sh1 in Hfirst, Hres, Hsame. rewrite Hres. cbn [people returned].
    split; [exact Hsame |]. intros Honly.
    exists sh2, R. split; [reflexivity |].
    split; [apply (carriesEmail_sameCells sh2 sh1 _ _ Hsame), Hfirst |].
    intros r Hr.
    apply (carriesEmail_sameCells sh1 sh2) in Hr;
      [| intros x y; symmetry; apply Hsame].
    destruct (Nat.eq_dec r R) as [-> | Hne]; [reflexivity |].
    apply Honly. destruct Hr as ((Hr1 & _) & Hcell).
    unfold sh1 in Hcell. rewrite written_colIx in Hcell by (lia || discriminate).
    rewrite cellAt_written in Hcell.
    destruct (Nat.eqb_spec r R); [contradiction |]. cbn [andb] in Hcell.
    now apply carries_nonempty. }
  destruct (outcome_cases sh data)
    as [(Hz & ->) | [(Hnz & Hnreq & ->) | [(Hreq & r0 & Hf & ->)
                                         | (Hreq & Hn & ->)]]];
    cbn [people returned].
  - rewrite outcome_empty by exact Hz. cbn [people].
    split; [apply sameCells_refl |].
    intros sh0 Hsh Hreq. injection Hsh as Hsh. subst sh0.
    now elim (requiredColumns_content sh Hreq).
  - rewrite outcome_guard by assumption. cbn [people returned].
    split; [apply sameCells_refl |].
    intros sh0 Hsh Hreq. injection Hsh as Hsh. subst sh0. contradiction.
  - destruct Hf as (Hcarry & Hbefore). pose proof Hcarry as ((HR & _) & _).
    destruct (Hcore r0 Hreq HR Hbefore) as (Hsame & Hone).
    split; [exact Hsame |].
    intros sh0 Hsh _ Huniq. apply Hone.
    intros r Hr. injection Hsh as Hsh. subst sh0. now apply Huniq.
  - pose proof (requiredColumns_header_row sh Hreq) as HR.
    replace (rowCell (columnsOf (headerRow sh)) data blank)
      with (rowCell (columnsOf (headerRow sh)) data
              (cellAt sh (lastRowN sh) (colIx sh "Assigned Tasks")))
      by (now rewrite lastRowN_beyond).
    destruct (Hcore (lastRowN sh) Hreq HR) as (Hsame & Hone).
    { intros r Hr. apply Hn. exact Hr. }
    split; [exact Hsame |].
    intros sh0 Hsh _ _. apply Hone.
    intros r (Hrec & Hcell). now elim (Hn r).
Qed.

Lemma reapplying_changes_nothing_witness :
  let once :=
    people (addOrUpdatePersonInPeopleSheet (Some rosterAna) contactAna) in
  let twice := people (addOrUpdatePersonInPeopleSheet once contactAna) in
  sameStore twice once
  /\ exists sh2 r0,
       twice = Some sh2
       /\ carriesEmail sh2 (email contactAna) r0
       /\ forall r, carriesEmail sh2 (email contactAna) r -> r = r0.
Proof.
  destruct (reapplying_changes_nothing (Some rosterAna) contactAna)
    as (Hsame & Hone).
  - vm_compute. discriminate.
  - split; [exact Hsame |].
    apply (Hone rosterAna eq_refl).
    + unfold requiredColumns. vm_compute. repeat split; discriminate.
    + intros r r' (Hr & _) (Hr' & _).
      unfold isRecord in Hr, Hr'. vm_compute in Hr, Hr'. lia.
Defined.

(** C8, counterexample.  A roster in which two records already carry
    "cy@x.com": after a call for another address, which adds a row,
    the two records still share their key. *)
Lemma duplicates_survive_a_call :
  exists sh',
    people (addOrUpdatePersonInPeopleSheet (Some rosterTwice) contactAna)
    = Some sh'
    /\ carriesEmail sh' "cy@x.com" 1
    /\ carriesEmail sh' "cy@x.com" 2
    /\ ~ uniqueEmails sh'.
Proof.
  eexists. split; [vm_compute; reflexivity |].
  assert (Hrec : forall r, (1 <= r < 3)%nat ->
            isRecord
              [[VStr "Name"; VStr "Category"; VStr "Email";
                VStr "Assigned Tasks"];
               [VStr "Cy"; VStr "Speaker"; VStr "cy@x.com"; VStr "Keynote"];
               [VStr "Cyrus"; VStr "Speaker"; VStr "cy@x.com"; VStr "Panel"];
               [VStr "Ana Lee"; VStr "Volunteer"; VStr "ana@x.com"; VStr ""]]
              r).
  { intros r Hr. unfold isRecord. vm_compute. lia. }
  split; [split; [apply Hrec; lia | reflexivity] |].
  split; [split; [apply Hrec; lia | reflexivity] |].
  intros Huniq.
  assert (H : 1%nat = 2%nat); [| discriminate].
  apply Huniq; [vm_compute; discriminate | apply Hrec; lia | apply Hrec; lia |].
  reflexivity.
Qed.

(** C8, as amended.  A roster in which no two records share the content
    of their Email cell is such a roster after any call. *)
Theorem unique_emails_preserved (sh : Sheet) (data : Contact) (sh' : Sheet) :
  uniqueEmails sh ->
  people (addOrUpdatePersonInPeopleSheet (Some sh) data) = Some sh' ->
  uniqueEmails sh'.
Proof.
  intros Huniq.
  destruct (outcome_cases sh data)
    as [(_ & ->) | [(_ & _ & ->) | [(Hreq & r0 & Hf & ->)
                                   | (Hreq & Hn & ->)]]];
    cbn [people returned]; intros Hsh'; injection Hsh' as <-;
    try exact Huniq.
  - (* the first record carrying the address is rewritten *)
    destruct Hf as (((HR & Hlt) & Hcell) & _).
    pose proof Hreq as (_ & _ & He). specialize (Huniq He).
    destruct (colIx_within sh "Email" ltac:(discriminate) He) as (Helt & Heix).
    set (sh1 := writeRow sh r0 _).
    assert (Hcol : forall r, cellAt sh1 r (colIx sh "Email")
                             = cellAt sh r (colIx sh "Email")).
    { intros r. unfold sh1. rewrite cellAt_written.
      destruct (Nat.eqb_spec r r0) as [-> | Hne]; cbn [andb]; [| reflexivity].
      destruct (Nat.ltb_spec (colIx sh "Email") (lastColumnN sh)); [| lia].
      rewrite Hcell. now apply rowCell_email. }
    assert (Hrows : forall r, isRecord sh1 r -> isRecord sh r).
    { intros r (H1 & H2). split; [exact H1 |].
      pose proof (written_lastRowN sh r0
                    (map (rowCell (columnsOf (headerRow sh)) data
                            (cellAt sh r0 (colIx sh "Assigned Tasks")))
                       (seq 0 (lastColumnN sh)))) as Hle.
      fold sh1 in Hle. lia. }
    assert (Hix : colIx sh1 "Email" = colIx sh "Email")
      by (unfold sh1; apply written_colIx; (lia || discriminate)).
    unfold uniqueEmails. intros _ r r' Hr Hr'. rewrite Hix, !Hcol.
    apply Huniq; now apply Hrows.
  - (* a row is added below the last one *)
    pose proof Hreq as (_ & _ & He). specialize (Huniq He).
    pose proof (requiredColumns_header_row sh Hreq) as HR.
    destruct (colIx_within sh "Email" ltac:(discriminate) He) as (Helt & Heix).
    set (sh1 := writeRow sh (lastRowN sh) _).
    assert (Hcol : forall r, cellAt sh1 r (colIx sh "Email")
                             = if (r =? lastRowN sh)%nat
                               then VStr (email data)
                               else cellAt sh r (colIx sh "Email")).
    { intros r. unfold sh1. rewrite cellAt_written.
      destruct (Nat.eqb_spec r (lastRowN sh)) as [-> | Hne]; cbn [andb];
        [| reflexivity].
      destruct (Nat.ltb_spec (colIx sh "Email") (lastColumnN sh)); [| lia].
      now apply rowCell_email. }
    assert (Hrows : forall r, isRecord sh1 r -> (1 <= r <= lastRowN sh)%nat).
    { intros r (H1 & H2). split; [exact H1 |].
      pose proof (written_lastRowN sh (lastRowN sh)
                    (map (rowCell (columnsOf (headerRow sh)) data blank)
                       (seq 0 (lastColumnN sh)))) as Hle.
      fold sh1 in Hle. lia. }
    assert (Hix : colIx sh1 "Email" = colIx sh "Email")
      by (unfold sh1; apply written_colIx; (lia || discriminate)).
    unfold uniqueEmails. intros _ r r' Hr Hr'. rewrite Hix, !Hcol.
    apply Hrows in Hr, Hr'.
    destruct (Nat.eqb_spec r (lastRowN sh)) as [Hr0 | Hr0],
      (Nat.eqb_spec r' (lastRowN sh)) as [Hr0' | Hr0']; intros Heq.
    + congruence.
    + elim (Hn r'); [split; lia | now symmetry].
    + elim (Hn r); [split; lia | exact Heq].
    + apply Huniq; [split; lia | split; lia | exact Heq].
Qed.

Lemma unique_emails_preserved_witness :
  uniqueEmails
    [fullHeader;
     [VStr "Ana Lee"; VStr "Volunteer"; VStr "Lead"; VStr "Accepted";
      VStr "ana@x.com"; VStr ""; VStr "Signage"; VStr ""]].
Proof.
  apply (unique_emails_preserved rosterAna contactAna).
  - intros _ r r' Hr Hr' _. unfold isRecord in Hr, Hr'.
    vm_compute in Hr, Hr'. lia.
  - reflexivity.
Defined.

(** C9.  When two records carry the incoming address, the call updates
    the first record that carries it, which lies at or above both; it
    writes that one row, and every other row of the sheet, the later
    duplicate included, is as before. *)
Theorem only_first_duplicate_updated (sh : Sheet) (data : Contact)
  (r1 r2 : nat) :
  requiredColumns sh ->
  carriesEmail sh (email data) r1 ->
  carriesEmail sh (email data) r2 ->
  (r1 < r2)%nat ->
  exists r0 sh',
    firstRecordWith sh (email data) r0
    /\ (r0 <= r1)%nat
    /\ addOrUpdatePersonInPeopleSheet (Some sh) data
       = returned [LogUpdated (name data) (email data) (Z.of_nat r0 + 1)]
           (Some sh')
    /\ (forall r c, r <> r0 -> cellAt sh' r c = cellAt sh r c)
    /\ (forall c, cellAt sh' r2 c = cellAt sh r2 c).
Proof.
  intros Hreq H1 H2 Hlt.
  destruct (first_or_none sh (email data) Hreq) as [(r0 & Hf) | Hn].
  2:{ destruct H1 as (Hrec & Hcell). now elim (Hn r1). }
  assert (Hle : (r0 <= r1)%nat).
  { destruct (Nat.le_gt_cases r0 r1) as [H | H]; [exact H |].
    destruct Hf as (_ & Hbefore), H1 as ((Hr1 & _) & Hcell).
    elim (Hbefore r1); [lia | exact Hcell]. }
  exists r0. rewrite (outcome_update sh data r0 Hreq Hf).
  eexists. split; [exact Hf |]. split; [exact Hle |].
  split; [reflexivity |].
  assert (Hframe : forall r c, r <> r0 ->
            cellAt (writeRow sh r0
                      (map (rowCell (columnsOf (headerRow sh)) data
                              (cellAt sh r0 (colIx sh "Assigned Tasks")))
                         (seq 0 (lastColumnN sh)))) r c
            = cellAt sh r c).
  { intros r c Hne. rewrite cellAt_written.
    destruct (Nat.eqb_spec r r0); [contradiction | reflexivity]. }
  split; [exact Hframe |].
  intros c. apply Hframe. lia.
Qed.

Lemma only_first_duplicate_updated_witness :
  exists r0 sh',
    firstRecordWith rosterTwice (email contactCy) r0
    /\ (r0 <= 1)%nat
    /\ addOrUpdatePersonInPeopleSheet (Some rosterTwice) contactCy
       = returned [LogUpdated (name contactCy) (email contactCy)
                     (Z.of_nat r0 + 1)] (Some sh')
    /\ (forall r c, r <> r0 -> cellAt sh' r c = cellAt rosterTwice r c)
    /\ (forall c, cellAt sh' 2 c = cellAt rosterTwice 2 c).
Proof.
  apply (only_first_duplicate_updated rosterTwice contactCy 1 2).
  - unfold requiredColumns. vm_compute. repeat split; discriminate.
  - split; [unfold isRecord; vm_compute; lia | reflexivity].
  - split; [unfold isRecord; vm_compute; lia | reflexivity].
  - lia.
Defined.

(** The duplicates of the sample roster, run on the code. *)
Example duplicate_scenario :
  addOrUpdatePersonInPeopleSheet (Some rosterTwice) contactCy
  = returned [LogUpdated "Cy Young" "cy@x.com" 2]
      (Some [[VStr "Name"; VStr "Category"; VStr "Email";
              VStr "Assigned Tasks"];
             [VStr "Cy Young"; VStr "Speaker"; VStr "cy@x.com";
              VStr "Keynote"];
             [VStr "Cyrus"; VStr "Speaker"; VStr "cy@x.com"; VStr "Panel"]]).
Proof. reflexivity. Qed.

(** C10.  With the required columns present the call completes and
    writes its one row, as wide as the header row, whether or not the
    header row has Role/Position, Status, Phone or Assigned Tasks: in
    the sheet it leaves, the written row holds the contact's name,
    category and address, and its role, status and phone under the
    headers that are present; the cell under any other header is
    empty and every other row is as before.  What the contact holds
    for an absent column has no effect on the outcome. *)
Theorem optional_columns_may_be_absent (sh : Sheet) (data : Contact) :
  requiredColumns sh ->
  (exists entry r0 vals,
     addOrUpdatePersonInPeopleSheet (Some sh) data
     = returned [entry] (Some (writeRow sh r0 vals))
     /\ (entry = LogUpdated (name data) (email data) (Z.of_nat r0 + 1)
         \/ entry = LogAdded (name data) (email data) (Z.of_nat r0 + 1))
     /\ (1 <= r0)%nat
     /\ length vals = length (headerRow sh)
     /\ nth (colIx sh "Name") vals blank = VStr (name data)
     /\ nth (colIx sh "Category") vals blank = VStr (category data)
     /\ nth (colIx sh "Email") vals blank = VStr (email data)
     /\ cellAt (writeRow sh r0 vals) r0 (colIx sh "Name") = VStr (name data)
     /\ cellAt (writeRow sh r0 vals) r0 (colIx sh "Category")
        = VStr (category data)
     /\ cellAt (writeRow sh r0 vals) r0 (colIx sh "Email")
        = VStr (email data)
     /\ (columnOf sh "Role/Position" <> 0 ->
         cellAt (writeRow sh r0 vals) r0 (colIx sh "Role/Position")
         = VStr (role data))
     /\ (columnOf sh "Status" <> 0 ->
         cellAt (writeRow sh r0 vals) r0 (colIx sh "Status")
         = VStr (status data))
     /\ (columnOf sh "Phone" <> 0 ->
         cellAt (writeRow sh r0 vals) r0 (colIx sh "Phone")
         = VStr (phone data))
     /\ (forall c, isResolvedHeader (cellAt sh 0 c) = false ->
           cellAt (writeRow sh r0 vals) r0 c = blank)
     /\ (forall r c, r <> r0 ->
           cellAt (writeRow sh r0 vals) r c = cellAt sh r c))
  /\ (columnOf sh "Role/Position" = 0 ->
      forall v, addOrUpdatePersonInPeopleSheet (Some sh) (withRole v data)
                = addOrUpdatePersonInPeopleSheet (Some sh) data)
  /\ (columnOf sh "Status" = 0 ->
      forall v, addOrUpdatePersonInPeopleSheet (Some sh) (withStatus v data)
                = addOrUpdatePersonInPeopleSheet (Some sh) data)
  /\ (columnOf sh "Phone" = 0 ->
      forall v, addOrUpdatePersonInPeopleSheet (Some sh) (withPhone v data)
                = addOrUpdatePersonInPeopleSheet (Some sh) data).
Proof.
  intros Hreq. split.
  - assert (Hvals : forall t,
              length (map (rowCell (columnsOf (headerRow sh)) data t)
                        (seq 0 (lastColumnN sh))) = length (headerRow sh)
              /\ nth (colIx sh "Name")
                   (map (rowCell (columnsOf (headerRow sh)) data t)
                      (seq 0 (lastColumnN sh))) blank = VStr (name data)
              /\ nth (colIx sh "Category")
                   (map (rowCell (columnsOf (headerRow sh)) data t)
                      (seq 0 (lastColumnN sh))) blank = VStr (category data)
              /\ nth (colIx sh "Email")
                   (map (rowCell (columnsOf (headerRow sh)) data t)
                      (seq 0 (lastColumnN sh))) blank = VStr (email data)).
    { intros t. destruct Hreq as (Hn & Hc & He).
      destruct (colIx_within sh "Name" ltac:(discriminate) Hn) as (Hnlt & Hnix).
      destruct (colIx_within sh "Category" ltac:(discriminate) Hc)
        as (Hclt & Hcix).
      destruct (colIx_within sh "Email" ltac:(discriminate) He) as (Helt & Heix).
      rewrite length_map, length_seq, headerRow_length, !nth_tabulate.
      destruct (Nat.ltb_spec (colIx sh "Name") (lastColumnN sh)); [| lia].
      destruct (Nat.ltb_spec (colIx sh "Category") (lastColumnN sh)); [| lia].
      destruct (Nat.ltb_spec (colIx sh "Email") (lastColumnN sh)); [| lia].
      split; [reflexivity |].
      split; [now apply rowCell_name |].
      split; [now apply rowCell_category | now apply rowCell_email]. }
    destruct (first_or_none sh (email data) Hreq) as [(r0 & Hf) | Hn].
    + rewrite (outcome_update sh data r0 Hreq Hf).
      destruct (Hvals (cellAt sh r0 (colIx sh "Assigned Tasks")))
        as (Hlen & Hvn & Hvc & Hve).
      eexists. exists r0. eexists. split; [reflexivity |].
      split; [now left |].
      split; [apply Hf |].
      split; [exact Hlen |]. split; [exact Hvn |]. split; [exact Hvc |].
      split; [exact Hve |].
      now apply written_cells.
    + rewrite (outcome_append sh data Hreq Hn).
      destruct (Hvals blank) as (Hlen & Hvn & Hvc & Hve).
      eexists. exists (lastRowN sh). eexists. split; [reflexivity |].
      split; [right; reflexivity |].
      split; [now apply requiredColumns_header_row |].
      split; [exact Hlen |]. split; [exact Hvn |]. split; [exact Hvc |].
      split; [exact Hve |].
      now apply written_cells.
  - repeat split; intros Hz v; apply closedForm_ext; try reflexivity;
      intros t c.
    + now apply rowCell_role_absent.
    + now apply rowCell_status_absent.
    + now apply rowCell_phone_absent.
Qed.

Lemma optional_columns_may_be_absent_witness :
  (exists entry r0 vals,
     addOrUpdatePersonInPeopleSheet (Some rosterMinimal) contactAna
     = returned [entry] (Some (writeRow rosterMinimal r0 vals))
     /\ (entry = LogUpdated (name contactAna) (email contactAna)
                   (Z.of_nat r0 + 1)
         \/ entry = LogAdded (name contactAna) (email contactAna)
                      (Z.of_nat r0 + 1))
     /\ (1 <= r0)%nat
     /\ length vals = length (headerRow rosterMinimal)
     /\ nth (colIx rosterMinimal "Name") vals blank = VStr (name contactAna)
     /\ nth (colIx rosterMinimal "Category") vals blank
        = VStr (category contactAna)
     /\ nth (colIx rosterMinimal "Email") vals blank
        = VStr (email contactAna)
     /\ cellAt (writeRow rosterMinimal r0 vals) r0 (colIx rosterMinimal "Name")
        = VStr (name contactAna)
     /\ cellAt (writeRow rosterMinimal r0 vals) r0
          (colIx rosterMinimal "Category")
        = VStr (category contactAna)
     /\ cellAt (writeRow rosterMinimal r0 vals) r0
          (colIx rosterMinimal "Email")
        = VStr (email contactAna)
     /\ (columnOf rosterMinimal "Role/Position" <> 0 ->
         cellAt (writeRow rosterMinimal r0 vals) r0
           (colIx rosterMinimal "Role/Position")
         = VStr (role contactAna))
     /\ (columnOf rosterMinimal "Status" <> 0 ->
         cellAt (writeRow rosterMinimal r0 vals) r0
           (colIx rosterMinimal "Status")
         = VStr (status contactAna))
     /\ (columnOf rosterMinimal "Phone" <> 0 ->
         cellAt (writeRow rosterMinimal r0 vals) r0
           (colIx rosterMinimal "Phone")
         = VStr (phone contactAna))
     /\ (forall c, isResolvedHeader (cellAt rosterMinimal 0 c) = false ->
           cellAt (writeRow rosterMinimal r0 vals) r0 c = blank)
     /\ (forall r c, r <> r0 ->
           cellAt (writeRow rosterMinimal r0 vals) r c
           = cellAt rosterMinimal r c))
  /\ (forall v,
        addOrUpdatePersonInPeopleSheet (Some rosterMinimal)
          (withRole v contactAna)
        = addOrUpdatePersonInPeopleSheet (Some rosterMinimal) contactAna)
  /\ (forall v,
        addOrUpdatePersonInPeopleSheet (Some rosterMinimal)
          (withStatus v contactAna)
        = addOrUpdatePersonInPeopleSheet (Some rosterMinimal) contactAna)
  /\ (forall v,
        addOrUpdatePersonInPeopleSheet (Some rosterMinimal)
          (withPhone v contactAna)
        = addOrUpdatePersonInPeopleSheet (Some rosterMinimal) contactAna).
Proof.
  destruct (optional_columns_may_be_absent rosterMinimal contactAna)
    as (Hrow & Hrole & Hstatus & Hphone).
  - unfold requiredColumns. vm_compute. repeat split; discriminate.
  - split; [exact Hrow |].
    split; [apply Hrole; reflexivity |].
    split; [apply Hstatus; reflexivity | apply Hphone; reflexivity].
Defined.

(** A roster without the optional columns, run on the code. *)
Example minimal_scenario :
  addOrUpdatePersonInPeopleSheet (Some rosterMinimal) contactAna
  = returned [LogAdded "Ana Lee" "ana@x.com" 2]
      (Some [[VStr "Name"; VStr "Category"; VStr "Email"];
             [VStr "Ana Lee"; VStr "Volunteer"; VStr "ana@x.com"]]).
Proof. reflexivity. Qed.

(** * Beyond the claims *)

(** ** More on the reconciler *)

Section WrittenFields.

(** The cell the written row holds under a header that is present. *)
Lemma written_field (sh : Sheet) (data : Contact) (t : value) (R : nat)
  (s : string) :
  (1 <= R)%nat -> s <> "" -> columnOf sh s <> 0 ->
  let sh1 :=
    writeRow sh R
      (map (rowCell (columnsOf (headerRow sh)) data t)
         (seq 0 (lastColumnN sh))) in
  columnOf sh1 s = columnOf sh s
  /\ cellAt sh1 R (colIx sh1 s)
     = rowCell (columnsOf (headerRow sh)) data t (colIx sh s)
  /\ Z.of_nat (colIx sh s) + 1 = columnOf sh s.
Proof.
  intros HR Hs Hcol sh1.
  destruct (colIx_within sh s Hs Hcol) as (Hlt & Hix).
  split; [unfold sh1; now apply written_columnOf |].
  split; [| exact Hix].
  unfold sh1 at 2. rewrite written_colIx by assumption.
  unfold sh1. rewrite cellAt_written, Nat.eqb_refl. cbn [andb].
  destruct (Nat.ltb_spec (colIx sh s) (lastColumnN sh)); [reflexivity | lia].
Qed.

(** The six populated cells of the written row. *)
Lemma written_contact (sh : Sheet) (data : Contact) (t : value) (R : nat) :
  requiredColumns sh -> (1 <= R)%nat ->
  let sh1 :=
    writeRow sh R
      (map (rowCell (columnsOf (headerRow sh)) data t)
         (seq 0 (lastColumnN sh))) in
  requiredColumns sh1
  /\ cellAt sh1 R (colIx sh1 "Name") = VStr (name data)
  /\ cellAt sh1 R (colIx sh1 "Category") = VStr (category data)
  /\ cellAt sh1 R (colIx sh1 "Email") = VStr (email data)
  /\ (columnOf sh1 "Role/Position" <> 0 ->
      cellAt sh1 R (colIx sh1 "Role/Position") = VStr (role data))
  /\ (columnOf sh1 "Status" <> 0 ->
      cellAt sh1 R (colIx sh1 "Status") = VStr (status data))
  /\ (columnOf sh1 "Phone" <> 0 ->
      cellAt sh1 R (colIx sh1 "Phone") = VStr (phone data)).
Proof.
  intros Hreq HR sh1.
  assert (Hreq1 : requiredColumns sh1)
    by (unfold sh1; now apply written_requiredColumns).
  split; [exact Hreq1 |].
  destruct Hreq as (Hn & Hc & He).
  assert (Hsame : forall s, s <> "" -> columnOf sh1 s = columnOf sh s)
    by (intros s Hs; unfold sh1; now apply written_columnOf).
  repeat split.
  - destruct (written_field sh data t R "Name" HR ltac:(discriminate) Hn)
      as (_ & Hcell & Hix). fold sh1 in Hcell. rewrite Hcell.
    now apply rowCell_name.
  - destruct (written_field sh data t R "Category" HR ltac:(discriminate) Hc)
      as (_ & Hcell & Hix). fold sh1 in Hcell. rewrite Hcell.
    now apply rowCell_category.
  - destruct (written_field sh data t R "Email" HR ltac:(discriminate) He)
      as (_ & Hcell & Hix). fold sh1 in Hcell. rewrite Hcell.
    now apply rowCell_email.
  - intros H. rewrite Hsame in H by discriminate.
    destruct (written_field sh data t R "Role/Position" HR
                ltac:(discriminate) H) as (_ & Hcell & Hix).
    fold sh1 in Hcell. rewrite Hcell. now apply rowCell_role.
  - intros H. rewrite Hsame in H by discriminate.
    destruct (written_field sh data t R "Status" HR ltac:(discriminate) H)
      as (_ & Hcell & Hix). fold sh1 in Hcell. rewrite Hcell.
    now apply rowCell_status.
  - intros H. rewrite Hsame in H by discriminate.
    destruct (written_field sh data t R "Phone" HR ltac:(discriminate) H)
      as (_ & Hcell & Hix). fold sh1 in Hcell. rewrite Hcell.
    now apply rowCell_phone.
Qed.

(** Where a call that passes the guard with a non-empty address leaves
    the contact: in the row it wrote, which is then the first record
    carrying the address. *)
Lemma call_lands_contact (sh : Sheet) (data : Contact) :
  requiredColumns sh ->
  email data <> "" ->
  exists (R : nat) (entry : LogEntry),
    (1 <= R)%nat
    /\ addOrUpdatePersonInPeopleSheet (Some sh) data
       = returned [entry]
           (Some (writeRow sh R
                    (map (rowCell (columnsOf (headerRow sh)) data
                            (cellAt sh R (colIx sh "Assigned Tasks")))
                       (seq 0 (lastColumnN sh)))))
    /\ firstRecordWith
         (writeRow sh R
            (map (rowCell (columnsOf (headerRow sh)) data
                    (cellAt sh R (colIx sh "Assigned Tasks")))
               (seq 0 (lastColumnN sh))))
         (email data) R.
Proof.
  intros Hreq Hmail.
  destruct (first_or_none sh (email data) Hreq) as [(r0 & Hf) | Hn].
  - rewrite (outcome_update sh data r0 Hreq Hf).
    pose proof Hf as (((HR & _) & _) & Hbefore).
    exists r0. eexists. split; [exact HR |]. split; [reflexivity |].
    apply (rerun_same sh data r0 Hreq HR Hmail Hbefore).
  - rewrite (outcome_append sh data Hreq Hn).
    pose proof (requiredColumns_header_row sh Hreq) as HR.
    replace (rowCell (columnsOf (headerRow sh)) data blank)
      with (rowCell (columnsOf (headerRow sh)) data
              (cellAt sh (lastRowN sh) (colIx sh "Assigned Tasks")))
      by (now rewrite lastRowN_beyond).
    exists (lastRowN sh). eexists. split; [exact HR |].
    split; [reflexivity |].
    apply (rerun_same sh data (lastRowN sh) Hreq HR Hmail).
    intros r Hr. apply Hn. exact Hr.
Qed.

(** A call on an existing sheet raises exactly when the sheet has no
    content, and then hands the sheet back untouched. *)
Lemma raised_on_empty_sheet (sh : Sheet) (data : Contact) :
  (completion (addOrUpdatePersonInPeopleSheet (Some sh) data) = Raised
   <-> lastColumnN sh = 0%nat)
  /\ (lastColumnN sh = 0%nat ->
      addOrUpdatePersonInPeopleSheet (Some sh) data
      = mkResult Raised [] (Some sh)).
Proof.
  split; [| apply outcome_empty].
  destruct (outcome_cases sh data)
    as [(Hz & ->) | [(Hnz & _ & ->) | [(Hreq & r0 & _ & ->)
                                      | (Hreq & _ & ->)]]];
    cbn [completion returned].
  - now split.
  - split; [discriminate | intros; contradiction].
  - pose proof (requiredColumns_content sh Hreq).
    split; [discriminate | intros; contradiction].
  - pose proof (requiredColumns_content sh Hreq).
    split; [discriminate | intros; contradiction].
Qed.

End WrittenFields.

(** X1.  A call raises exactly when the People sheet exists and holds
    no content; it then has written nothing and logged nothing.  On a
    missing sheet and on any sheet with content the call returns. *)
Theorem raises_only_on_sheet_without_content (ss : option Sheet)
  (data : Contact) :
  (completion (addOrUpdatePersonInPeopleSheet ss data) = Raised
   <-> exists sh, ss = Some sh /\ getLastColumn sh = 0)
  /\ (completion (addOrUpdatePersonInPeopleSheet ss data) = Raised ->
      people (addOrUpdatePersonInPeopleSheet ss data) = ss
      /\ logged (addOrUpdatePersonInPeopleSheet ss data) = []).
Proof.
  destruct ss as [sh |].
  2:{ cbn. split; [split; [discriminate | intros (sh & H & _); discriminate]
                  | discriminate]. }
  destruct (raised_on_empty_sheet sh data) as (Hiff & Hempty).
  unfold getLastColumn. split.
  - rewrite Hiff. split.
    + intros Hz. exists sh. split; [reflexivity | lia].
    + intros (sh0 & Hsh & Hz). injection Hsh as Hsh. subst sh0. lia.
  - intros Hraised. apply Hiff in Hraised.
    rewrite (Hempty Hraised). now split.
Qed.

(** X2.  When the call finds a record with the incoming address, the
    Name, Category and Email cells of that record hold the contact's
    values afterwards, and so do its Role/Position, Status and Phone
    cells where the header row has these columns. *)
Theorem update_overwrites_populated_fields (sh : Sheet) (data : Contact)
  (r0 : nat) :
  requiredColumns sh ->
  firstRecordWith sh (email data) r0 ->
  exists sh',
    addOrUpdatePersonInPeopleSheet (Some sh) data
    = returned [LogUpdated (name data) (email data) (Z.of_nat r0 + 1)]
        (Some sh')
    /\ cellAt sh' r0 (colIx sh' "Name") = VStr (name data)
    /\ cellAt sh' r0 (colIx sh' "Category") = VStr (category data)
    /\ cellAt sh' r0 (colIx sh' "Email") = VStr (email data)
    /\ (columnOf sh' "Role/Position" <> 0 ->
        cellAt sh' r0 (colIx sh' "Role/Position") = VStr (role data))
    /\ (columnOf sh' "Status" <> 0 ->
        cellAt sh' r0 (colIx sh' "Status") = VStr (status data))
    /\ (columnOf sh' "Phone" <> 0 ->
        cellAt sh' r0 (colIx sh' "Phone") = VStr (phone data)).
Proof.
  intros Hreq Hfirst. rewrite (outcome_update sh data r0 Hreq Hfirst).
  eexists. split; [reflexivity |].
  pose proof Hfirst as (((HR & _) & _) & _).
  apply (written_contact sh data _ r0 Hreq HR).
Qed.

Lemma update_overwrites_populated_fields_witness :
  exists sh',
    addOrUpdatePersonInPeopleSheet (Some rosterTasks) contactBen
    = returned [LogUpdated (name contactBen) (email contactBen)
                  (Z.of_nat 1 + 1)] (Some sh')
    /\ cellAt sh' 1 (colIx sh' "Name") = VStr (name contactBen)
    /\ cellAt sh' 1 (colIx sh' "Category") = VStr (category contactBen)
    /\ cellAt sh' 1 (colIx sh' "Email") = VStr (email contactBen)
    /\ (columnOf sh' "Role/Position" <> 0 ->
        cellAt sh' 1 (colIx sh' "Role/Position") = VStr (role contactBen))
    /\ (columnOf sh' "Status" <> 0 ->
        cellAt sh' 1 (colIx sh' "Status") = VStr (status contactBen))
    /\ (columnOf sh' "Phone" <> 0 ->
        cellAt sh' 1 (colIx sh' "Phone") = VStr (phone contactBen)).
Proof.
  apply (update_overwrites_populated_fields rosterTasks contactBen 1).
  - unfold requiredColumns. vm_compute. repeat split; discriminate.
  - split; [split; [unfold isRecord; vm_compute; lia | reflexivity] |].
    intros r Hr. lia.
Defined.

(** X3.  A contact with a non-empty address can be looked up after the
    call: once the guard has passed, the roster has a first record
    carrying the address, and that record holds the contact's name,
    category and address, and its role, status and phone where the
    header row has these columns. *)
Theorem contact_found_after_call (sh : Sheet) (data : Contact) :
  requiredColumns sh ->
  email data <> "" ->
  exists sh' r0 entry,
    addOrUpdatePersonInPeopleSheet (Some sh) data
    = returned [entry] (Some sh')
    /\ firstRecordWith sh' (email data) r0
    /\ requiredColumns sh'
    /\ cellAt sh' r0 (colIx sh' "Name") = VStr (name data)
    /\ cellAt sh' r0 (colIx sh' "Category") = VStr (category data)
    /\ cellAt sh' r0 (colIx sh' "Email") = VStr (email data)
    /\ (columnOf sh' "Role/Position" <> 0 ->
        cellAt sh' r0 (colIx sh' "Role/Position") = VStr (role data))
    /\ (columnOf sh' "Status" <> 0 ->
        cellAt sh' r0 (colIx sh' "Status") = VStr (status data))
    /\ (columnOf sh' "Phone" <> 0 ->
        cellAt sh' r0 (colIx sh' "Phone") = VStr (phone data)).
Proof.
  intros Hreq Hmail.
  destruct (call_lands_contact sh data Hreq Hmail)
    as (R & entry & HR & Hres & Hfirst).
  rewrite Hres. eexists. exists R, entry.
  split; [reflexivity |]. split; [exact Hfirst |].
  apply (written_contact sh data _ R Hreq HR).
Qed.

Lemma contact_found_after_call_witness :
  exists sh' r0 entry,
    addOrUpdatePersonInPeopleSheet (Some rosterMinimal) contactAna
    = returned [entry] (Some sh')
    /\ firstRecordWith sh' (email contactAna) r0
    /\ requiredColumns sh'
    /\ cellAt sh' r0 (colIx sh' "Name") = VStr (name contactAna)
    /\ cellAt sh' r0 (colIx sh' "Category") = VStr (category contactAna)
    /\ cellAt sh' r0 (colIx sh' "Email") = VStr (email contactAna)
    /\ (columnOf sh' "Role/Position" <> 0 ->
        cellAt sh' r0 (colIx sh' "Role/Position") = VStr (role contactAna))
    /\ (columnOf sh' "Status" <> 0 ->
        cellAt sh' r0 (colIx sh' "Status") = VStr (status contactAna))
    /\ (columnOf sh' "Phone" <> 0 ->
        cellAt sh' r0 (colIx sh' "Phone") = VStr (phone contactAna)).
Proof.
  apply (contact_found_after_call rosterMinimal contactAna).
  - unfold requiredColumns. vm_compute. repeat split; discriminate.
  - vm_compute. discriminate.
Defined.

(** X4.  What the handlers collect in [data.notes] never reaches the
    sheet or the log: the outcome of a call does not depend on it. *)
Theorem notes_are_never_written (ss : option Sheet) (data : Contact)
  (v : string) :
  addOrUpdatePersonInPeopleSheet ss (withNotes v data)
  = addOrUpdatePersonInPeopleSheet ss data.
Proof.
  destruct ss as [sh |]; [| reflexivity].
  apply closedForm_ext; reflexivity.
Qed.

(** X5.  A call never changes the header row, never puts content to the
    right of the last column, and adds at most one row. *)
Theorem call_keeps_header_and_extent (sh : Sheet) (data : Contact)
  (sh' : Sheet) :
  people (addOrUpdatePersonInPeopleSheet (Some sh) data) = Some sh' ->
  (forall c, cellAt sh' 0 c = cellAt sh 0 c)
  /\ getLastColumn sh' <= getLastColumn sh
  /\ getLastRow sh' <= getLastRow sh + 1
  /\ (forall s, s <> "" -> columnOf sh' s = columnOf sh s).
Proof.
  assert (Hwrite : forall R t,
            (1 <= R <= lastRowN sh)%nat ->
            let sh1 :=
              writeRow sh R
                (map (rowCell (columnsOf (headerRow sh)) data t)
                   (seq 0 (lastColumnN sh))) in
            (forall c, cellAt sh1 0 c = cellAt sh 0 c)
            /\ getLastColumn sh1 <= getLastColumn sh
            /\ getLastRow sh1 <= getLastRow sh + 1
            /\ (forall s, s <> "" -> columnOf sh1 s = columnOf sh s)).
  { intros R t HR sh1. unfold getLastColumn, getLastRow, sh1.
    split; [intros c; apply written_header; lia |].
    split.
    { apply inj_le, written_lastColumnN; [lia |].
      rewrite length_map, length_seq. lia. }
    split.
    { pose proof (written_lastRowN sh R
                    (map (rowCell (columnsOf (headerRow sh)) data t)
                       (seq 0 (lastColumnN sh)))). lia. }
    intros s Hs. apply written_columnOf; [lia | exact Hs]. }
  destruct (outcome_cases sh data)
    as [(_ & ->) | [(_ & _ & ->) | [(Hreq & r0 & Hf & ->)
                                   | (Hreq & Hn & ->)]]];
    cbn [people returned]; intros Hsh'; injection Hsh' as <-.
  - repeat split; try reflexivity; lia.
  - repeat split; try reflexivity; lia.
  - destruct Hf as (((H1 & H2) & _) & _). apply Hwrite. lia.
  - pose proof (requiredColumns_header_row sh Hreq). apply Hwrite. lia.
Qed.

Lemma call_keeps_header_and_extent_witness :
  (forall c,
     cellAt
       [[VStr "Name"; VStr "Category"; VStr "Email"];
        [VStr "Ana Lee"; VStr "Volunteer"; VStr "ana@x.com"]] 0 c
     = cellAt rosterMinimal 0 c)
  /\ getLastColumn
       [[VStr "Name"; VStr "Category"; VStr "Email"];
        [VStr "Ana Lee"; VStr "Volunteer"; VStr "ana@x.com"]]
     <= getLastColumn rosterMinimal
  /\ getLastRow
       [[VStr "Name"; VStr "Category"; VStr "Email"];
        [VStr "Ana Lee"; VStr "Volunteer"; VStr "ana@x.com"]]
     <= getLastRow rosterMinimal + 1
  /\ (forall s, s <> "" ->
        columnOf
          [[VStr "Name"; VStr "Category"; VStr "Email"];
           [VStr "Ana Lee"; VStr "Volunteer"; VStr "ana@x.com"]] s
        = columnOf rosterMinimal s).
Proof.
  apply (call_keeps_header_and_extent rosterMinimal contactAna).
  reflexivity.
Defined.

(** ** The handlers *)

Section HandlerData.

Lemma fold_left_invariant {A B : Type} (P : A -> Prop) (step : A -> B -> A)
  (l : list B) (init : A) :
  (forall a b, P a -> P (step a b)) -> P init -> P (fold_left step l init).
Proof.
  intros Hstep. revert init. induction l as [| b t IH]; intros init Hinit.
  - exact Hinit.
  - cbn [fold_left]. apply IH. now apply Hstep.
Qed.

Ltac step_cases :=
  cbv zeta;
  repeat match goal with
         | |- context [if ?b then _ else _] => destruct b
         | |- context [match ?a with AText _ => _ | AList _ => _ end] =>
             destruct a
         | |- context [match ?l with [] => _ | _ :: _ => _ end] =>
             destruct l
         end.

(** No step touches the address, the category or the status. *)
Lemma registrationStep_fixed (d : FormData) (it : ItemResponse) :
  dataEmail (registrationStep d it) = dataEmail d
  /\ dataCategory (registrationStep d it) = dataCategory d
  /\ dataStatus (registrationStep d it) = dataStatus d
  /\ dataRole (registrationStep d it) = dataRole d.
Proof. unfold registrationStep. step_cases; repeat split. Qed.

Lemma volunteerStep_fixed (d : FormData) (it : ItemResponse) :
  dataEmail (volunteerStep d it) = dataEmail d
  /\ dataCategory (volunteerStep d it) = dataCategory d
  /\ dataStatus (volunteerStep d it) = dataStatus d.
Proof. unfold volunteerStep. step_cases; repeat split. Qed.

Lemma speakerStep_fixed (d : FormData) (it : ItemResponse) :
  dataEmail (speakerStep d it) = dataEmail d
  /\ dataCategory (speakerStep d it) = dataCategory d
  /\ dataStatus (speakerStep d it) = dataStatus d.
Proof. unfold speakerStep. step_cases; repeat split. Qed.

Lemma registrationData_fixed (e : FormResponse) :
  dataEmail (registrationData e) = respondentEmail e
  /\ dataCategory (registrationData e) = "Participant"
  /\ dataStatus (registrationData e) = "Registered"
  /\ dataRole (registrationData e) = AText "".
Proof.
  unfold registrationData.
  apply (fold_left_invariant
           (fun d => dataEmail d = respondentEmail e
                     /\ dataCategory d = "Participant"
                     /\ dataStatus d = "Registered"
                     /\ dataRole d = AText "")).
  - intros d it (H1 & H2 & H3 & H4).
    destruct (registrationStep_fixed d it) as (-> & -> & -> & ->).
    now repeat split.
  - now repeat split.
Qed.

Lemma volunteerData_fixed (e : FormResponse) :
  dataEmail (volunteerData e) = respondentEmail e
  /\ dataCategory (volunteerData e) = "Volunteer"
  /\ dataStatus (volunteerData e) = "Potential".
Proof.
  unfold volunteerData.
  apply (fold_left_invariant
           (fun d => dataEmail d = respondentEmail e
                     /\ dataCategory d = "Volunteer"
                     /\ dataStatus d = "Potential")).
  - intros d it (H1 & H2 & H3).
    destruct (volunteerStep_fixed d it) as (-> & -> & ->).
    now repeat split.
  - now repeat split.
Qed.

Lemma speakerData_fixed (e : FormResponse) :
  dataEmail (speakerData e) = respondentEmail e
  /\ dataCategory (speakerData e) = "Speaker"
  /\ dataStatus (speakerData e) = "Potential".
Proof.
  unfold speakerData.
  apply (fold_left_invariant
           (fun d => dataEmail d = respondentEmail e
                     /\ dataCategory d = "Speaker"
                     /\ dataStatus d = "Potential")).
  - intros d it (H1 & H2 & H3).
    destruct (speakerStep_fixed d it) as (-> & -> & ->).
    now repeat split.
  - now repeat split.
Qed.

Lemma contactOf_fields (d : FormData) (c : Contact) :
  contactOf d = Some c ->
  email c = dataEmail d /\ category c = dataCategory d
  /\ status c = dataStatus d /\ dataRole d = AText (role c).
Proof.
  unfold contactOf.
  destruct (dataName d), (dataPhone d), (dataRole d); cbn;
    intros H; try discriminate.
  injection H as <-. now repeat split.
Qed.

(** The handler's view of a call that passes the guard. *)
Lemma submitContact_found (kind : FormKind) (sh : Sheet) (c : Contact) :
  requiredColumns sh -> email c <> "" ->
  recordStamped (handlerPeople (submitContact kind (Some sh) c))
    (email c) (category c) (status c)
  /\ exists sh' r0,
       handlerPeople (submitContact kind (Some sh) c) = Some sh'
       /\ firstRecordWith sh' (email c) r0
       /\ (columnOf sh' "Role/Position" <> 0 ->
           cellAt sh' r0 (colIx sh' "Role/Position") = VStr (role c)).
Proof.
  intros Hreq Hmail.
  destruct (call_lands_contact sh c Hreq Hmail)
    as (R & entry & HR & Hres & Hf).
  destruct (written_contact sh c
              (cellAt sh R (colIx sh "Assigned Tasks")) R Hreq HR)
    as (_ & _ & Hcat & _ & Hrole & Hstat & _).
  unfold submitContact. rewrite Hres. cbn.
  split.
  - eexists. exists R. split; [reflexivity |]. split; [exact Hf |].
    split; [exact Hcat | exact Hstat].
  - eexists. exists R. split; [reflexivity |]. split; [exact Hf | exact Hrole].
Qed.

(** The steps treat two states alike that differ in their notes. *)
Lemma registrationStep_sameButNotes (d1 d2 : FormData) (it : ItemResponse) :
  sameButNotes d1 d2 ->
  sameButNotes (registrationStep d1 it) (registrationStep d2 it).
Proof.
  intros (H1 & H2 & H3 & H4 & H5 & H6).
  unfold registrationStep, sameButNotes. step_cases; cbn;
    repeat split; assumption || reflexivity.
Qed.

Lemma volunteerStep_sameButNotes (d1 d2 : FormData) (it : ItemResponse) :
  sameButNotes d1 d2 ->
  sameButNotes (volunteerStep d1 it) (volunteerStep d2 it).
Proof.
  intros (H1 & H2 & H3 & H4 & H5 & H6).
  unfold volunteerStep, sameButNotes. step_cases; cbn;
    repeat split; assumption || reflexivity.
Qed.

Lemma speakerStep_sameButNotes (d1 d2 : FormData) (it : ItemResponse) :
  sameButNotes d1 d2 ->
  sameButNotes (speakerStep d1 it) (speakerStep d2 it).
Proof.
  intros (H1 & H2 & H3 & H4 & H5 & H6).
  unfold speakerStep, sameButNotes. step_cases; cbn;
    repeat split; assumption || reflexivity.
Qed.

Lemma fold_left_sameButNotes (step : FormData -> ItemResponse -> FormData)
  (l : list ItemResponse) (d1 d2 : FormData) :
  (forall a b it, sameButNotes a b -> sameButNotes (step a it) (step b it)) ->
  sameButNotes d1 d2 ->
  sameButNotes (fold_left step l d1) (fold_left step l d2).
Proof.
  intros Hstep. revert d1 d2. induction l as [| it t IH]; intros d1 d2 H.
  - exact H.
  - cbn [fold_left]. apply IH. now apply Hstep.
Qed.

(** An item under another title than the ones a handler keeps an answer
    of can only add to the notes. *)
Lemma registrationStep_other (d : FormData) (it : ItemResponse) :
  title it <> "Full Name" -> title it <> "Phone Number" ->
  sameButNotes (registrationStep d it) d.
Proof.
  intros Hn Hp. unfold registrationStep, sameButNotes. cbv zeta.
  destruct (String.eqb_spec (title it) "Full Name"); [contradiction |].
  destruct (String.eqb_spec (title it) "Phone Number"); [contradiction |].
  step_cases; cbn; repeat split.
Qed.

Lemma volunteerStep_other (d : FormData) (it : ItemResponse) :
  title it <> "Full Name" -> title it <> "Phone Number" ->
  title it <> "Preferred Role/Area" ->
  sameButNotes (volunteerStep d it) d.
Proof.
  intros Hn Hp Hr. unfold volunteerStep, sameButNotes. cbv zeta.
  destruct (String.eqb_spec (title it) "Full Name"); [contradiction |].
  destruct (String.eqb_spec (title it) "Phone Number"); [contradiction |].
  destruct (String.eqb_spec (title it) "Preferred Role/Area");
    [contradiction |].
  step_cases; cbn; repeat split.
Qed.

Lemma speakerStep_other (d : FormData) (it : ItemResponse) :
  title it <> "Full Name" -> title it <> "Phone Number" ->
  title it <> "Session Title" ->
  sameButNotes (speakerStep d it) d.
Proof.
  intros Hn Hp Hr. unfold speakerStep, sameButNotes. cbv zeta.
  destruct (String.eqb_spec (title it) "Full Name"); [contradiction |].
  destruct (String.eqb_spec (title it) "Phone Number"); [contradiction |].
  destruct (String.eqb_spec (title it) "Session Title"); [contradiction |].
  step_cases; cbn; repeat split.
Qed.

(** Dropping an item that can only add to the notes. *)
Lemma fold_left_drop (step : FormData -> ItemResponse -> FormData)
  (l1 l2 : list ItemResponse) (it : ItemResponse) (init : FormData) :
  (forall a b x, sameButNotes a b -> sameButNotes (step a x) (step b x)) ->
  (forall d, sameButNotes (step d it) d) ->
  sameButNotes (fold_left step (l1 ++ it :: l2) init)
    (fold_left step (l1 ++ l2) init).
Proof.
  intros Hstep Hit. rewrite !fold_left_app. cbn [fold_left].
  apply fold_left_sameButNotes; [exact Hstep | apply Hit].
Qed.

Lemma submitContact_notes (kind : FormKind) (ss : option Sheet)
  (c : Contact) (v : string) :
  submitContact kind ss (withNotes v c) = submitContact kind ss c.
Proof.
  unfold submitContact.
  assert (H : addOrUpdatePersonInPeopleSheet ss (withNotes v c)
              = addOrUpdatePersonInPeopleSheet ss c).
  { destruct ss as [sh |]; [| reflexivity].
    apply closedForm_ext; reflexivity. }
  now rewrite H.
Qed.

(** The handler's outcome is the same for two states of [data] that
    differ in their notes. *)
Lemma submit_sameButNotes (kind : FormKind) (ss : option Sheet)
  (d1 d2 : FormData) :
  sameButNotes d1 d2 ->
  option_map (submitContact kind ss) (contactOf d1)
  = option_map (submitContact kind ss) (contactOf d2).
Proof.
  intros (H1 & H2 & H3 & H4 & H5 & H6). unfold contactOf.
  rewrite H1, H2, H3, H4, H5, H6.
  destruct (textOf (dataName d2)) as [n |]; [| reflexivity].
  destruct (textOf (dataPhone d2)) as [p |]; [| reflexivity].
  destruct (textOf (dataRole d2)) as [r |]; [| reflexivity].
  cbn [option_map]. apply f_equal.
  apply (submitContact_notes kind ss
           (mkContact n (dataEmail d2) p (dataCategory d2) (dataStatus d2) r
              (dataNotes d2)) (dataNotes d1)).
Qed.

(** A step that meets no item of a given title keeps the role. *)
Lemma volunteerStep_role (d : FormData) (it : ItemResponse) :
  title it <> "Preferred Role/Area" ->
  dataRole (volunteerStep d it) = dataRole d.
Proof.
  intros Hr. unfold volunteerStep. cbv zeta.
  destruct (String.eqb_spec (title it) "Preferred Role/Area");
    [contradiction |].
  step_cases; reflexivity.
Qed.

End HandlerData.

(** X6.  Each handler stamps its own category and status on the record
    of the respondent, whatever that record held: Participant and
    Registered for a registration, Volunteer and Potential for a
    volunteer sign-up, Speaker and Potential for a speaker form.  A
    registration also leaves the record with an empty Role/Position. *)
Theorem handlers_stamp_category_and_status (sh : Sheet) (e : FormResponse) :
  requiredColumns sh ->
  respondentEmail e <> "" ->
  (forall res, processRegistrationForm (Some sh) e = Some res ->
     recordStamped (handlerPeople res) (respondentEmail e)
       "Participant" "Registered"
     /\ recordWithoutRole (handlerPeople res) (respondentEmail e))
  /\ (forall res, processVolunteerForm (Some sh) e = Some res ->
        recordStamped (handlerPeople res) (respondentEmail e)
          "Volunteer" "Potential")
  /\ (forall res, processSpeakerForm (Some sh) e = Some res ->
        recordStamped (handlerPeople res) (respondentEmail e)
          "Speaker" "Potential").
Proof.
  intros Hreq Hmail.
  split; [| split]; intros res Hres.
  - unfold processRegistrationForm in Hres.
    destruct (contactOf (registrationData e)) as [c |] eqn:Hc;
      [| discriminate].
    injection Hres as <-.
    destruct (contactOf_fields _ _ Hc) as (He & Hcat & Hst & Hro).
    destruct (registrationData_fixed e) as (He' & Hcat' & Hst' & Hro').
    assert (Hrole : role c = "") by congruence.
    assert (Hm : email c <> "") by congruence.
    destruct (submitContact_found Registration sh c Hreq Hm)
      as (Hstamp & sh' & r0 & Hp & Hf & Hr).
    split.
    + replace (respondentEmail e) with (email c) by congruence.
      replace "Participant" with (category c) by congruence.
      replace "Registered" with (status c) by congruence.
      exact Hstamp.
    + exists sh', r0. split; [exact Hp |].
      replace (respondentEmail e) with (email c) by congruence.
      split; [exact Hf |].
      intros Hcol. rewrite (Hr Hcol), Hrole. reflexivity.
  - unfold processVolunteerForm in Hres.
    destruct (contactOf (volunteerData e)) as [c |] eqn:Hc; [| discriminate].
    injection Hres as <-.
    destruct (contactOf_fields _ _ Hc) as (He & Hcat & Hst & _).
    destruct (volunteerData_fixed e) as (He' & Hcat' & Hst').
    assert (Hm : email c <> "") by congruence.
    destruct (submitContact_found Volunteer sh c Hreq Hm) as (Hstamp & _).
    replace (respondentEmail e) with (email c) by congruence.
    replace "Volunteer" with (category c) by congruence.
    replace "Potential" with (status c) by congruence.
    exact Hstamp.
  - unfold processSpeakerForm in Hres.
    destruct (contactOf (speakerData e)) as [c |] eqn:Hc; [| discriminate].
    injection Hres as <-.
    destruct (contactOf_fields _ _ Hc) as (He & Hcat & Hst & _).
    destruct (speakerData_fixed e) as (He' & Hcat' & Hst').
    assert (Hm : email c <> "") by congruence.
    destruct (submitContact_found Speaker sh c Hreq Hm) as (Hstamp & _).
    replace (respondentEmail e) with (email c) by congruence.
    replace "Speaker" with (category c) by congruence.
    replace "Potential" with (status c) by congruence.
    exact Hstamp.
Qed.

Lemma handlers_stamp_category_and_status_witness :
  (exists res,
     processRegistrationForm (Some rosterAna) submissionAna = Some res
     /\ recordStamped (handlerPeople res) "ana@x.com"
          "Participant" "Registered"
     /\ recordWithoutRole (handlerPeople res) "ana@x.com")
  /\ (exists res,
        processVolunteerForm (Some rosterAna) submissionAna = Some res
        /\ recordStamped (handlerPeople res) "ana@x.com"
             "Volunteer" "Potential")
  /\ (exists res,
        processSpeakerForm (Some rosterAna) submissionAna = Some res
        /\ recordStamped (handlerPeople res) "ana@x.com"
             "Speaker" "Potential").
Proof.
  destruct (handlers_stamp_category_and_status rosterAna submissionAna)
    as (Hreg & Hvol & Hspk).
  - unfold requiredColumns. vm_compute. repeat split; discriminate.
  - vm_compute. discriminate.
  - split; [| split].
    + eexists. split; [reflexivity |]. apply Hreg. reflexivity.
    + eexists. split; [reflexivity |]. apply Hvol. reflexivity.
    + eexists. split; [reflexivity |]. apply Hspk. reflexivity.
Defined.

(** X7.  A handler's effect on the roster and on the log depends on the
    respondent's address and on the answers it keeps (Full Name and
    Phone Number; Preferred Role/Area for volunteers, Session Title for
    speakers): an item under any other title can be dropped from the
    submission without changing the outcome. *)
Theorem other_answers_do_not_matter (ss : option Sheet) (mail : string)
  (items1 items2 : list ItemResponse) (it : ItemResponse) :
  title it <> "Full Name" ->
  title it <> "Phone Number" ->
  processRegistrationForm ss (mkFormResponse mail (items1 ++ it :: items2))
  = processRegistrationForm ss (mkFormResponse mail (items1 ++ items2))
  /\ (title it <> "Preferred Role/Area" ->
      processVolunteerForm ss (mkFormResponse mail (items1 ++ it :: items2))
      = processVolunteerForm ss (mkFormResponse mail (items1 ++ items2)))
  /\ (title it <> "Session Title" ->
      processSpeakerForm ss (mkFormResponse mail (items1 ++ it :: items2))
      = processSpeakerForm ss (mkFormResponse mail (items1 ++ items2))).
Proof.
  intros Hn Hp. split; [| split].
  - unfold processRegistrationForm, registrationData.
    cbn [itemResponses respondentEmail].
    apply submit_sameButNotes, fold_left_drop.
    + intros a b x. apply registrationStep_sameButNotes.
    + intros d. now apply registrationStep_other.
  - intros Hr. unfold processVolunteerForm, volunteerData.
    cbn [itemResponses respondentEmail].
    apply submit_sameButNotes, fold_left_drop.
    + intros a b x. apply volunteerStep_sameButNotes.
    + intros d. now apply volunteerStep_other.
  - intros Hr. unfold processSpeakerForm, speakerData.
    cbn [itemResponses respondentEmail].
    apply submit_sameButNotes, fold_left_drop.
    + intros a b x. apply speakerStep_sameButNotes.
    + intros d. now apply speakerStep_other.
Qed.

Lemma other_answers_do_not_matter_witness :
  processRegistrationForm (Some rosterAna)
    (mkFormResponse "ana@x.com"
       ([mkItemResponse "Full Name" (AText "Ana Lee")]
          ++ mkItemResponse "Accessibility Needs" (AText "Ramp")
          :: [mkItemResponse "Phone Number" (AText "555-0123")]))
  = processRegistrationForm (Some rosterAna)
      (mkFormResponse "ana@x.com"
         ([mkItemResponse "Full Name" (AText "Ana Lee")]
            ++ [mkItemResponse "Phone Number" (AText "555-0123")])).
Proof.
  apply (other_answers_do_not_matter (Some rosterAna) "ana@x.com"
           [mkItemResponse "Full Name" (AText "Ana Lee")]
           [mkItemResponse "Phone Number" (AText "555-0123")]
           (mkItemResponse "Accessibility Needs" (AText "Ramp"))).
  - cbn. discriminate.
  - cbn. discriminate.
Defined.


(** X9.  A volunteer's role is the first choice ticked under Preferred
    Role/Area in the last answer to that question; an answer with no
    choice ticked leaves the role as it was. *)
Theorem volunteer_role_is_first_choice (mail : string)
  (items1 items2 : list ItemResponse) (first : string) (rest : list string) :
  (forall it, In it items2 -> title it <> "Preferred Role/Area") ->
  dataRole
    (volunteerData
       (mkFormResponse mail
          (items1
             ++ mkItemResponse "Preferred Role/Area" (AList (first :: rest))
             :: items2)))
  = AText first
  /\ volunteerData
       (mkFormResponse mail
          (items1 ++ mkItemResponse "Preferred Role/Area" (AList []) :: items2))
     = volunteerData (mkFormResponse mail (items1 ++ items2)).
Proof.
  intros Hlater. unfold volunteerData. cbn [itemResponses respondentEmail].
  rewrite !fold_left_app. cbn [fold_left]. split.
  - set (d := volunteerStep _ _).
    assert (Hd : dataRole d = AText first) by reflexivity.
    clearbody d. revert d Hd.
    induction items2 as [| it t IH]; intros d Hd; [exact Hd |].
    cbn [fold_left]. apply IH.
    + intros x Hx. apply Hlater. now right.
    + rewrite volunteerStep_role; [exact Hd |]. apply Hlater. now left.
  - reflexivity.
Qed.

Lemma volunteer_role_is_first_choice_witness :
  dataRole
    (volunteerData
       (mkFormResponse "ana@x.com"
          ([mkItemResponse "Full Name" (AText "Ana Lee")]
             ++ mkItemResponse "Preferred Role/Area"
                  (AList ("Logistics" :: ["Registration"]))
             :: [mkItemResponse "T-Shirt Size" (AText "M")])))
  = AText "Logistics".
Proof.
  apply (volunteer_role_is_first_choice "ana@x.com"
           [mkItemResponse "Full Name" (AText "Ana Lee")]
           [mkItemResponse "T-Shirt Size" (AText "M")]
           "Logistics" ["Registration"]).
  intros it [<- | []]. cbn. discriminate.
Defined.

(** ** Labelled rows *)

Section FindRow.

Lemma findRow_inv (maxRows : nat) (sh : Sheet) (label : string) :
  (_findRow maxRows sh label = None
   /\ forall r, (r < maxRows)%nat -> cellAt sh r 0 <> VStr label)
  \/ (exists r0 : nat,
        _findRow maxRows sh label = Some (Z.of_nat r0 + 1)
        /\ (r0 < maxRows)%nat
        /\ cellAt sh r0 0 = VStr label
        /\ forall r, (r < r0)%nat -> cellAt sh r 0 <> VStr label).
Proof.
  unfold _findRow. cbv zeta.
  set (p := fun row : list value =>
              match arrayGet (map Some row) 0 with
              | Some v => strictEq v (VStr label)
              | None => false
              end).
  assert (Hp : forall r, p (rowValues sh r 0 1)
                         = strictEq (cellAt sh r 0) (VStr label))
    by reflexivity.
  destruct (findIndexFrom_seq_inv p (fun r => rowValues sh r 0 1) 0 maxRows)
    as [[Hnone Hall] | (r0 & Hres & Hr0 & Hpr & Hbefore)].
  - left. change (Z.of_nat 0) with 0 in Hnone. rewrite Hnone.
    split; [reflexivity |].
    intros r Hr. apply strictEq_false. rewrite <- Hp. apply Hall. lia.
  - right. exists r0. change (Z.of_nat 0) with 0 in Hres. rewrite Hres.
    destruct (Z.eqb_spec (Z.of_nat r0) (-1)); [lia |].
    split; [reflexivity |]. split; [lia |].
    split; [apply strictEq_true; now rewrite <- Hp |].
    intros r Hr. apply strictEq_false. rewrite <- Hp. apply Hbefore. lia.
Qed.

End FindRow.

(** X10.  [_findRow] returns the number of the first row, among the
    rows of the grid, whose column A holds exactly the label, and
    [null] when no row of the grid does. *)
Theorem findRow_is_first_labelled_row (maxRows : nat) (sh : Sheet)
  (label : string) :
  (forall row,
     _findRow maxRows sh label = Some row <->
     exists r0 : nat,
       row = Z.of_nat r0 + 1 /\ (r0 < maxRows)%nat
       /\ cellAt sh r0 0 = VStr label
       /\ forall r, (r < r0)%nat -> cellAt sh r 0 <> VStr label)
  /\ (_findRow maxRows sh label = None <->
      forall r, (r < maxRows)%nat -> cellAt sh r 0 <> VStr label).
Proof.
  destruct (findRow_inv maxRows sh label)
    as [[Hnone Hall] | (r0 & Hres & Hr0 & Hc & Hbefore)].
  - split.
    + intros row. rewrite Hnone. split; [discriminate |].
      intros (r1 & _ & Hr1 & Hc1 & _). now elim (Hall r1).
    + split; [intros _; exact Hall | intros _; exact Hnone].
  - split.
    + intros row. rewrite Hres. split.
      * intros H. injection H as <-. exists r0. now repeat split.
      * intros (r1 & -> & Hr1 & Hc1 & Hb1).
        assert (r0 = r1) as ->; [| reflexivity].
        destruct (Nat.lt_trichotomy r0 r1) as [Hlt | [Heq | Hgt]].
        -- now elim (Hb1 r0).
        -- exact Heq.
        -- now elim (Hbefore r1).
    + rewrite Hres. split; [discriminate |].
      intros Hall. now elim (Hall r0).
Qed.

(** X11.  For a non-empty label the answer of [_findRow] does not
    depend on how many rows the grid has beyond the last row with
    content. *)
Theorem findRow_ignores_grid_size (m1 m2 : nat) (sh : Sheet)
  (label : string) :
  label <> "" ->
  (lastRowN sh <= m1)%nat ->
  (lastRowN sh <= m2)%nat ->
  _findRow m1 sh label = _findRow m2 sh label.
Proof.
  intros Hlabel H1 H2.
  assert (Hin : forall r, cellAt sh r 0 = VStr label -> (r < lastRowN sh)%nat).
  { intros r Hc. apply (lastRowN_content sh r 0). rewrite Hc.
    now apply VStr_nonblank. }
  destruct (findRow_inv m1 sh label)
    as [[Hn1 Hall1] | (r1 & Hres1 & Hr1 & Hc1 & Hb1)];
    destruct (findRow_inv m2 sh label)
      as [[Hn2 Hall2] | (r2 & Hres2 & Hr2 & Hc2 & Hb2)].
  - congruence.
  - elim (Hall1 r2); [| exact Hc2]. pose proof (Hin r2 Hc2). lia.
  - elim (Hall2 r1); [| exact Hc1]. pose proof (Hin r1 Hc1). lia.
  - rewrite Hres1, Hres2.
    assert (r1 = r2) as ->; [| reflexivity].
    destruct (Nat.lt_trichotomy r1 r2) as [Hlt | [Heq | Hgt]].
    + now elim (Hb2 r1).
    + exact Heq.
    + now elim (Hb1 r2).
Qed.

Lemma findRow_ignores_grid_size_witness :
  _findRow 4 eventDescription "Location"
  = _findRow 1000 eventDescription "Location".
Proof.
  apply (findRow_ignores_grid_size 4 1000 eventDescription "Location").
  - discriminate.
  - vm_compute. lia.
  - vm_compute. lia.
Defined.

(** X12.  [getEventName] never raises.  It returns what column B holds
    in the first row labelled "Event Name", as a string, and [null]
    when that cell is empty, [0] or [false], whatever later rows with
    the same label hold; without such a row, or without the sheet, it
    logs the fact and returns [null]. *)
Theorem getEventName_reads_first_labelled_row (js : JsStrings)
  (maxRows : nat) (ss : option Sheet) :
  eventNameCompletion (getEventName js maxRows ss) = Returned
  /\ (ss = None ->
      getEventName js maxRows ss
      = mkEventNameResult Returned [LogEventDescriptionSheetNotFound] None)
  /\ (forall sh, ss = Some sh ->
      (forall r, (r < maxRows)%nat -> cellAt sh r 0 <> VStr "Event Name") ->
      getEventName js maxRows ss
      = mkEventNameResult Returned [LogEventNameRowNotFound] None)
  /\ (forall sh r0, ss = Some sh ->
      (r0 < maxRows)%nat ->
      cellAt sh r0 0 = VStr "Event Name" ->
      (forall r, (r < r0)%nat -> cellAt sh r 0 <> VStr "Event Name") ->
      getEventName js maxRows ss
      = mkEventNameResult Returned []
          (if truthyValue (cellAt sh r0 1)
           then Some (valueToString js (cellAt sh r0 1))
           else None)).
Proof.
  destruct ss as [sh |].
  2:{ repeat split; try discriminate. }
  assert (Hfound : forall r0 : nat,
            _findRow maxRows sh "Event Name" = Some (Z.of_nat r0 + 1) ->
            getEventName js maxRows (Some sh)
            = mkEventNameResult Returned []
                (if truthyValue (cellAt sh r0 1)
                 then Some (valueToString js (cellAt sh r0 1))
                 else None)).
  { intros r0 Hres. unfold getEventName. rewrite Hres.
    unfold truthy, getValue, validRange.
    destruct (Z.eqb_spec (Z.of_nat r0 + 1) 0); [lia |]. cbn [negb].
    destruct (Z.leb_spec 1 (Z.of_nat r0 + 1)); [| lia].
    cbn [andb]. change ((1 <=? 2) && (1 <=? 1) && (1 <=? 1))%bool with true.
    cbv iota.
    replace (Z.to_nat (Z.of_nat r0 + 1 - 1)) with r0 by lia.
    reflexivity. }
  destruct (findRow_inv maxRows sh "Event Name")
    as [[Hnone Hall] | (r0 & Hres & Hr0 & Hc & Hbefore)].
  - assert (Hres : getEventName js maxRows (Some sh)
                   = mkEventNameResult Returned [LogEventNameRowNotFound] None)
      by (unfold getEventName; now rewrite Hnone).
    rewrite Hres. split; [reflexivity |]. split; [discriminate |].
    split; [reflexivity |].
    intros sh0 r1 Hsh Hr1 Hc1 _. injection Hsh as Hsh. subst sh0.
    now elim (Hall r1).
  - rewrite (Hfound r0 Hres). split; [reflexivity |].
    split; [discriminate |]. split.
    + intros sh0 Hsh Hall. injection Hsh as Hsh. subst sh0.
      now elim (Hall r0).
    + intros sh0 r1 Hsh Hr1 Hc1 Hb1. injection Hsh as Hsh. subst sh0.
      assert (r1 = r0) as ->; [| reflexivity].
      destruct (Nat.lt_trichotomy r0 r1) as [Hlt | [Heq | Hgt]].
      * now elim (Hb1 r0).
      * now symmetry.
      * now elim (Hbefore r1).
Qed.

(** An Event Description sheet with the label on two rows. *)
Example event_name_scenario :
  getEventName asciiStrings 1000 (Some eventDescription)
  = mkEventNameResult Returned [] (Some "Spring Gala").
Proof. reflexivity. Qed.

(** ** The Config sheet's form keys *)

Section ConfigKeys.

Variable js : JsStrings.

Lemma existsb_findIndexFrom {A : Type} (p : A -> bool) (l : list A) (i : Z) :
  0 <= i ->
  existsb p l = negb (findIndexFrom p l i =? -1).
Proof.
  revert i. induction l as [| x t IH]; intros i Hi; cbn [existsb findIndexFrom].
  - reflexivity.
  - destruct (p x); cbn [orb].
    + destruct (Z.eqb_spec i (-1)); [lia | reflexivity].
    + apply IH. lia.
Qed.

Lemma rowHasKey_cell (key : string) (sh : Sheet) (r n : nat) :
  (1 <= n)%nat ->
  rowHasKey js key (rowValues sh r 0 n) = cellHasKey js key (cellAt sh r 0).
Proof.
  intros Hn. unfold rowHasKey, rowValues.
  destruct n as [| n]; [lia |]. reflexivity.
Qed.

Lemma cellHasKey_content (key : string) (sh : Sheet) (r : nat) :
  cellHasKey js key (cellAt sh r 0) = true -> (r < lastRowN sh)%nat.
Proof.
  intros H. apply (lastRowN_content sh r 0). intros Hb.
  rewrite Hb in H. discriminate.
Qed.

(** Where the scan of column A for a key stops. *)
Lemma key_scan_inv (key : string) (sh : Sheet) :
  (findIndexFrom (rowHasKey js key) (getDataRangeValues sh) 0 = -1
   /\ forall r, cellHasKey js key (cellAt sh r 0) = false)
  \/ (exists r0 : nat,
        findIndexFrom (rowHasKey js key) (getDataRangeValues sh) 0
        = Z.of_nat r0
        /\ cellHasKey js key (cellAt sh r0 0) = true
        /\ forall r, (r < r0)%nat -> cellHasKey js key (cellAt sh r 0) = false).
Proof.
  unfold getDataRangeValues.
  set (f := fun r => rowValues sh r 0 (Nat.max 1 (lastColumnN sh))).
  assert (Hpf : forall r, rowHasKey js key (f r)
                          = cellHasKey js key (cellAt sh r 0))
    by (intros r; apply rowHasKey_cell; lia).
  destruct (findIndexFrom_seq_inv (rowHasKey js key) f 0
              (Nat.max 1 (lastRowN sh)))
    as [[Hnone Hall] | (r0 & Hres & Hr0 & Hp & Hbefore)].
  - left. split; [exact Hnone |]. intros r.
    destruct (Nat.lt_ge_cases r (Nat.max 1 (lastRowN sh))) as [Hin | Hout].
    + rewrite <- Hpf. apply Hall. lia.
    + destruct (cellHasKey js key (cellAt sh r 0)) eqn:Hk; [| reflexivity].
      apply cellHasKey_content in Hk. lia.
  - right. exists r0. split; [exact Hres |].
    split; [now rewrite <- Hpf |].
    intros r Hr. rewrite <- Hpf. apply Hbefore. lia.
Qed.

Lemma saved_existsb (sh : Sheet) (key url editUrl : string) :
  saved (saveFormUrl js (Some sh) key url editUrl)
  = existsb (rowHasKey js key) (getDataRangeValues sh).
Proof.
  unfold saveFormUrl. cbv zeta.
  rewrite (existsb_findIndexFrom _ _ 0) by lia.
  now destruct (_ =? -1).
Qed.

End ConfigKeys.

(** X13.  [checkConfigEntries] returns [true] exactly when
    [saveFormUrl] would succeed for each of the three form keys on the
    same sheet, and on an existing Config sheet it logs the keys for
    which [saveFormUrl] would fail, in the order registration,
    volunteer, speaker. *)
Theorem check_agrees_with_save (js : JsStrings) (ss : option Sheet) :
  (snd (checkConfigEntries js ss) = true <->
   forall key url editUrl, In key formKeys ->
     saved (saveFormUrl js ss key url editUrl) = true)
  /\ (forall sh, ss = Some sh ->
      fst (checkConfigEntries js ss)
      = map LogFormKeyNotFound
          (filter (fun key => negb (saved (saveFormUrl js ss key "" "")))
             formKeys)).
Proof.
  destruct ss as [sh |].
  2:{ split; [| intros sh H; discriminate]. cbn. split; [discriminate |].
      intros H. apply (H "speaker form" "" ""). cbn. tauto. }
  assert (Hs : forall key url editUrl,
            saved (saveFormUrl js (Some sh) key url editUrl)
            = existsb (rowHasKey js key) (getDataRangeValues sh))
    by (intros; apply saved_existsb).
  unfold checkConfigEntries, formKeys. cbn [fold_left filter map fst snd].
  rewrite !Hs.
  destruct (existsb (rowHasKey js "registration form") _) eqn:H1,
    (existsb (rowHasKey js "volunteer sign up") _) eqn:H2,
    (existsb (rowHasKey js "speaker form") _) eqn:H3;
    cbn [negb fst snd app map];
    (split; [| intros sh0 _; reflexivity]);
    (split;
     [ intros Htrue; try discriminate;
       intros key url editUrl [<- | [<- | [<- | []]]]; rewrite Hs; assumption
     | intros Hall; try reflexivity ]).
  all: try (specialize (Hall "registration form" "" ""
                          ltac:(cbn; tauto));
            rewrite Hs in Hall; congruence).
  all: try (specialize (Hall "volunteer sign up" "" ""
                          ltac:(cbn; tauto));
            rewrite Hs in Hall; congruence).
  all: try (specialize (Hall "speaker form" "" ""
                          ltac:(cbn; tauto));
            rewrite Hs in Hall; congruence).
Qed.

(** X14.  [saveFormUrl] writes one formula, in column B of the first
    row whose column A cell is truthy and equals the key once both are
    in lower case, and returns [true]; when no row has such a cell it
    writes nothing, logs that the key was not found and returns
    [false]. *)
Theorem saveFormUrl_writes_first_matching_row (js : JsStrings) (sh : Sheet)
  (key url editUrl : string) :
  (forall r0 : nat,
     cellHasKey js key (cellAt sh r0 0) = true ->
     (forall r, (r < r0)%nat -> cellHasKey js key (cellAt sh r 0) = false) ->
     saveFormUrl js (Some sh) key url editUrl
     = mkSaveResult true [LogFormUrlSaved key]
         (Some (mkFormulaWrite (Z.of_nat r0 + 1) 2 url key)))
  /\ ((forall r, cellHasKey js key (cellAt sh r 0) = false) ->
      saveFormUrl js (Some sh) key url editUrl
      = mkSaveResult false [LogKeyNotFound key] None).
Proof.
  unfold saveFormUrl. cbv zeta.
  destruct (key_scan_inv js key sh)
    as [[Hnone Hall] | (r1 & Hres & Hk1 & Hb1)].
  - rewrite Hnone. cbn. split; [| reflexivity].
    intros r0 Hk0 _. rewrite Hall in Hk0. discriminate.
  - rewrite Hres.
    destruct (Z.eqb_spec (Z.of_nat r1) (-1)); [lia |]. split.
    + intros r0 Hk0 Hb0.
      assert (r0 = r1) as ->; [| reflexivity].
      destruct (Nat.lt_trichotomy r0 r1) as [Hlt | [Heq | Hgt]].
      * rewrite (Hb1 r0 Hlt) in Hk0. discriminate.
      * exact Heq.
      * rewrite (Hb0 r1 Hgt) in Hk1. discriminate.
    + intros Hall. rewrite Hall in Hk1. discriminate.
Qed.

(** A Config sheet whose registration key is capitalised. *)
Example save_form_url_scenario :
  saveFormUrl asciiStrings (Some configSample) "registration form"
    "https://forms.example/r" "https://forms.example/r/edit"
  = mkSaveResult true [LogFormUrlSaved "registration form"]
      (Some (mkFormulaWrite 3 2 "https://forms.example/r"
               "registration form"))
  /\ checkConfigEntries asciiStrings (Some configSample) = ([], true).
Proof. split; reflexivity. Qed.

(** ** The Cue Builder sheet *)

Section CueRows.

Variable js : JsStrings.

Lemma mapWithIndexFrom_seq {A B : Type} (g : A -> Z -> B) (f : nat -> A)
  (d : Z) (a k : nat) :
  mapWithIndexFrom g (map f (seq a k)) (Z.of_nat a + d)
  = map (fun r => g (f r) (Z.of_nat r + d)) (seq a k).
Proof.
  revert a. induction k as [| k IH]; intros a; [reflexivity |].
  cbn [seq map mapWithIndexFrom]. f_equal.
  replace (Z.of_nat a + d + 1) with (Z.of_nat (S a) + d) by lia.
  apply IH.
Qed.

Lemma filter_map_comm {A B : Type} (p : B -> bool) (h : A -> B) (l : list A) :
  filter p (map h l) = map h (filter (fun x => p (h x)) l).
Proof.
  induction l as [| x t IH]; [reflexivity |].
  cbn [map filter]. destruct (p (h x)); cbn [map]; now rewrite IH.
Qed.

(** The result, row by row. *)
Lemma getCueBuilderData_rows (sh : Sheet) :
  getCueBuilderData js (Some sh)
  = Some (map (cueAt js sh)
            (filter (fun r => validCue (cueAt js sh r))
               (seq 1 (lastRowN sh - 1)))).
Proof.
  unfold getCueBuilderData. cbv zeta.
  assert (Hlen : length (getDataRangeValues sh) = Nat.max 1 (lastRowN sh))
    by (unfold getDataRangeValues; now rewrite length_map, length_seq).
  rewrite Hlen.
  destruct (Z.ltb_spec (Z.of_nat (Nat.max 1 (lastRowN sh))) 2) as [Hlt | Hge].
  - replace (lastRowN sh - 1)%nat with 0%nat by lia. reflexivity.
  - assert (Hhead : nth 0 (getDataRangeValues sh) []
                    = rowValues sh 0 0 (Nat.max 1 (lastColumnN sh))).
    { unfold getDataRangeValues.
      destruct (Nat.max 1 (lastRowN sh)) as [| m] eqn:Hm; [lia |].
      reflexivity. }
    rewrite Hhead. fold (cueHeaders js sh).
    unfold getDataRangeValues. rewrite tl_map_seq.
    replace (Nat.max 1 (lastRowN sh) - 1)%nat with (lastRowN sh - 1)%nat
      by lia.
    pose proof (mapWithIndexFrom_seq (cueOfRow (cueHeaders js sh))
                  (fun r => rowValues sh r 0 (Nat.max 1 (lastColumnN sh)))
                  (-1) 1 (lastRowN sh - 1)) as Hm.
    change (Z.of_nat 1 + -1) with 0 in Hm. rewrite Hm.
    rewrite filter_map_comm. reflexivity.
Qed.

Lemma originalRow_cueAt (sh : Sheet) (r : nat) :
  originalRow (cueAt js sh r) = Z.of_nat r + 1.
Proof. unfold cueAt, cueOfRow. cbn [originalRow]. lia. Qed.

(** The rows kept are in sheet order. *)
Lemma kept_rows_sorted (q : nat -> bool) (h : nat -> Z) (a k : nat) :
  (forall r, h r = Z.of_nat r + 1) ->
  Sorted.StronglySorted Z.lt (map h (filter q (seq a k)))
  /\ Forall (fun z => Z.of_nat a + 1 <= z) (map h (filter q (seq a k))).
Proof.
  intros Hh. revert a. induction k as [| k IH]; intros a.
  - cbn. split; constructor.
  - cbn [seq filter]. destruct (IH (S a)) as (Hs & Hf).
    assert (Hf' : Forall (fun z => Z.of_nat a + 1 <= z)
                    (map h (filter q (seq (S a) k)))).
    { eapply Forall_impl; [| exact Hf]. cbn beta. intros z Hz. lia. }
    destruct (q a); cbn [map]; [| now split].
    split.
    + constructor; [exact Hs |].
      eapply Forall_impl; [| exact Hf]. cbn beta. intros z Hz.
      rewrite Hh. lia.
    + constructor; [rewrite Hh; lia | exact Hf'].
Qed.

(** A header that is found names a column of the data range, and the
    cue's field is the cell of its row in that column. *)
Lemma cue_field_cell (sh : Sheet) (r : nat) (h : string) :
  indexOf h (cueHeaders js sh) <> -1 ->
  exists c : nat,
    indexOf h (cueHeaders js sh) = Z.of_nat c
    /\ toLowerCase js (valueToString js (cellAt sh 0 c)) = h
    /\ arrayGet (map Some (rowValues sh r 0 (Nat.max 1 (lastColumnN sh))))
         (indexOf h (cueHeaders js sh))
       = Some (cellAt sh r c).
Proof.
  intros Hfound.
  assert (Hheaders : cueHeaders js sh
                     = map (fun c => toLowerCase js
                                       (valueToString js (cellAt sh 0 c)))
                         (seq 0 (Nat.max 1 (lastColumnN sh))))
    by (unfold cueHeaders, rowValues; now rewrite map_map).
  unfold indexOf, findIndex in *. rewrite Hheaders in *.
  destruct (findIndexFrom_seq_inv (String.eqb h)
              (fun c => toLowerCase js (valueToString js (cellAt sh 0 c)))
              0 (Nat.max 1 (lastColumnN sh)))
    as [[Hnone _] | (c & Hres & Hc & Hp & _)].
  - change (Z.of_nat 0) with 0 in Hnone. contradiction.
  - change (Z.of_nat 0) with 0 in Hres. exists c. rewrite Hres.
    split; [reflexivity |].
    split; [apply String.eqb_eq in Hp; now symmetry |].
    rewrite <- nth_arrayGet. unfold rowValues. rewrite map_map.
    rewrite (nth_indep _ None (Some (cellAt sh r 0)))
      by (rewrite length_map, length_seq; lia).
    rewrite (map_nth (fun c => Some (cellAt sh r c))).
    rewrite seq_nth by lia. reflexivity.
Qed.

Lemma cue_field_absent (row : list value) (headers : list string)
  (h : string) :
  indexOf h headers = -1 ->
  arrayGet (map Some row) (indexOf h headers) = None.
Proof. intros ->. reflexivity. Qed.

(** Each field of a cue is read under the first header that reads as
    the field's header. *)
Lemma reads_field (sh : Sheet) (r : nat) (h : string) :
  readsUnder js sh r h
    (arrayGet (map Some (rowValues sh r 0 (Nat.max 1 (lastColumnN sh))))
       (indexOf h (cueHeaders js sh))).
Proof.
  assert (Hheaders : cueHeaders js sh
                     = map (fun c => toLowerCase js
                                       (valueToString js (cellAt sh 0 c)))
                         (seq 0 (Nat.max 1 (lastColumnN sh))))
    by (unfold cueHeaders, rowValues; now rewrite map_map).
  split.
  - intros c (Hc & Hh & Hbefore).
    assert (Hix : indexOf h (cueHeaders js sh) = Z.of_nat c).
    { unfold indexOf, findIndex. rewrite Hheaders.
      change 0 with (Z.of_nat 0).
      apply (findIndexFrom_seq_first (String.eqb h)
               (fun c => toLowerCase js (valueToString js (cellAt sh 0 c)))).
      - lia.
      - apply String.eqb_eq. now symmetry.
      - intros c' Hc'. apply String.eqb_neq. intros Heq.
        apply (Hbefore c'); [lia | now symmetry]. }
    rewrite Hix, <- nth_arrayGet. unfold rowValues. rewrite map_map.
    rewrite (nth_indep _ None (Some (cellAt sh r 0)))
      by (rewrite length_map, length_seq; lia).
    rewrite (map_nth (fun c => Some (cellAt sh r c))).
    rewrite seq_nth by lia. reflexivity.
  - intros Hnone. apply cue_field_absent.
    unfold indexOf, findIndex. rewrite Hheaders.
    change 0 with (Z.of_nat 0).
    apply (findIndexFrom_seq_none (String.eqb h)
             (fun c => toLowerCase js (valueToString js (cellAt sh 0 c)))).
    intros c Hc. apply String.eqb_neq. intros Heq.
    apply (Hnone c); [lia | now symmetry].
Qed.

End CueRows.

(** X15.  With [ci] and [ct] the first columns whose headers read
    "schedule item" and "cue title" in lower case: every row below the
    header row whose cells in both columns are truthy yields a cue;
    every cue [getCueBuilderData] returns comes from such a row, has
    the number of that row as [originalRow], holds the row's cells in
    [ci] and [ct] as schedule item and title, and holds in each other
    field the row's cell under the first header that reads as the
    field's header, or [undefined] without such a header, the duration
    being [0] where that cell is missing or falsy; the cues are in
    sheet order. *)
Theorem cues_are_the_valid_rows (js : JsStrings) (sh : Sheet)
  (cues : list Cue) (ci ct : nat) :
  getCueBuilderData js (Some sh) = Some cues ->
  firstHeader js sh "schedule item" ci ->
  firstHeader js sh "cue title" ct ->
  (forall r,
     isRecord sh r ->
     truthyValue (cellAt sh r ci) = true ->
     truthyValue (cellAt sh r ct) = true ->
     exists cue, In cue cues /\ originalRow cue = Z.of_nat r + 1)
  /\ (forall cue, In cue cues ->
      exists r,
        isRecord sh r
        /\ originalRow cue = Z.of_nat r + 1
        /\ scheduleItem cue = Some (cellAt sh r ci)
        /\ cueTitle cue = Some (cellAt sh r ct)
        /\ truthyValue (cellAt sh r ci) = true
        /\ truthyValue (cellAt sh r ct) = true
        /\ readsUnder js sh r "lead / talent" (lead cue)
        /\ (exists o,
              readsUnder js sh r "est. duration (mins)" o
              /\ duration cue
                 = match o with
                   | Some v => if truthyValue v then v else VNum 0
                   | None => VNum 0
                   end)
        /\ readsUnder js sh r "mc script / notes" (mcScript cue)
        /\ readsUnder js sh r "lighting cue" (lightingCue cue)
        /\ readsUnder js sh r "audio / sound cue" (audioCue cue)
        /\ readsUnder js sh r "visuals / screen cue" (visualsCue cue))
  /\ Sorted.StronglySorted Z.lt (map originalRow cues).
Proof.
  rewrite getCueBuilderData_rows. intros H Hci Hct. injection H as <-.
  assert (Hs : forall r, scheduleItem (cueAt js sh r) = Some (cellAt sh r ci)).
  { intros r. unfold cueAt, cueOfRow. cbv zeta. cbn [scheduleItem].
    now apply reads_field. }
  assert (Ht : forall r, cueTitle (cueAt js sh r) = Some (cellAt sh r ct)).
  { intros r. unfold cueAt, cueOfRow. cbv zeta. cbn [cueTitle].
    now apply reads_field. }
  assert (Hvalid : forall r,
            validCue (cueAt js sh r)
            = truthyValue (cellAt sh r ci) && truthyValue (cellAt sh r ct)).
  { intros r. unfold validCue. now rewrite Hs, Ht. }
  split; [| split].
  - intros r (Hr1 & Hr2) Hti Htt.
    exists (cueAt js sh r). split; [| apply originalRow_cueAt].
    apply in_map. apply filter_In. split; [apply in_seq; lia |].
    rewrite Hvalid, Hti, Htt. reflexivity.
  - intros cue Hcue. apply in_map_iff in Hcue.
    destruct Hcue as (r & <- & Hr). apply filter_In in Hr.
    destruct Hr as (Hr & Hv). apply in_seq in Hr.
    rewrite Hvalid in Hv. apply andb_prop in Hv. destruct Hv as (Hti & Htt).
    exists r. split; [unfold isRecord; lia |].
    split; [apply originalRow_cueAt |].
    split; [apply Hs |]. split; [apply Ht |].
    split; [exact Hti |]. split; [exact Htt |].
    unfold cueAt, cueOfRow. cbv zeta.
    cbn [lead duration mcScript lightingCue audioCue visualsCue].
    split; [apply reads_field |].
    split; [eexists; split; [apply reads_field | reflexivity] |].
    split; [apply reads_field |]. split; [apply reads_field |].
    split; apply reads_field.
  - rewrite map_map.
    apply (kept_rows_sorted _ (fun r => originalRow (cueAt js sh r))).
    intros r. apply originalRow_cueAt.
Qed.

Lemma cues_are_the_valid_rows_witness :
  (forall r,
     isRecord cueRundown r ->
     truthyValue (cellAt cueRundown r 0) = true ->
     truthyValue (cellAt cueRundown r 1) = true ->
     exists cue,
       In cue
         [mkCue (Some (VStr "Opening")) (Some (VStr "Doors")) None (VNum 0)
            None None None None 2;
          mkCue (Some (VStr "Opening")) (Some (VStr "Lights")) None (VNum 0)
            None None None None 3;
          mkCue (Some (VStr "Keynote")) (Some (VStr "Walk-on")) None (VNum 0)
            None None None None 4]
       /\ originalRow cue = Z.of_nat r + 1)
  /\ Sorted.StronglySorted Z.lt
       (map originalRow
          [mkCue (Some (VStr "Opening")) (Some (VStr "Doors")) None (VNum 0)
             None None None None 2;
           mkCue (Some (VStr "Opening")) (Some (VStr "Lights")) None (VNum 0)
             None None None None 3;
           mkCue (Some (VStr "Keynote")) (Some (VStr "Walk-on")) None (VNum 0)
             None None None None 4]).
Proof.
  destruct (cues_are_the_valid_rows asciiStrings cueRundown
              [mkCue (Some (VStr "Opening")) (Some (VStr "Doors")) None
                 (VNum 0) None None None None 2;
               mkCue (Some (VStr "Opening")) (Some (VStr "Lights")) None
                 (VNum 0) None None None None 3;
               mkCue (Some (VStr "Keynote")) (Some (VStr "Walk-on")) None
                 (VNum 0) None None None None 4] 0 1)
    as (Hall & _ & Hsorted).
  - reflexivity.
  - split; [vm_compute; lia |]. split; [reflexivity |]. intros c' Hc'. lia.
  - split; [vm_compute; lia |]. split; [reflexivity |]. intros c' Hc'.
    destruct c' as [| c']; [discriminate | lia].
  - split; [exact Hall | exact Hsorted].
Defined.

(** X16.  [getCueBuilderData] throws when the Cue Builder sheet is
    missing.  It returns no cue when the sheet has no row below its
    first row, and also when no header reads "schedule item", or none
    reads "cue title", in lower case. *)
Theorem no_cues_without_rows_or_headers (js : JsStrings) :
  getCueBuilderData js None = None
  /\ (forall sh, getLastRow sh <= 1 ->
      getCueBuilderData js (Some sh) = Some [])
  /\ (forall sh h,
      h = "schedule item" \/ h = "cue title" ->
      (forall c, (c < Nat.max 1 (lastColumnN sh))%nat ->
         toLowerCase js (valueToString js (cellAt sh 0 c)) <> h) ->
      getCueBuilderData js (Some sh) = Some []).
Proof.
  split; [reflexivity |]. split.
  - intros sh Hlast. rewrite getCueBuilderData_rows.
    unfold getLastRow in Hlast.
    replace (lastRowN sh - 1)%nat with 0%nat by lia. reflexivity.
  - intros sh h Hh Hnone. rewrite getCueBuilderData_rows. f_equal.
    assert (Habsent : indexOf h (cueHeaders js sh) = -1).
    { unfold indexOf, findIndex, cueHeaders, rowValues. rewrite map_map.
      change 0 with (Z.of_nat 0).
      apply (findIndexFrom_seq_none (String.eqb h)
               (fun c => toLowerCase js (valueToString js (cellAt sh 0 c)))).
      intros c Hc. apply String.eqb_neq. intros Heq.
      apply (Hnone c); [lia | now symmetry]. }
    assert (Hinvalid : forall r, validCue (cueAt js sh r) = false).
    { intros r. unfold validCue, cueAt, cueOfRow. cbv zeta.
      cbn [scheduleItem cueTitle].
      destruct Hh as [-> | ->]; rewrite (cue_field_absent _ _ _ Habsent);
        cbn [truthyCell]; [reflexivity | apply andb_false_r]. }
    induction (seq 1 (lastRowN sh - 1)) as [| r t IH]; [reflexivity |].
    cbn [filter]. now rewrite Hinvalid.
Qed.

(** A Cue Builder sheet with one row that lacks its title. *)
Example cue_builder_scenario :
  option_map (map originalRow)
    (getCueBuilderData asciiStrings (Some cueBuilder))
  = Some [2; 4].
Proof. reflexivity. Qed.

(** ** Calls in sequence *)

Section Sequence.

Lemma columnOf_le (sh : Sheet) (s : string) :
  s <> "" -> columnOf sh s <= Z.of_nat (lastColumnN sh).
Proof.
  intros Hs. destruct (Z.eq_dec (columnOf sh s) 0) as [-> | Hne]; [lia |].
  destruct (columnOf_header sh s Hs Hne) as (_ & Hb & _). lia.
Qed.

(** To the right of every resolved column the written row is empty. *)
Lemma rowCell_beyond (sh : Sheet) (data : Contact) (t : value) (c : nat)
  (bound : Z) :
  (forall s, s <> "" -> columnOf sh s <= bound) ->
  bound <= Z.of_nat c ->
  rowCell (columnsOf (headerRow sh)) data t c = blank.
Proof.
  intros Hb Hc.
  apply rowCell_other;
    match goal with
    | |- _ <> columnOf sh ?s =>
        pose proof (Hb s ltac:(discriminate)); lia
    end.
Qed.

Lemma sameStore_refl (ss : option Sheet) : sameStore ss ss.
Proof. destruct ss; cbn; [apply sameCells_refl | exact I]. Qed.

(** A second call for the address of the row just written rewrites
    that row with the second contact. *)
Lemma rerun_other (sh : Sheet) (A B : Contact) (R : nat) :
  requiredColumns sh ->
  (1 <= R)%nat ->
  email A <> "" ->
  email B = email A ->
  (forall r, (1 <= r < R)%nat ->
     cellAt sh r (colIx sh "Email") <> VStr (email A)) ->
  exists sh2 entry,
    addOrUpdatePersonInPeopleSheet
      (Some (writeRow sh R
               (map (rowCell (columnsOf (headerRow sh)) A
                       (cellAt sh R (colIx sh "Assigned Tasks")))
                  (seq 0 (lastColumnN sh))))) B
    = returned [entry] (Some sh2)
    /\ sameCells sh2
         (writeRow sh R
            (map (rowCell (columnsOf (headerRow sh)) B
                    (cellAt sh R (colIx sh "Assigned Tasks")))
               (seq 0 (lastColumnN sh)))).
Proof.
  intros Hreq HR HA HB Hbefore.
  set (t := cellAt sh R (colIx sh "Assigned Tasks")).
  set (sh1 := writeRow sh R
                (map (rowCell (columnsOf (headerRow sh)) A t)
                   (seq 0 (lastColumnN sh)))).
  destruct (rerun_same sh A R Hreq HR HA Hbefore) as (Hfirst & _).
  fold t sh1 in Hfirst. rewrite <- HB in Hfirst.
  assert (Hreq1 : requiredColumns sh1)
    by (unfold sh1; now apply written_requiredColumns).
  rewrite (outcome_update sh1 B R Hreq1 Hfirst).
  eexists. eexists. split; [reflexivity |].
  assert (Hn1 : (lastColumnN sh1 <= lastColumnN sh)%nat).
  { unfold sh1. apply written_lastColumnN; [exact HR |].
    rewrite length_map, length_seq. lia. }
  assert (Hcs : columnsOf (headerRow sh1) = columnsOf (headerRow sh))
    by (unfold sh1; now apply written_columnsOf).
  assert (Hcell1 : forall c, cellAt sh1 R c
                             = if (c <? lastColumnN sh)%nat
                               then rowCell (columnsOf (headerRow sh)) A t c
                               else cellAt sh R c).
  { intros c. unfold sh1. rewrite cellAt_written, Nat.eqb_refl. reflexivity. }
  assert (Ht1 : tasksCol (columnsOf (headerRow sh)) <> 0 ->
                cellAt sh1 R (colIx sh1 "Assigned Tasks") = t).
  { intros Ht.
    change (tasksCol (columnsOf (headerRow sh)))
      with (columnOf sh "Assigned Tasks") in Ht.
    destruct (colIx_within sh "Assigned Tasks" ltac:(discriminate) Ht)
      as (Htlt & Htix).
    unfold sh1 at 2. rewrite written_colIx by (lia || discriminate).
    rewrite Hcell1.
    destruct (Nat.ltb_spec (colIx sh "Assigned Tasks") (lastColumnN sh));
      [| lia].
    now apply rowCell_tasks. }
  intros r c. rewrite !cellAt_written.
  destruct (Nat.eqb_spec r R) as [-> | Hne]; cbn [andb].
  2:{ unfold sh1. rewrite cellAt_written.
      destruct (Nat.eqb_spec r R); [contradiction | reflexivity]. }
  rewrite Hcs.
  destruct (Nat.ltb_spec c (lastColumnN sh1)) as [Hin | Hout].
  - destruct (Nat.ltb_spec c (lastColumnN sh)); [| lia].
    now apply rowCell_tasks_value.
  - rewrite (lastColumnN_beyond sh1 R c Hout).
    destruct (Nat.ltb_spec c (lastColumnN sh)) as [Hc | Hc].
    + symmetry. apply (rowCell_beyond sh B t c (Z.of_nat (lastColumnN sh1))).
      * intros s Hs. unfold sh1.
        rewrite <- (written_columnOf sh R
                      (map (rowCell (columnsOf (headerRow sh)) A t)
                         (seq 0 (lastColumnN sh))) HR s Hs).
        now apply columnOf_le.
      * lia.
    + symmetry. now apply lastColumnN_beyond.
Qed.

End Sequence.

(** X17.  The later of two calls for the same non-empty address wins:
    the roster after both calls is the roster the second call alone
    would have produced. *)
Theorem later_call_overrides_earlier (ss : option Sheet) (A B : Contact) :
  email A <> "" ->
  email B = email A ->
  sameStore
    (people
       (addOrUpdatePersonInPeopleSheet
          (people (addOrUpdatePersonInPeopleSheet ss A)) B))
    (people (addOrUpdatePersonInPeopleSheet ss B)).
Proof.
  intros HA HB. destruct ss as [sh |]; [| exact I].
  destruct (outcome_cases sh A)
    as [(_ & ->) | [(_ & _ & ->) | [(Hreq & r0 & Hf & ->)
                                   | (Hreq & Hn & ->)]]];
    cbn [people returned]; try apply sameStore_refl.
  - pose proof Hf as (((HR & _) & _) & Hbefore).
    destruct (rerun_other sh A B r0 Hreq HR HA HB Hbefore)
      as (sh2 & entry & -> & Hsame).
    rewrite <- HB in Hf. rewrite (outcome_update sh B r0 Hreq Hf).
    exact Hsame.
  - pose proof (requiredColumns_header_row sh Hreq) as HR.
    rewrite <- HB in Hn. rewrite (outcome_append sh B Hreq Hn).
    replace (rowCell (columnsOf (headerRow sh)) A blank)
      with (rowCell (columnsOf (headerRow sh)) A
              (cellAt sh (lastRowN sh) (colIx sh "Assigned Tasks")))
      by (now rewrite lastRowN_beyond).
    replace (rowCell (columnsOf (headerRow sh)) B blank)
      with (rowCell (columnsOf (headerRow sh)) B
              (cellAt sh (lastRowN sh) (colIx sh "Assigned Tasks")))
      by (now rewrite lastRowN_beyond).
    destruct (rerun_other sh A B (lastRowN sh) Hreq HR HA HB)
      as (sh2 & entry & -> & Hsame).
    + intros r Hr. rewrite <- HB. apply Hn. exact Hr.
    + exact Hsame.
Qed.

Lemma later_call_overrides_earlier_witness :
  sameStore
    (people
       (addOrUpdatePersonInPeopleSheet
          (people (addOrUpdatePersonInPeopleSheet (Some rosterEmpty)
                     contactAna))
          (withRole "Usher" contactAna)))
    (people
       (addOrUpdatePersonInPeopleSheet (Some rosterEmpty)
          (withRole "Usher" contactAna))).
Proof.
  apply (later_call_overrides_earlier (Some rosterEmpty) contactAna
           (withRole "Usher" contactAna)).
  - vm_compute. discriminate.
  - reflexivity.
Defined.

(** X18.  Of two columns under the same header only the first is
    populated.  When [c1] is the first column whose header is [s], one
    of Name, Category, Role/Position, Status, Email, Phone and Assigned
    Tasks, and a later column [c2] has the same header, then in the
    row a call writes the cell in [c1] holds the contact's value for
    [s] (for Assigned Tasks: what the cell held) and the cell in [c2]
    is empty. *)
Theorem repeated_header_column_is_emptied (sh : Sheet) (data : Contact)
  (s : string) (c1 c2 : nat) :
  requiredColumns sh ->
  In s resolvedHeaders ->
  cellAt sh 0 c1 = VStr s ->
  (forall c, (c < c1)%nat -> cellAt sh 0 c <> VStr s) ->
  (c1 < c2)%nat ->
  cellAt sh 0 c2 = VStr s ->
  exists R sh' entry,
    addOrUpdatePersonInPeopleSheet (Some sh) data
    = returned [entry] (Some sh')
    /\ (entry = LogUpdated (name data) (email data) (Z.of_nat R + 1)
        \/ entry = LogAdded (name data) (email data) (Z.of_nat R + 1))
    /\ cellAt sh' R c2 = blank
    /\ (s = "Name" -> cellAt sh' R c1 = VStr (name data))
    /\ (s = "Category" -> cellAt sh' R c1 = VStr (category data))
    /\ (s = "Role/Position" -> cellAt sh' R c1 = VStr (role data))
    /\ (s = "Status" -> cellAt sh' R c1 = VStr (status data))
    /\ (s = "Email" -> cellAt sh' R c1 = VStr (email data))
    /\ (s = "Phone" -> cellAt sh' R c1 = VStr (phone data))
    /\ (s = "Assigned Tasks" -> cellAt sh' R c1 = cellAt sh R c1).
Proof.
  intros Hreq Hs Hc1 Hfirst Hlt Hc2.
  assert (Hne : s <> "").
  { intros ->. cbn in Hs. repeat destruct Hs as [Hs | Hs]; discriminate || easy. }
  pose proof (columnOf_first sh s c1 Hne Hc1 Hfirst) as Hcol.
  assert (Hin1 : (c1 < lastColumnN sh)%nat).
  { apply (lastColumnN_content sh 0 c1). rewrite Hc1. now apply VStr_nonblank. }
  assert (Hrow : forall t R,
            cellAt (writeRow sh R
                      (map (rowCell (columnsOf (headerRow sh)) data t)
                         (seq 0 (lastColumnN sh)))) R c2 = blank
            /\ cellAt (writeRow sh R
                         (map (rowCell (columnsOf (headerRow sh)) data t)
                            (seq 0 (lastColumnN sh)))) R c1
               = rowCell (columnsOf (headerRow sh)) data t c1).
  { intros t R. rewrite !cellAt_written, Nat.eqb_refl. cbn [andb]. split.
    - destruct (Nat.ltb_spec c2 (lastColumnN sh)) as [Hin | Hout];
        [| now apply lastColumnN_beyond].
      assert (Hother : forall s', s' <> "" ->
                Z.of_nat c2 + 1 <> columnOf sh s').
      { intros s' Hs' Heq.
        pose proof (header_at sh s' c2 Hs' Heq) as Hc2'.
        assert (s' = s) by congruence. subst s'. lia. }
      apply rowCell_other; apply Hother; discriminate.
    - destruct (Nat.ltb_spec c1 (lastColumnN sh)); [reflexivity | lia]. }
  assert (Hcells : forall t R,
            t = cellAt sh R c1 \/ s <> "Assigned Tasks" ->
            cellAt (writeRow sh R
                      (map (rowCell (columnsOf (headerRow sh)) data t)
                         (seq 0 (lastColumnN sh)))) R c2 = blank
            /\ (s = "Name" ->
                cellAt (writeRow sh R
                          (map (rowCell (columnsOf (headerRow sh)) data t)
                             (seq 0 (lastColumnN sh)))) R c1
                = VStr (name data))
            /\ (s = "Category" ->
                cellAt (writeRow sh R
                          (map (rowCell (columnsOf (headerRow sh)) data t)
                             (seq 0 (lastColumnN sh)))) R c1
                = VStr (category data))
            /\ (s = "Role/Position" ->
                cellAt (writeRow sh R
                          (map (rowCell (columnsOf (headerRow sh)) data t)
                             (seq 0 (lastColumnN sh)))) R c1
                = VStr (role data))
            /\ (s = "Status" ->
                cellAt (writeRow sh R
                          (map (rowCell (columnsOf (headerRow sh)) data t)
                             (seq 0 (lastColumnN sh)))) R c1
                = VStr (status data))
            /\ (s = "Email" ->
                cellAt (writeRow sh R
                          (map (rowCell (columnsOf (headerRow sh)) data t)
                             (seq 0 (lastColumnN sh)))) R c1
                = VStr (email data))
            /\ (s = "Phone" ->
                cellAt (writeRow sh R
                          (map (rowCell (columnsOf (headerRow sh)) data t)
                             (seq 0 (lastColumnN sh)))) R c1
                = VStr (phone data))
            /\ (s = "Assigned Tasks" ->
                cellAt (writeRow sh R
                          (map (rowCell (columnsOf (headerRow sh)) data t)
                             (seq 0 (lastColumnN sh)))) R c1
                = cellAt sh R c1)).
  { intros t R Ht. destruct (Hrow t R) as (Hblank & Hcell).
    split; [exact Hblank |]. rewrite Hcell.
    repeat split; intros ->.
    - apply rowCell_name. lia.
    - apply rowCell_category. lia.
    - apply rowCell_role. lia.
    - apply rowCell_status. lia.
    - apply rowCell_email. lia.
    - apply rowCell_phone. lia.
    - rewrite rowCell_tasks by lia.
      destruct Ht as [-> | Ht]; [reflexivity | contradiction]. }
  assert (Hix : s = "Assigned Tasks" -> colIx sh "Assigned Tasks" = c1).
  { intros ->. unfold colIx. lia. }
  destruct (first_or_none sh (email data) Hreq) as [(r0 & Hf) | Hn].
  - rewrite (outcome_update sh data r0 Hreq Hf).
    exists r0. eexists. eexists. split; [reflexivity |].
    split; [now left |]. apply Hcells.
    destruct (string_dec s "Assigned Tasks") as [Heq | Hneq];
      [left; now rewrite (Hix Heq) | now right].
  - rewrite (outcome_append sh data Hreq Hn).
    exists (lastRowN sh). eexists. eexists. split; [reflexivity |].
    split; [right; reflexivity |]. apply Hcells.
    left. now rewrite lastRowN_beyond.
Qed.

Lemma repeated_header_column_is_emptied_witness :
  exists R sh' entry,
    addOrUpdatePersonInPeopleSheet (Some rosterTwoPhones) contactBen
    = returned [entry] (Some sh')
    /\ (entry = LogUpdated (name contactBen) (email contactBen)
                  (Z.of_nat R + 1)
        \/ entry = LogAdded (name contactBen) (email contactBen)
                     (Z.of_nat R + 1))
    /\ cellAt sh' R 4 = blank
    /\ ("Phone" = "Name" -> cellAt sh' R 3 = VStr (name contactBen))
    /\ ("Phone" = "Category" -> cellAt sh' R 3 = VStr (category contactBen))
    /\ ("Phone" = "Role/Position" -> cellAt sh' R 3 = VStr (role contactBen))
    /\ ("Phone" = "Status" -> cellAt sh' R 3 = VStr (status contactBen))
    /\ ("Phone" = "Email" -> cellAt sh' R 3 = VStr (email contactBen))
    /\ ("Phone" = "Phone" -> cellAt sh' R 3 = VStr (phone contactBen))
    /\ ("Phone" = "Assigned Tasks" ->
        cellAt sh' R 3 = cellAt rosterTwoPhones R 3).
Proof.
  apply (repeated_header_column_is_emptied rosterTwoPhones contactBen
           "Phone" 3 4).
  - unfold requiredColumns. vm_compute. repeat split; discriminate.
  - cbn. tauto.
  - reflexivity.
  - intros c Hc.
    destruct c as [| [| [| c]]]; [discriminate | discriminate | discriminate | lia].
  - lia.
  - reflexivity.
Defined.

(** A roster with two Phone columns. *)
Example repeated_header_scenario :
  addOrUpdatePersonInPeopleSheet (Some rosterTwoPhones) contactBen
  = returned [LogUpdated "Benjamin" "ben@x.com" 2]
      (Some [[VStr "Name"; VStr "Category"; VStr "Email"; VStr "Phone";
              VStr "Phone"];
             [VStr "Benjamin"; VStr "Staff"; VStr "ben@x.com";
              VStr "555-0199"; VStr ""]]).
Proof. reflexivity. Qed.

(** ** Calls for two different addresses *)

Section TwoAddresses.

Variables (sh : Sheet) (C D : Contact) (tC : value) (R1 RD : nat).
Hypothesis Hreq : requiredColumns sh.
Hypothesis R1_below_header : (1 <= R1)%nat.
Hypothesis C_has_address : email C <> "".
Hypothesis D_has_address : email D <> "".
Hypothesis other_address : email D <> email C.
Hypothesis other_row : RD <> R1.

(** The sheet after the row of [C] was written at [R1]. *)
Abbreviation sh1 :=
  (writeRow sh R1
     (map (rowCell (columnsOf (headerRow sh)) C tC) (seq 0 (lastColumnN sh)))).

Lemma written_email_cell :
  cellAt sh1 R1 (colIx sh "Email") = VStr (email C).
Proof.
  destruct Hreq as (_ & _ & He).
  destruct (colIx_within sh "Email" ltac:(discriminate) He) as (Helt & Heix).
  rewrite cellAt_written, Nat.eqb_refl. cbn [andb].
  destruct (Nat.ltb_spec (colIx sh "Email") (lastColumnN sh)); [| lia].
  now apply rowCell_email.
Qed.

Lemma other_rows_kept (r c : nat) :
  r <> R1 -> cellAt sh1 r c = cellAt sh r c.
Proof.
  intros Hr. rewrite cellAt_written.
  destruct (Nat.eqb_spec r R1); [contradiction | reflexivity].
Qed.

Lemma not_the_address_of_D (r : nat) :
  (r = R1 \/ cellAt sh r (colIx sh "Email") <> VStr (email D)) ->
  cellAt sh1 r (colIx sh1 "Email") <> VStr (email D).
Proof.
  intros Hr. rewrite written_colIx by (lia || discriminate).
  destruct (Nat.eq_dec r R1) as [-> | Hne].
  - rewrite written_email_cell. congruence.
  - rewrite other_rows_kept by exact Hne.
    destruct Hr; [contradiction | assumption].
Qed.

(** The record of [D] is where it was. *)
Lemma first_record_kept :
  firstRecordWith sh (email D) RD -> firstRecordWith sh1 (email D) RD.
Proof.
  intros (((HR & _) & Hcell) & Hbefore). split.
  - apply carries_nonempty; [exact D_has_address | exact HR |].
    rewrite written_colIx by (lia || discriminate).
    now rewrite other_rows_kept.
  - intros r Hr. apply not_the_address_of_D.
    destruct (Nat.eq_dec r R1); [now left | right; now apply Hbefore].
Qed.

(** An address no record carried is still carried by none. *)
Lemma no_record_kept :
  noRecordWith sh (email D) -> noRecordWith sh1 (email D).
Proof.
  intros Hn r (Hr1 & _). apply not_the_address_of_D.
  destruct (Nat.eq_dec r R1); [now left | right].
  destruct (Nat.lt_ge_cases r (lastRowN sh)) as [Hlt | Hge].
  - apply Hn. split; lia.
  - rewrite lastRowN_beyond by exact Hge.
    intros Heq. injection Heq as Heq. now apply D_has_address.
Qed.

(** Writing a record that has an address leaves the end of the sheet
    where it was. *)
Lemma record_written_lastRowN :
  (R1 < lastRowN sh)%nat -> lastRowN sh1 = lastRowN sh.
Proof.
  intros HR. apply Nat.le_antisymm.
  - etransitivity; [apply written_lastRowN; try exact R1_below_header |].
    lia.
  - destruct (lastRowN sh) as [| k] eqn:Hk; [lia |].
    destruct (Nat.eq_dec k R1) as [-> | Hne].
    + apply (lastRowN_content sh1 R1 (colIx sh "Email")).
      rewrite written_email_cell. now apply VStr_nonblank.
    + destruct (lastRowN_at sh k Hk) as (c & Hc).
      apply (lastRowN_content sh1 k c).
      now rewrite other_rows_kept.
Qed.

(** The call for [D] on the sheet the row of [C] was written to writes
    the row it would have written to the sheet before, at the same
    place. *)
Lemma call_after_write :
  firstRecordWith sh (email D) RD
  \/ (noRecordWith sh (email D) /\ RD = lastRowN sh
      /\ (R1 < lastRowN sh)%nat) ->
  exists entry sh2,
    addOrUpdatePersonInPeopleSheet (Some sh1) D
    = returned [entry] (Some sh2)
    /\ sameCells sh2
         (writeRow sh1 RD
            (map (rowCell (columnsOf (headerRow sh)) D
                    (cellAt sh RD (colIx sh "Assigned Tasks")))
               (seq 0 (lastColumnN sh)))).
Proof.
  intros Htarget.
  assert (Hreq1 : requiredColumns sh1) by now apply written_requiredColumns.
  assert (Hn1 : (lastColumnN sh1 <= lastColumnN sh)%nat).
  { apply written_lastColumnN; [exact R1_below_header |].
    rewrite length_map, length_seq. lia. }
  assert (Hres : exists entry,
            addOrUpdatePersonInPeopleSheet (Some sh1) D
            = returned [entry]
                (Some (writeRow sh1 RD
                         (map (rowCell (columnsOf (headerRow sh)) D
                                 (cellAt sh RD (colIx sh "Assigned Tasks")))
                            (seq 0 (lastColumnN sh1)))))).
  { destruct Htarget as [Hf | (Hn & HRD & HR)].
    - rewrite (outcome_update sh1 D RD Hreq1 (first_record_kept Hf)).
      eexists. rewrite written_columnsOf by exact R1_below_header.
      rewrite written_colIx by (lia || discriminate).
      rewrite other_rows_kept by exact other_row. reflexivity.
    - rewrite (outcome_append sh1 D Hreq1 (no_record_kept Hn)).
      eexists. rewrite written_columnsOf by exact R1_below_header.
      rewrite (record_written_lastRowN HR), HRD.
      rewrite (lastRowN_beyond sh (lastRowN sh)) by lia. reflexivity. }
  destruct Hres as (entry & ->). eexists. eexists. split; [reflexivity |].
  intros r c. rewrite (cellAt_written sh1 RD (lastColumnN sh1)).
  rewrite (cellAt_written sh1 RD (lastColumnN sh)).
  destruct (Nat.eqb_spec r RD) as [-> | Hne]; cbn [andb]; [| reflexivity].
  destruct (Nat.ltb_spec c (lastColumnN sh1)) as [Hin | Hout].
  - destruct (Nat.ltb_spec c (lastColumnN sh)); [reflexivity | lia].
  - destruct (Nat.ltb_spec c (lastColumnN sh)) as [Hc | Hc]; [| reflexivity].
    rewrite (lastColumnN_beyond sh1 RD c Hout). symmetry.
    apply (rowCell_beyond sh D _ c (Z.of_nat (lastColumnN sh1))); [| lia].
    intros s Hs.
    rewrite <- (written_columnOf sh R1
                  (map (rowCell (columnsOf (headerRow sh)) C tC)
                     (seq 0 (lastColumnN sh))) R1_below_header s Hs).
    now apply columnOf_le.
Qed.

End TwoAddresses.

(** X19.  Two calls for different non-empty addresses, one of which is
    already in the roster, can be made in either order: the roster
    after both is the same. *)
Theorem calls_for_different_people_commute
  (sh : Sheet) (A B : Contact) (rA : nat) :
  requiredColumns sh ->
  email A <> "" ->
  email B <> "" ->
  email A <> email B ->
  firstRecordWith sh (email A) rA ->
  sameStore
    (people
       (addOrUpdatePersonInPeopleSheet
          (people (addOrUpdatePersonInPeopleSheet (Some sh) A)) B))
    (people
       (addOrUpdatePersonInPeopleSheet
          (people (addOrUpdatePersonInPeopleSheet (Some sh) B)) A)).
Proof.
  intros Hreq HA HB Hdiff HfA.
  pose proof HfA as (((HrA & HrA') & HcellA) & _).
  rewrite (outcome_update sh A rA Hreq HfA). cbn [people returned].
  destruct (first_or_none sh (email B) Hreq) as [(rB & HfB) | HnB].
  - pose proof HfB as (((HrB & _) & HcellB) & _).
    assert (Hrows : rB <> rA) by congruence.
    rewrite (outcome_update sh B rB Hreq HfB). cbn [people returned].
    destruct (call_after_write sh A B (cellAt sh rA (colIx sh "Assigned Tasks"))
                rA rB Hreq HrA HA HB (not_eq_sym Hdiff) Hrows (or_introl HfB))
      as (e1 & s1 & -> & H1).
    destruct (call_after_write sh B A (cellAt sh rB (colIx sh "Assigned Tasks"))
                rB rA Hreq HrB HB HA Hdiff (not_eq_sym Hrows) (or_introl HfA))
      as (e2 & s2 & -> & H2).
    cbn [people returned sameStore]. intros r c.
    rewrite H1, H2, !cellAt_written.
    destruct (Nat.eqb_spec r rA) as [HeA | HnA],
      (Nat.eqb_spec r rB) as [HeB | HnB];
      cbn [andb]; try reflexivity.
    congruence.
  - pose proof (requiredColumns_header_row sh Hreq) as Hm.
    assert (Hrows : lastRowN sh <> rA) by lia.
    rewrite (outcome_append sh B Hreq HnB). cbn [people returned].
    destruct (call_after_write sh A B (cellAt sh rA (colIx sh "Assigned Tasks"))
                rA (lastRowN sh) Hreq HrA HA HB (not_eq_sym Hdiff) Hrows
                (or_intror (conj HnB (conj eq_refl HrA'))))
      as (e1 & s1 & -> & H1).
    destruct (call_after_write sh B A blank
                (lastRowN sh) rA Hreq Hm HB HA Hdiff (not_eq_sym Hrows)
                (or_introl HfA))
      as (e2 & s2 & -> & H2).
    cbn [people returned sameStore]. intros r c.
    rewrite H1, H2, !cellAt_written.
    rewrite (lastRowN_beyond sh (lastRowN sh)) by lia.
    destruct (Nat.eqb_spec r rA) as [HeA | HnA],
      (Nat.eqb_spec r (lastRowN sh)) as [Heq | Hne];
      cbn [andb]; try reflexivity.
    lia.
Qed.

Lemma calls_for_different_people_commute_witness :
  sameStore
    (people
       (addOrUpdatePersonInPeopleSheet
          (people (addOrUpdatePersonInPeopleSheet (Some rosterAna)
                     contactAna)) contactBen))
    (people
       (addOrUpdatePersonInPeopleSheet
          (people (addOrUpdatePersonInPeopleSheet (Some rosterAna)
                     contactBen)) contactAna)).
Proof.
  apply (calls_for_different_people_commute rosterAna contactAna contactBen 1).
  - unfold requiredColumns. vm_compute. repeat split; discriminate.
  - discriminate.
  - discriminate.
  - discriminate.
  - split; [split; [unfold isRecord; vm_compute; lia | reflexivity] |].
    intros r Hr. lia.
Defined.

(** Two contacts that are both new end up in the order of the calls. *)
Example new_contacts_keep_call_order :
  people
    (addOrUpdatePersonInPeopleSheet
       (people (addOrUpdatePersonInPeopleSheet (Some rosterMinimal)
                  contactLower)) contactCy)
  = Some [[VStr "Name"; VStr "Category"; VStr "Email"];
          [VStr "Al"; VStr "Participant"; VStr "a@x.com"];
          [VStr "Cy Young"; VStr "Speaker"; VStr "cy@x.com"]]
  /\ people
       (addOrUpdatePersonInPeopleSheet
          (people (addOrUpdatePersonInPeopleSheet (Some rosterMinimal)
                     contactCy)) contactLower)
     = Some [[VStr "Name"; VStr "Category"; VStr "Email"];
             [VStr "Cy Young"; VStr "Speaker"; VStr "cy@x.com"];
             [VStr "Al"; VStr "Participant"; VStr "a@x.com"]].
Proof. split; reflexivity. Qed.
